(** * TDLS auto-mode controller: shallow embedding and verified properties

    Embedding of [wpa_supplicant/tdls_auto_mode.c] (peer registry, rate
    sampler, the four timer handlers and the public entry points) and of the
    initialisation path of [wpa_supplicant/tdls_auto_glue.c].

    Conventions.
    - C [unsigned int] and [u32] values are integers in [0, 2^32); every
      operation that can leave the range is followed by [u32] (reduction
      modulo 2^32).  C [int] values are integers; the one narrowing
      conversion of the source ([delta_msec]) is written out with [to_int].
    - The intrusive list [ctx->peers] is a [list]; [dl_list_add] inserts at
      the head.  A peer pointer obtained from [tdls_auto_find_peer] denotes
      the first entry carrying that address, so a write through the pointer
      is [peer_store] on that address.
    - The capability callbacks of [struct wpas_tdls_auto_ctx] are external:
      every invocation is appended to the [calls] log of the context and
      whatever the callback returns is read from a [driver] record.
      [disconnect] may call [tdls_auto_peer_disconnected] before it
      returns; whether it does is part of the driver's answer
      ([disconnect_calls_back]) and the nested call is run where the source
      makes the capability call.  [connect] is the last action of the one
      function that calls it, so a [connected] callback made from inside it
      is the [connected] event delivered right after the response; like the
      other driver events it is a separate top-level call.
    - The event loop is represented by the pending registration of each of
      the four handlers ([eloop]): [None] when nothing is pending, [Some us]
      when a timeout of [us] microseconds is registered. *)

From Stdlib Require Import ZArith List Bool Lia.
From Stdlib.Strings Require Import Byte.
Import ListNotations.
Local Open Scope Z_scope.

(** ** Machine integers *)

Definition u32 (x : Z) : Z := x mod 2 ^ 32.

(* conversion of a wider signed value to a 32-bit [int] *)
Definition to_int (x : Z) : Z := (x + 2 ^ 31) mod 2 ^ 32 - 2 ^ 31.

Definition TDLS_AUTO_MAX_FAST_CONN_ATTEMPTS : Z := 20.
Definition TDLS_AUTO_MIN_SAMPLE_TIME_DIFF_MSEC : Z := 100.

(** ** Addresses *)

(* u8 addr[ETH_ALEN], ETH_ALEN = 6 *)
Definition macaddr : Type := (byte * byte * byte * byte * byte * byte)%type.

(* os_memcmp(a, b, ETH_ALEN) == 0 *)
Definition addr_eqb (a b : macaddr) : bool :=
  let '(a0, a1, a2, a3, a4, a5) := a in
  let '(b0, b1, b2, b3, b4, b5) := b in
  Byte.eqb a0 b0 && Byte.eqb a1 b1 && Byte.eqb a2 b2 &&
  Byte.eqb a3 b3 && Byte.eqb a4 b4 && Byte.eqb a5 b5.

(** ** Time *)

Record os_reltime := mk_reltime { sec : Z; usec : Z }.

(** Modelled from the spec: [os_reltime_sub] is declared in the
    repository's [utils/os.h], outside the files embedded here; the
    specification only says that the sampler takes "the time since
    [last_query_time]".  The difference is taken field by field with a
    borrow from the seconds when the microseconds go negative. *)
Definition os_reltime_sub (a b : os_reltime) : os_reltime :=
  let s := sec a - sec b in
  let u := usec a - usec b in
  if u <? 0 then mk_reltime (s - 1) (u + 1000000) else mk_reltime s u.

(* delta_msec = diff.sec * 1000 + diff.usec / 1000, stored in an int *)
Definition delta_msec (now last : os_reltime) : Z :=
  let diff := os_reltime_sub now last in
  to_int (sec diff * 1000 + Z.quot (usec diff) 1000).

(** ** Peers *)

Record tdls_auto_peer := mk_peer {
  addr : macaddr;
  connected : bool;
  rssi : Z;
  low_rssi_vals : Z;
  fast_attempts : Z;
  data_rate : Z;
  last_query_time : os_reltime;
  last_rx_bytes : Z;
  last_tx_bytes : Z;
  incoming_peer : bool
}.

Definition set_connected (v : bool) (p : tdls_auto_peer) : tdls_auto_peer :=
  mk_peer (addr p) v (rssi p) (low_rssi_vals p) (fast_attempts p)
          (data_rate p) (last_query_time p) (last_rx_bytes p)
          (last_tx_bytes p) (incoming_peer p).

Definition set_rssi (v : Z) (p : tdls_auto_peer) : tdls_auto_peer :=
  mk_peer (addr p) (connected p) v (low_rssi_vals p) (fast_attempts p)
          (data_rate p) (last_query_time p) (last_rx_bytes p)
          (last_tx_bytes p) (incoming_peer p).

Definition set_low_rssi_vals (v : Z) (p : tdls_auto_peer) : tdls_auto_peer :=
  mk_peer (addr p) (connected p) (rssi p) v (fast_attempts p)
          (data_rate p) (last_query_time p) (last_rx_bytes p)
          (last_tx_bytes p) (incoming_peer p).

Definition set_fast_attempts (v : Z) (p : tdls_auto_peer) : tdls_auto_peer :=
  mk_peer (addr p) (connected p) (rssi p) (low_rssi_vals p) v
          (data_rate p) (last_query_time p) (last_rx_bytes p)
          (last_tx_bytes p) (incoming_peer p).

Definition set_data_rate (v : Z) (p : tdls_auto_peer) : tdls_auto_peer :=
  mk_peer (addr p) (connected p) (rssi p) (low_rssi_vals p) (fast_attempts p)
          v (last_query_time p) (last_rx_bytes p)
          (last_tx_bytes p) (incoming_peer p).

Definition set_sample (t : os_reltime) (rx tx : Z) (p : tdls_auto_peer)
  : tdls_auto_peer :=
  mk_peer (addr p) (connected p) (rssi p) (low_rssi_vals p) (fast_attempts p)
          (data_rate p) t rx tx (incoming_peer p).

Definition set_incoming_peer (v : bool) (p : tdls_auto_peer) : tdls_auto_peer :=
  mk_peer (addr p) (connected p) (rssi p) (low_rssi_vals p) (fast_attempts p)
          (data_rate p) (last_query_time p) (last_rx_bytes p)
          (last_tx_bytes p) v.

(* a zeroed peer allocation followed by os_memcpy(peer->addr, addr, ETH_ALEN) *)
Definition zalloc_peer (a : macaddr) : tdls_auto_peer :=
  mk_peer a false 0 0 0 0 (mk_reltime 0 0) 0 0 false.

(** ** Configuration, capabilities, event loop *)

(* the configuration members of struct wpas_tdls_auto_ctx *)
Record wpas_tdls_auto_ctx := mk_extn {
  tdls_auto_rssi_connect_threshold : Z;
  tdls_auto_data_connect_threshold : Z;
  tdls_auto_fast_connect_period : Z;
  tdls_auto_slow_connect_period : Z;
  tdls_auto_data_teardown_threshold : Z;
  tdls_auto_data_teardown_period : Z;
  tdls_auto_rssi_teardown_threshold : Z;
  tdls_auto_rssi_teardown_period : Z;
  tdls_auto_rssi_teardown_count : Z;
  tdls_auto_max_connected_peers : Z
}.

(* One entry per invocation of a function pointer of wpas_tdls_auto_ctx.
   [StoreToFreedPeer] is not an invocation: it marks a store through the
   pointer to the entry of [a] made after that entry was released with
   os_free, where the behaviour of the C program is undefined. *)
Inductive call :=
| Connect (a : macaddr)
| Disconnect (a : macaddr)
| SendDiscovery (a : macaddr)
| GetRssi (a : macaddr)
| MonitorTraffic (a : macaddr) (add : bool)
| GetStaBytes (a : macaddr)
| StoreToFreedPeer (a : macaddr).

(* What the outside world answers during one top-level call.  The clock is
   read once per sampled peer, hence indexed by the peer being sampled;
   [get_sta_bytes] answers [None] for a non-zero return and [Some (tx, rx)]
   for the two counters it stores on success; [disconnect_calls_back] says
   whether the disconnect capability, called for that peer, calls
   tdls_auto_peer_disconnected before it returns. *)
Record driver := mk_driver {
  os_get_reltime : macaddr -> os_reltime;
  get_rssi : macaddr -> Z;
  monitor_traffic : macaddr -> bool -> Z;
  get_sta_bytes : macaddr -> option (Z * Z);
  connect : macaddr -> Z;
  disconnect_calls_back : macaddr -> bool;
  os_zalloc_ok : bool
}.

Inductive handler :=
| fast_connect_timeout
| slow_connect_timeout
| data_teardown_timeout
| rssi_teardown_timeout.

Record eloop := mk_eloop {
  fast_pending : option Z;
  slow_pending : option Z;
  data_pending : option Z;
  rssi_pending : option Z
}.

Definition pending (h : handler) (l : eloop) : option Z :=
  match h with
  | fast_connect_timeout => fast_pending l
  | slow_connect_timeout => slow_pending l
  | data_teardown_timeout => data_pending l
  | rssi_teardown_timeout => rssi_pending l
  end.

Definition set_pending (h : handler) (v : option Z) (l : eloop) : eloop :=
  match h with
  | fast_connect_timeout =>
      mk_eloop v (slow_pending l) (data_pending l) (rssi_pending l)
  | slow_connect_timeout =>
      mk_eloop (fast_pending l) v (data_pending l) (rssi_pending l)
  | data_teardown_timeout =>
      mk_eloop (fast_pending l) (slow_pending l) v (rssi_pending l)
  | rssi_teardown_timeout =>
      mk_eloop (fast_pending l) (slow_pending l) (data_pending l) v
  end.

(** ** Controller context

    [peers], [peer_count], [conn_peer_count] and [extn] are the members of
    [struct tdls_auto_mode_ctx]; [timeouts] holds the event-loop
    registrations made with this context and [calls] the capability
    invocations so far, oldest first. *)
Record tdls_auto_mode_ctx := mk_ctx {
  peers : list tdls_auto_peer;
  peer_count : Z;
  conn_peer_count : Z;
  extn : wpas_tdls_auto_ctx;
  timeouts : eloop;
  calls : list call
}.

Definition set_peers (v : list tdls_auto_peer) (c : tdls_auto_mode_ctx) :=
  mk_ctx v (peer_count c) (conn_peer_count c) (extn c) (timeouts c) (calls c).

Definition set_peer_count (v : Z) (c : tdls_auto_mode_ctx) :=
  mk_ctx (peers c) v (conn_peer_count c) (extn c) (timeouts c) (calls c).

Definition set_conn_peer_count (v : Z) (c : tdls_auto_mode_ctx) :=
  mk_ctx (peers c) (peer_count c) v (extn c) (timeouts c) (calls c).

Definition set_timeouts (v : eloop) (c : tdls_auto_mode_ctx) :=
  mk_ctx (peers c) (peer_count c) (conn_peer_count c) (extn c) v (calls c).

Definition log (cs : list call) (c : tdls_auto_mode_ctx) :=
  mk_ctx (peers c) (peer_count c) (conn_peer_count c) (extn c) (timeouts c)
         (calls c ++ cs).

(** ** Registry primitives *)

Fixpoint find_in (ps : list tdls_auto_peer) (a : macaddr)
  : option tdls_auto_peer :=
  match ps with
  | [] => None
  | p :: tl => if addr_eqb (addr p) a then Some p else find_in tl a
  end.

Definition tdls_auto_find_peer (ctx : tdls_auto_mode_ctx) (a : macaddr)
  : option tdls_auto_peer :=
  find_in (peers ctx) a.

(* a write through the pointer returned by tdls_auto_find_peer *)
Fixpoint peer_store (a : macaddr) (f : tdls_auto_peer -> tdls_auto_peer)
         (ps : list tdls_auto_peer) : list tdls_auto_peer :=
  match ps with
  | [] => []
  | p :: tl => if addr_eqb (addr p) a then f p :: tl
               else p :: peer_store a f tl
  end.

Definition update_peer (a : macaddr) (f : tdls_auto_peer -> tdls_auto_peer)
           (ctx : tdls_auto_mode_ctx) : tdls_auto_mode_ctx :=
  set_peers (peer_store a f (peers ctx)) ctx.

(* dl_list_del on the entry returned by tdls_auto_find_peer *)
Fixpoint peer_unlink (a : macaddr) (ps : list tdls_auto_peer)
  : list tdls_auto_peer :=
  match ps with
  | [] => []
  | p :: tl => if addr_eqb (addr p) a then tl else p :: peer_unlink a tl
  end.

Definition tdls_auto_peer_add_to_list (d : driver) (ctx : tdls_auto_mode_ctx)
           (a : macaddr) : tdls_auto_mode_ctx * bool :=
  if os_zalloc_ok d then
    (set_peer_count (u32 (peer_count ctx + 1))
       (set_peers (zalloc_peer a :: peers ctx) ctx), true)
  else (ctx, false).

(* eloop_cancel_timeout then eloop_register_timeout(0, 1000 * msecs, ...) *)
Definition tdls_auto_set_timer (ctx : tdls_auto_mode_ctx) (msecs : Z)
           (h : handler) : tdls_auto_mode_ctx :=
  set_timeouts (set_pending h (Some (u32 (1000 * msecs))) (timeouts ctx)) ctx.

Definition tdls_auto_cancel_timer (ctx : tdls_auto_mode_ctx) (h : handler)
  : tdls_auto_mode_ctx :=
  set_timeouts (set_pending h None (timeouts ctx)) ctx.

(** ** Samplers *)

Definition tdls_auto_get_connected_sta_rssi (d : driver) (p : tdls_auto_peer)
  : tdls_auto_peer * list call :=
  (set_rssi (get_rssi d (addr p)) p, [GetRssi (addr p)]).

Definition tdls_auto_get_peer_data_rate (d : driver) (p : tdls_auto_peer)
  : tdls_auto_peer * list call :=
  let now := os_get_reltime d (addr p) in
  let dm := delta_msec now (last_query_time p) in
  if dm <? TDLS_AUTO_MIN_SAMPLE_TIME_DIFF_MSEC then (p, [])
  else
    match get_sta_bytes d (addr p) with
    | None => (set_data_rate 0 p, [GetStaBytes (addr p)])
    | Some (tx, rx) =>
        let tx_bytes := u32 tx in
        let rx_bytes := u32 rx in
        let delta_bits := u32 (u32 (rx_bytes - last_rx_bytes p) * 8) in
        let delta_bits :=
          u32 (delta_bits + u32 (u32 (tx_bytes - last_tx_bytes p) * 8)) in
        (set_data_rate (u32 (delta_bits / dm * 1000))
           (set_sample now rx_bytes tx_bytes p),
         [GetStaBytes (addr p)])
    end.

(** ** Timer handlers *)

(* the body of a dl_list_for_each_safe loop that touches only its own peer *)
Fixpoint for_each_peer (body : tdls_auto_peer -> tdls_auto_peer * list call)
         (ps : list tdls_auto_peer) : list tdls_auto_peer * list call :=
  match ps with
  | [] => ([], [])
  | p :: tl =>
      let (p', cs) := body p in
      let (tl', cs') := for_each_peer body tl in
      (p' :: tl', cs ++ cs')
  end.

(* third component: peer_in_fast_connect was set by this peer *)
Definition fast_connect_body (d : driver) (cfg : wpas_tdls_auto_ctx)
           (p : tdls_auto_peer) : tdls_auto_peer * list call * bool :=
  if connected p then (p, [], false)
  else if fast_attempts p >? TDLS_AUTO_MAX_FAST_CONN_ATTEMPTS
  then (p, [], false)
  else
    let p1 := set_fast_attempts (fast_attempts p + 1) p in
    let (p2, cs) := tdls_auto_get_peer_data_rate d p1 in
    if data_rate p2 <? tdls_auto_data_connect_threshold cfg
    then (p2, cs, true)
    else (p2, cs ++ [SendDiscovery (addr p2)], true).

Fixpoint fast_connect_loop (d : driver) (cfg : wpas_tdls_auto_ctx)
         (ps : list tdls_auto_peer)
  : list tdls_auto_peer * list call * bool :=
  match ps with
  | [] => ([], [], false)
  | p :: tl =>
      let '(p', cs, f) := fast_connect_body d cfg p in
      let '(tl', cs', f') := fast_connect_loop d cfg tl in
      (p' :: tl', cs ++ cs', f || f')
  end.

Definition tdls_auto_fast_connect_timeout (d : driver)
           (ctx : tdls_auto_mode_ctx) : tdls_auto_mode_ctx :=
  let '(ps, cs, peer_in_fast_connect) :=
    fast_connect_loop d (extn ctx) (peers ctx) in
  let ctx := log cs (set_peers ps ctx) in
  if negb peer_in_fast_connect then ctx
  else tdls_auto_set_timer ctx (tdls_auto_fast_connect_period (extn ctx))
                           fast_connect_timeout.

Definition slow_connect_body (d : driver) (cfg : wpas_tdls_auto_ctx)
           (p : tdls_auto_peer) : tdls_auto_peer * list call :=
  if connected p then (p, [])
  else if fast_attempts p <=? TDLS_AUTO_MAX_FAST_CONN_ATTEMPTS then (p, [])
  else
    let (p1, cs) := tdls_auto_get_peer_data_rate d p in
    if data_rate p1 <? tdls_auto_data_connect_threshold cfg then (p1, cs)
    else (p1, cs ++ [SendDiscovery (addr p1)]).

Definition tdls_auto_slow_connect_timeout (d : driver)
           (ctx : tdls_auto_mode_ctx) : tdls_auto_mode_ctx :=
  let (ps, cs) := for_each_peer (slow_connect_body d (extn ctx)) (peers ctx) in
  let ctx := log cs (set_peers ps ctx) in
  if peer_count ctx =? 0 then ctx
  else tdls_auto_set_timer ctx (tdls_auto_slow_connect_period (extn ctx))
                           slow_connect_timeout.

(** ** Entry points that the disconnect capability can re-enter

    tdls_auto_mode_stop calls the disconnect capability, the capability may
    call tdls_auto_peer_disconnected, and that function calls
    tdls_auto_mode_stop.  Each of the three is written with the one it
    calls as a parameter; [peer_disconnected_at] closes the cycle, its
    [depth] being the number of nested re-entries of the capability that
    are followed. *)

Definition reentry : Type :=
  tdls_auto_mode_ctx -> macaddr -> tdls_auto_mode_ctx.

(* ctx->extn->disconnect(ctx->extn->ctx, addr) *)
Definition disconnect_with (peer_disconnected : reentry) (d : driver)
  : reentry :=
  fun ctx a =>
    let ctx := log [Disconnect a] ctx in
    if disconnect_calls_back d a then peer_disconnected ctx a else ctx.

Definition tdls_auto_peer_free (ctx : tdls_auto_mode_ctx)
           (p : tdls_auto_peer) : tdls_auto_mode_ctx :=
  let ctx := log [MonitorTraffic (addr p) false] ctx in
  let ctx := set_peers (peer_unlink (addr p) (peers ctx)) ctx in
  set_peer_count (u32 (peer_count ctx - 1)) ctx.

Definition mode_stop_with (disconnect : reentry) : reentry :=
  fun ctx a =>
    match tdls_auto_find_peer ctx a with
    | None => ctx
    | Some p =>
        let ctx :=
          if connected p
          then disconnect
                 (update_peer (addr p) (set_incoming_peer false) ctx)
                 (addr p)
          else ctx in
        let ctx := tdls_auto_peer_free ctx p in
        if peer_count ctx =? 0
        then tdls_auto_cancel_timer
               (tdls_auto_cancel_timer ctx fast_connect_timeout)
               slow_connect_timeout
        else ctx
    end.

Definition peer_disconnected_with (mode_stop : reentry) : reentry :=
  fun ctx a =>
    match tdls_auto_find_peer ctx a with
    | None => ctx
    | Some p =>
        let ctx := update_peer (addr p) (set_connected false) ctx in
        let ctx :=
          if incoming_peer p then mode_stop ctx (addr p)
          else
            let ctx :=
              update_peer (addr p)
                (fun q => set_fast_attempts 0 (set_low_rssi_vals 0 q)) ctx in
            tdls_auto_set_timer ctx (tdls_auto_fast_connect_period (extn ctx))
                                fast_connect_timeout in
        set_conn_peer_count (u32 (conn_peer_count ctx - 1)) ctx
    end.

Fixpoint peer_disconnected_at (depth : nat) (d : driver) : reentry :=
  peer_disconnected_with
    (mode_stop_with
       (disconnect_with
          (match depth with
           | O => fun ctx _ => ctx
           | S k => peer_disconnected_at k d
           end) d)).

(* One nested re-entry is followed; no call goes deeper, whatever the
   depth (see [disconnected_at_depth]). *)
Definition tdls_auto_peer_disconnected (d : driver) : reentry :=
  peer_disconnected_at 1 d.

Definition extn_disconnect (d : driver) : reentry :=
  disconnect_with (tdls_auto_peer_disconnected d) d.

Definition tdls_auto_mode_stop (d : driver) : reentry :=
  mode_stop_with (extn_disconnect d).

(** ** The teardown handlers

    Their loop bodies call the disconnect capability, which may change the
    registry.  The loop visits the entries present when it starts, in
    order; a visit reads the visited entry, which no earlier visit has
    touched, and writes through its pointer. *)

Definition data_teardown_visit (d : driver) (ctx : tdls_auto_mode_ctx)
           (p : tdls_auto_peer) : tdls_auto_mode_ctx :=
  if negb (connected p) then ctx
  else
    let (p1, cs) := tdls_auto_get_peer_data_rate d p in
    let ctx := log cs (update_peer (addr p) (fun _ => p1) ctx) in
    if data_rate p1 >=? tdls_auto_data_teardown_threshold (extn ctx)
    then ctx
    else extn_disconnect d ctx (addr p).

Definition tdls_auto_data_teardown_timeout (d : driver)
           (ctx : tdls_auto_mode_ctx) : tdls_auto_mode_ctx :=
  let ctx := fold_left (data_teardown_visit d) (peers ctx) ctx in
  if conn_peer_count ctx =? 0 then ctx
  else tdls_auto_set_timer ctx (tdls_auto_data_teardown_period (extn ctx))
                           data_teardown_timeout.

(* peer->low_rssi_vals = 0 after the disconnect capability has returned:
   the entry is written when it is still in the registry; when the
   callback has released it the store goes to freed memory *)
Definition store_after_disconnect (a : macaddr)
           (f : tdls_auto_peer -> tdls_auto_peer)
           (ctx : tdls_auto_mode_ctx) : tdls_auto_mode_ctx :=
  match tdls_auto_find_peer ctx a with
  | Some _ => update_peer a f ctx
  | None => log [StoreToFreedPeer a] ctx
  end.

Definition rssi_teardown_visit (d : driver) (ctx : tdls_auto_mode_ctx)
           (p : tdls_auto_peer) : tdls_auto_mode_ctx :=
  if negb (connected p) then ctx
  else
    let (p1, cs) := tdls_auto_get_connected_sta_rssi d p in
    let ctx := log cs (update_peer (addr p) (fun _ => p1) ctx) in
    if rssi p1 >=? tdls_auto_rssi_teardown_threshold (extn ctx)
    then update_peer (addr p) (set_low_rssi_vals 0) ctx
    else
      let inc := u32 (low_rssi_vals p1 + 1) in
      let ctx := update_peer (addr p) (set_low_rssi_vals inc) ctx in
      if inc <=? tdls_auto_rssi_teardown_count (extn ctx) then ctx
      else store_after_disconnect (addr p) (set_low_rssi_vals 0)
             (extn_disconnect d ctx (addr p)).

Definition tdls_auto_rssi_teardown_timeout (d : driver)
           (ctx : tdls_auto_mode_ctx) : tdls_auto_mode_ctx :=
  let ctx := fold_left (rssi_teardown_visit d) (peers ctx) ctx in
  if conn_peer_count ctx =? 0 then ctx
  else tdls_auto_set_timer ctx (tdls_auto_rssi_teardown_period (extn ctx))
                           rssi_teardown_timeout.

(** ** Entry points *)

(* The loop visits the entries present on entry; each visit writes through
   the visited entry and then stops its address. *)
Fixpoint remove_peers_loop (d : driver) (kill_active_links : bool)
         (visit : list tdls_auto_peer) (ctx : tdls_auto_mode_ctx)
  : tdls_auto_mode_ctx :=
  match visit with
  | [] => ctx
  | p :: tl =>
      let ctx :=
        if negb kill_active_links
        then update_peer (addr p) (set_connected false) ctx
        else ctx in
      remove_peers_loop d kill_active_links tl
                        (tdls_auto_mode_stop d ctx (addr p))
  end.

Definition tdls_auto_remove_peers (d : driver) (ctx : tdls_auto_mode_ctx)
           (kill_active_links : bool) : tdls_auto_mode_ctx :=
  remove_peers_loop d kill_active_links (peers ctx) ctx.

(* [None] when the context allocation fails *)
Definition tdls_auto_init (alloc_ok : bool) (extn : wpas_tdls_auto_ctx)
  : option tdls_auto_mode_ctx :=
  if alloc_ok
  then Some (mk_ctx [] 0 0 extn (mk_eloop None None None None) [])
  else None.

(* second component: whether a peer was returned *)
Definition tdls_auto_add_peer (d : driver) (ctx : tdls_auto_mode_ctx)
           (a : macaddr) : tdls_auto_mode_ctx * bool :=
  let ctx := log [MonitorTraffic a false] ctx in
  let ctx := log [MonitorTraffic a true] ctx in
  if negb (monitor_traffic d a true =? 0) then (ctx, false)
  else
    let (ctx, added) := tdls_auto_peer_add_to_list d ctx a in
    if negb added then (log [MonitorTraffic a false] ctx, false)
    else
      let ctx :=
        tdls_auto_set_timer ctx (tdls_auto_fast_connect_period (extn ctx))
                            fast_connect_timeout in
      if negb (peer_count ctx =? 1) then (ctx, true)
      else (tdls_auto_set_timer ctx
              (tdls_auto_slow_connect_period (extn ctx))
              slow_connect_timeout, true).

Definition tdls_auto_mode_start (d : driver) (ctx : tdls_auto_mode_ctx)
           (a : macaddr) : tdls_auto_mode_ctx * Z :=
  match tdls_auto_find_peer ctx a with
  | Some _ => (ctx, 0)
  | None =>
      let (ctx, added) := tdls_auto_add_peer d ctx a in
      if negb added then (ctx, -1) else (ctx, 0)
  end.

(* run [body] on the peer that tdls_auto_find_peer returns for [a] *)
Definition on_peer (a : macaddr)
           (body : tdls_auto_peer -> tdls_auto_peer * list call)
           (ctx : tdls_auto_mode_ctx) : tdls_auto_mode_ctx :=
  match tdls_auto_find_peer ctx a with
  | None => ctx
  | Some p =>
      let (p', cs) := body p in
      log cs (update_peer a (fun _ => p') ctx)
  end.

Definition tdls_auto_peer_connected (d : driver) (ctx : tdls_auto_mode_ctx)
           (a : macaddr) : tdls_auto_mode_ctx :=
  let ctx := set_conn_peer_count (u32 (conn_peer_count ctx + 1)) ctx in
  let (ctx, have_peer) :=
    match tdls_auto_find_peer ctx a with
    | Some _ => (ctx, true)
    | None =>
        let (ctx, added) := tdls_auto_add_peer d ctx a in
        if negb added then (ctx, false)
        else (update_peer a (set_incoming_peer true) ctx, true)
    end in
  if negb have_peer then ctx
  else
    let ctx := update_peer a (set_connected true) ctx in
    let ctx := on_peer a (tdls_auto_get_peer_data_rate d) ctx in
    let ctx :=
      tdls_auto_set_timer ctx (tdls_auto_data_teardown_period (extn ctx))
                          data_teardown_timeout in
    if negb (conn_peer_count ctx =? 1) then ctx
    else tdls_auto_set_timer ctx (tdls_auto_rssi_teardown_period (extn ctx))
                             rssi_teardown_timeout.

Definition tdls_auto_discovery_response (d : driver)
           (ctx : tdls_auto_mode_ctx) (a : macaddr) (rssi_in : Z)
  : tdls_auto_mode_ctx :=
  match tdls_auto_find_peer ctx a with
  | None => ctx
  | Some p =>
      let ctx := update_peer (addr p) (set_rssi rssi_in) ctx in
      if connected p then ctx
      else if rssi_in <=? tdls_auto_rssi_connect_threshold (extn ctx) then ctx
      else
        let (p1, cs) := tdls_auto_get_peer_data_rate d (set_rssi rssi_in p) in
        let ctx := log cs (update_peer (addr p) (fun _ => p1) ctx) in
        if data_rate p1 <? tdls_auto_data_connect_threshold (extn ctx)
        then ctx
        else if conn_peer_count ctx >=?
                tdls_auto_max_connected_peers (extn ctx)
        then ctx
        else log [Connect (addr p)] ctx
  end.

(** ** Event loop dispatch and top-level events *)

Definition run_handler (h : handler) (d : driver) (ctx : tdls_auto_mode_ctx)
  : tdls_auto_mode_ctx :=
  match h with
  | fast_connect_timeout => tdls_auto_fast_connect_timeout d ctx
  | slow_connect_timeout => tdls_auto_slow_connect_timeout d ctx
  | data_teardown_timeout => tdls_auto_data_teardown_timeout d ctx
  | rssi_teardown_timeout => tdls_auto_rssi_teardown_timeout d ctx
  end.

(* a registered timeout expires: the event loop drops the registration and
   calls the handler; nothing happens when no registration is pending *)
Definition eloop_fire (h : handler) (d : driver) (ctx : tdls_auto_mode_ctx)
  : tdls_auto_mode_ctx :=
  match pending h (timeouts ctx) with
  | None => ctx
  | Some _ => run_handler h d (tdls_auto_cancel_timer ctx h)
  end.

Inductive event :=
| EvStart (a : macaddr)
| EvStop (a : macaddr)
| EvConnected (a : macaddr)
| EvDisconnected (a : macaddr)
| EvDiscoveryResponse (a : macaddr) (rssi_in : Z)
| EvRemovePeers (kill_active_links : bool)
| EvTimeout (h : handler).

Definition step (d : driver) (ev : event) (ctx : tdls_auto_mode_ctx)
  : tdls_auto_mode_ctx :=
  match ev with
  | EvStart a => fst (tdls_auto_mode_start d ctx a)
  | EvStop a => tdls_auto_mode_stop d ctx a
  | EvConnected a => tdls_auto_peer_connected d ctx a
  | EvDisconnected a => tdls_auto_peer_disconnected d ctx a
  | EvDiscoveryResponse a r => tdls_auto_discovery_response d ctx a r
  | EvRemovePeers k => tdls_auto_remove_peers d ctx k
  | EvTimeout h => eloop_fire h d ctx
  end.

(* a run: each event comes with what the outside world answers during it *)
Fixpoint run (evs : list (driver * event)) (ctx : tdls_auto_mode_ctx)
  : tdls_auto_mode_ctx :=
  match evs with
  | [] => ctx
  | (d, ev) :: tl => run tl (step d ev ctx)
  end.

Definition init_ctx (cfg : wpas_tdls_auto_ctx) : tdls_auto_mode_ctx :=
  mk_ctx [] 0 0 cfg (mk_eloop None None None None) [].

Inductive reachable (cfg : wpas_tdls_auto_ctx) : tdls_auto_mode_ctx -> Prop :=
| reach_init : reachable cfg (init_ctx cfg)
| reach_step d ev ctx :
    reachable cfg ctx -> reachable cfg (step d ev ctx).

(* |{ p : p.connected }| *)
Definition connected_peers (ctx : tdls_auto_mode_ctx) : Z :=
  Z.of_nat (length (filter connected (peers ctx))).

Definition registry_size (ctx : tdls_auto_mode_ctx) : Z :=
  Z.of_nat (length (peers ctx)).

(** ** Supplicant glue: initialisation and gating *)

Module Config.
(* the TDLS auto-mode members of struct wpa_config *)
Record wpa_config := mk_conf {
  tdls_auto_enabled : bool;
  tdls_auto_rssi_connect_threshold : Z;
  tdls_auto_data_connect_threshold : Z;
  tdls_auto_fast_connect_period : Z;
  tdls_auto_slow_connect_period : Z;
  tdls_auto_data_teardown_threshold : Z;
  tdls_auto_data_teardown_period : Z;
  tdls_auto_rssi_teardown_threshold : Z;
  tdls_auto_rssi_teardown_period : Z;
  tdls_auto_rssi_teardown_count : Z;
  tdls_auto_max_connected_peers : Z
}.
End Config.

Record wpa_supplicant := mk_wpa_s {
  conf : Config.wpa_config;
  tdls_auto : option tdls_auto_mode_ctx
}.

Record init_env := mk_init_env {
  wpa_tdls_is_external_setup : bool;
  glue_alloc_ok : bool;
  ctx_alloc_ok : bool
}.

(* the assignments glue->x = wpa_s->conf->x; the unsigned members of the
   glue record take their value modulo 2^32 *)
Definition glue_of_conf (c : Config.wpa_config) : wpas_tdls_auto_ctx :=
  mk_extn (Config.tdls_auto_rssi_connect_threshold c)
          (u32 (Config.tdls_auto_data_connect_threshold c))
          (u32 (Config.tdls_auto_fast_connect_period c))
          (u32 (Config.tdls_auto_slow_connect_period c))
          (u32 (Config.tdls_auto_data_teardown_threshold c))
          (u32 (Config.tdls_auto_data_teardown_period c))
          (Config.tdls_auto_rssi_teardown_threshold c)
          (u32 (Config.tdls_auto_rssi_teardown_period c))
          (u32 (Config.tdls_auto_rssi_teardown_count c))
          (u32 (Config.tdls_auto_max_connected_peers c)).

Definition wpas_tdls_auto_init (e : init_env) (wpa_s : wpa_supplicant)
  : wpa_supplicant * Z :=
  if negb (Config.tdls_auto_enabled (conf wpa_s)) then (wpa_s, 0)
  else if negb (wpa_tdls_is_external_setup e) then (wpa_s, -1)
  else
    match tdls_auto wpa_s with
    | Some _ => (wpa_s, -1)
    | None =>
        if negb (glue_alloc_ok e) then (wpa_s, -1)
        else
          let glue := glue_of_conf (conf wpa_s) in
          if tdls_auto_fast_connect_period glue >?
             tdls_auto_slow_connect_period glue
          then (wpa_s, -1)
          else
            match tdls_auto_init (ctx_alloc_ok e) glue with
            | None => (mk_wpa_s (conf wpa_s) None, -1)
            | Some ctx => (mk_wpa_s (conf wpa_s) (Some ctx), 0)
            end
    end.

(* the master-flag check in front of every public entry point *)
Definition gated (wpa_s : wpa_supplicant)
           (f : tdls_auto_mode_ctx -> tdls_auto_mode_ctx) : wpa_supplicant :=
  if negb (Config.tdls_auto_enabled (conf wpa_s)) then wpa_s
  else
    match tdls_auto wpa_s with
    | None => wpa_s
    | Some ctx => mk_wpa_s (conf wpa_s) (Some (f ctx))
    end.

Definition wpas_tdls_auto_peer_connected (d : driver) (wpa_s : wpa_supplicant)
           (a : macaddr) : wpa_supplicant :=
  gated wpa_s (fun ctx => tdls_auto_peer_connected d ctx a).

Definition wpas_tdls_auto_peer_disconnected (d : driver)
           (wpa_s : wpa_supplicant) (a : macaddr) : wpa_supplicant :=
  gated wpa_s (fun ctx => tdls_auto_peer_disconnected d ctx a).

Definition wpas_tdls_auto_remove_peers (d : driver) (wpa_s : wpa_supplicant)
           (kill_active_links : bool) : wpa_supplicant :=
  gated wpa_s (fun ctx => tdls_auto_remove_peers d ctx kill_active_links).

Definition wpas_tdls_auto_start (d : driver) (wpa_s : wpa_supplicant)
           (a : macaddr) : wpa_supplicant * Z :=
  if negb (Config.tdls_auto_enabled (conf wpa_s)) then (wpa_s, -1)
  else
    match tdls_auto wpa_s with
    | None => (wpa_s, -1)
    | Some ctx =>
        let (ctx, r) := tdls_auto_mode_start d ctx a in
        (mk_wpa_s (conf wpa_s) (Some ctx), r)
    end.

Definition wpas_tdls_auto_stop (d : driver) (wpa_s : wpa_supplicant)
           (a : macaddr) : wpa_supplicant :=
  gated wpa_s (fun ctx => tdls_auto_mode_stop d ctx a).

Definition wpas_tdls_auto_discovery_response (d : driver)
           (wpa_s : wpa_supplicant) (a : macaddr) (rssi_in : Z)
  : wpa_supplicant :=
  gated wpa_s (fun ctx => tdls_auto_discovery_response d ctx a rssi_in).

(** ** Vocabulary of the statements *)

(* the capability invocations made between two contexts of one run *)
Definition emitted (before after : tdls_auto_mode_ctx) : list call :=
  skipn (length (calls before)) (calls after).

Definition in_u32 (x : Z) : Prop := 0 <= x < 2 ^ 32.

(* [after] extends the log of [before] by calls none of which is a connect *)
Definition no_connect_between (before after : tdls_auto_mode_ctx) : Prop :=
  exists cs, calls after = calls before ++ cs /\
             forall b, ~ In (Connect b) cs.

(* the calls made where a link is torn down or an entry released: never a
   connect, a discovery request or an add to the peer cache *)
Definition teardown_call (c : call) : bool :=
  match c with
  | Disconnect _ | GetRssi _ | GetStaBytes _ | StoreToFreedPeer _ => true
  | MonitorTraffic _ add => negb add
  | Connect _ | SendDiscovery _ => false
  end.

(* [after] extends the log of [before] by teardown calls only *)
Definition teardown_only (before after : tdls_auto_mode_ctx) : Prop :=
  exists cs, calls after = calls before ++ cs /\
             forallb teardown_call cs = true.

(* what every reachable context satisfies *)
Definition wf (cfg : wpas_tdls_auto_ctx) (ctx : tdls_auto_mode_ctx) : Prop :=
  extn ctx = cfg /\
  peer_count ctx = u32 (registry_size ctx) /\
  in_u32 (conn_peer_count ctx) /\
  NoDup (map addr (peers ctx)).

(* The rate formula in the words of the specification: byte deltas by
   32-bit modular subtraction, then
   ((rx - last_rx) + (tx - last_tx)) * 8 * 1000 / delta_msec. *)
Definition spec_data_rate (rx_bytes tx_bytes last_rx last_tx dm : Z) : Z :=
  (u32 (rx_bytes - last_rx) + u32 (tx_bytes - last_tx)) * 8 * 1000 / dm.

(* the rate the source computes from the same inputs *)
Definition code_data_rate (rx_bytes tx_bytes last_rx last_tx dm : Z) : Z :=
  u32 (u32 (u32 (u32 (rx_bytes - last_rx) * 8)
            + u32 (u32 (tx_bytes - last_tx) * 8)) / dm * 1000).


(* the entry that [connected] leaves at the head of the registry for an
   address it did not know *)
Definition incoming_entry (d : driver) (a : macaddr) : tdls_auto_peer :=
  fst (tdls_auto_get_peer_data_rate d
         (set_connected true (set_incoming_peer true (zalloc_peer a)))).

(** ** Concrete inputs used by the examples *)

Definition mac_A : macaddr := (x02, x00, x00, x00, x00, x0a).
Definition mac_B : macaddr := (x02, x00, x00, x00, x00, x0b).

(* thresholds and periods of the end-to-end scenarios; one connected peer
   allowed *)
Definition cfg1 : wpas_tdls_auto_ctx :=
  mk_extn (-70) 10000 500 10000 10000 2000 (-75) 1000 2 1.

(* a driver that accepts everything; the clock reads [t] seconds, both byte
   counters read [n] *)
Definition drv_at (t n : Z) : driver :=
  mk_driver (fun _ => mk_reltime t 0) (fun _ => -80) (fun _ _ => 0)
            (fun _ => Some (n, n)) (fun _ => 0) (fun _ => false) true.

(* the same driver with a disconnect capability that reports the teardown
   through tdls_auto_peer_disconnected before it returns *)
Definition drv_sync (t n : Z) : driver :=
  mk_driver (fun _ => mk_reltime t 0) (fun _ => -80) (fun _ _ => 0)
            (fun _ => Some (n, n)) (fun _ => 0) (fun _ => true) true.

(* a driver whose peer-cache add command fails *)
Definition drv_no_cache : driver :=
  mk_driver (fun _ => mk_reltime 5 0) (fun _ => -80)
            (fun _ add => if add then -1 else 0)
            (fun _ => Some (0, 0)) (fun _ => 0) (fun _ => false) true.


Definition conf_equal_periods : Config.wpa_config :=
  Config.mk_conf true (-70) 10000 1000 1000 10000 2000 (-75) 1000 2 1.

Definition peer_sample0 : tdls_auto_peer :=
  mk_peer mac_A true (-60) 0 0 7000 (mk_reltime 10 0) 0 0 false.

(* 150 ms after the last sample; 10 bytes received, nothing sent *)
Definition drv_sample0 : driver :=
  mk_driver (fun _ => mk_reltime 10 150000) (fun _ => -60) (fun _ _ => 0)
            (fun _ => Some (0, 10)) (fun _ => 0) (fun _ => false) true.

Definition ctx_one_connected : tdls_auto_mode_ctx :=
  mk_ctx [peer_sample0] 1 1 cfg1 (mk_eloop None None (Some 2000000) (Some 1000000)) [].

(* the initial context after start(A) *)
Definition ctx_one_candidate : tdls_auto_mode_ctx :=
  fst (tdls_auto_mode_start (drv_at 1 0) (init_ctx cfg1) mac_A).

(* the registrations left once both connect timeouts are cancelled *)
Definition cancel_connect_timers (l : eloop) : eloop :=
  set_pending slow_connect_timeout None
    (set_pending fast_connect_timeout None l).

(* the registration that tdls_auto_set_timer makes for a period in ms *)
Definition armed (msecs : Z) : option Z := Some (u32 (1000 * msecs)).

(* the capability calls of tdls_auto_remove_peers for one entry *)
Definition removal_calls (kill_active_links : bool) (p : tdls_auto_peer)
  : list call :=
  (if kill_active_links && connected p then [Disconnect (addr p)] else [])
  ++ [MonitorTraffic (addr p) false].

(* the entry of an outgoing peer once tdls_auto_peer_disconnected has run *)
Definition after_disconnected (p : tdls_auto_peer) : tdls_auto_peer :=
  set_fast_attempts 0 (set_low_rssi_vals 0 (set_connected false p)).

(* The three outcomes of a teardown visit to the entry at [a], [cs] being
   the calls made during the visit.  [entry_kept]: the entry stays, now
   [q].  [link_forgotten]: the disconnect capability called back for an
   outgoing peer; the entry stays, now [q], the link is no longer counted
   and the fast-connect timeout is registered.  [entry_released]: the
   capability called back for an incoming peer; the entry is gone, and the
   connect timeouts with it when it was the last. *)
Definition entry_kept (a : macaddr) (q : tdls_auto_peer) (cs : list call)
           (ctx : tdls_auto_mode_ctx) : tdls_auto_mode_ctx :=
  mk_ctx (peer_store a (fun _ => q) (peers ctx)) (peer_count ctx)
         (conn_peer_count ctx) (extn ctx) (timeouts ctx) (calls ctx ++ cs).

Definition link_forgotten (a : macaddr) (q : tdls_auto_peer) (cs : list call)
           (ctx : tdls_auto_mode_ctx) : tdls_auto_mode_ctx :=
  mk_ctx (peer_store a (fun _ => q) (peers ctx)) (peer_count ctx)
         (u32 (conn_peer_count ctx - 1)) (extn ctx)
         (set_pending fast_connect_timeout
            (armed (tdls_auto_fast_connect_period (extn ctx)))
            (timeouts ctx))
         (calls ctx ++ cs).

Definition entry_released (a : macaddr) (cs : list call)
           (ctx : tdls_auto_mode_ctx) : tdls_auto_mode_ctx :=
  mk_ctx (peer_unlink a (peers ctx)) (u32 (peer_count ctx - 1))
         (u32 (conn_peer_count ctx - 1)) (extn ctx)
         (if u32 (peer_count ctx - 1) =? 0
          then cancel_connect_timers (timeouts ctx) else timeouts ctx)
         (calls ctx ++ cs).

(* What one visit of a teardown handler makes of the visited entry:
   [Skipped], or one of the three outcomes above with the entry as it is
   left and the calls made. *)
Inductive outcome :=
| Skipped
| Kept (q : tdls_auto_peer) (cs : list call)
| Forgotten (q : tdls_auto_peer) (cs : list call)
| Released (cs : list call).

Definition visit_result (a : macaddr) (o : outcome)
           (ctx : tdls_auto_mode_ctx) : tdls_auto_mode_ctx :=
  match o with
  | Skipped => ctx
  | Kept q cs => entry_kept a q cs ctx
  | Forgotten q cs => link_forgotten a q cs ctx
  | Released cs => entry_released a cs ctx
  end.

Definition outcome_calls (o : outcome) : list call :=
  match o with
  | Skipped => []
  | Kept _ cs | Forgotten _ cs | Released cs => cs
  end.

(* the entry of [p] after the visit, [None] when it was released *)
Definition outcome_entry (p : tdls_auto_peer) (o : outcome)
  : option tdls_auto_peer :=
  match o with
  | Skipped => Some p
  | Kept q _ | Forgotten q _ => Some q
  | Released _ => None
  end.

(* the capability called back, so the link is no longer counted *)
Definition outcome_uncounts (o : outcome) : bool :=
  match o with
  | Forgotten _ _ | Released _ => true
  | Skipped | Kept _ _ => false
  end.

(* the visit of the data-teardown handler to [p], read off its loop body *)
Definition data_teardown_outcome (d : driver) (cfg : wpas_tdls_auto_ctx)
           (p : tdls_auto_peer) : outcome :=
  if negb (connected p) then Skipped
  else
    let p1 := fst (tdls_auto_get_peer_data_rate d p) in
    let cs := snd (tdls_auto_get_peer_data_rate d p) in
    if data_rate p1 >=? tdls_auto_data_teardown_threshold cfg
    then Kept p1 cs
    else if disconnect_calls_back d (addr p)
         then if incoming_peer p
              then Released (cs ++ [Disconnect (addr p);
                                    MonitorTraffic (addr p) false])
              else Forgotten (after_disconnected p1)
                             (cs ++ [Disconnect (addr p)])
         else Kept p1 (cs ++ [Disconnect (addr p)]).

(* the visit of the rssi-teardown handler to [p], read off its loop body *)
Definition rssi_teardown_outcome (d : driver) (cfg : wpas_tdls_auto_ctx)
           (p : tdls_auto_peer) : outcome :=
  if negb (connected p) then Skipped
  else
    let a := addr p in
    let p1 := set_rssi (get_rssi d a) p in
    let inc := u32 (low_rssi_vals p + 1) in
    if get_rssi d a >=? tdls_auto_rssi_teardown_threshold cfg
    then Kept (set_low_rssi_vals 0 p1) [GetRssi a]
    else if inc <=? tdls_auto_rssi_teardown_count cfg
         then Kept (set_low_rssi_vals inc p1) [GetRssi a]
         else if disconnect_calls_back d a
              then if incoming_peer p
                   then Released [GetRssi a; Disconnect a;
                                  MonitorTraffic a false; StoreToFreedPeer a]
                   else Forgotten (after_disconnected p1)
                                  [GetRssi a; Disconnect a]
              else Kept (set_low_rssi_vals 0 p1) [GetRssi a; Disconnect a].

(* whether stopping [p] from tdls_auto_remove_peers makes the disconnect
   capability call tdls_auto_peer_disconnected *)
Definition called_back (d : driver) (kill_active_links : bool)
           (p : tdls_auto_peer) : bool :=
  kill_active_links && connected p && disconnect_calls_back d (addr p).

(* the condition under which a handler registers itself again *)
Definition work_remains (h : handler) (ctx : tdls_auto_mode_ctx) : bool :=
  match h with
  | fast_connect_timeout =>
      existsb (fun p => negb (connected p) &&
                        (fast_attempts p <=? TDLS_AUTO_MAX_FAST_CONN_ATTEMPTS))
              (peers ctx)
  | slow_connect_timeout => negb (peer_count ctx =? 0)
  | data_teardown_timeout => negb (conn_peer_count ctx =? 0)
  | rssi_teardown_timeout => negb (conn_peer_count ctx =? 0)
  end.

Definition period_of (h : handler) (cfg : wpas_tdls_auto_ctx) : Z :=
  match h with
  | fast_connect_timeout => tdls_auto_fast_connect_period cfg
  | slow_connect_timeout => tdls_auto_slow_connect_period cfg
  | data_teardown_timeout => tdls_auto_data_teardown_period cfg
  | rssi_teardown_timeout => tdls_auto_rssi_teardown_period cfg
  end.

(* who is tracked, and in which role: address, connected, incoming *)
Definition role (p : tdls_auto_peer) : macaddr * bool * bool :=
  (addr p, connected p, incoming_peer p).

Definition roles (ctx : tdls_auto_mode_ctx) : list (macaddr * bool * bool) :=
  map role (peers ctx).

(* what holds of every tracked peer between top-level events *)
Definition peer_ok (cfg : wpas_tdls_auto_ctx) (p : tdls_auto_peer) : Prop :=
  0 <= fast_attempts p <= TDLS_AUTO_MAX_FAST_CONN_ATTEMPTS + 1 /\
  (incoming_peer p = true -> connected p = true) /\
  (low_rssi_vals p = 0 \/
   0 <= low_rssi_vals p <= tdls_auto_rssi_teardown_count cfg).

Definition peers_ok (cfg : wpas_tdls_auto_ctx) (ctx : tdls_auto_mode_ctx)
  : Prop :=
  Forall (peer_ok cfg) (peers ctx) /\
  (peers ctx = [] ->
   fast_pending (timeouts ctx) = None /\ slow_pending (timeouts ctx) = None).

(* the initial context after connected(B) for the unknown address B *)
Definition ctx_one_incoming : tdls_auto_mode_ctx :=
  step (drv_at 1 0) (EvConnected mac_B) (init_ctx cfg1).

(* [conn_peer_count] agrees with the registry *)
Definition counted (ctx : tdls_auto_mode_ctx) : Prop :=
  conn_peer_count ctx = u32 (connected_peers ctx).

(* Events as a driver that reports every link change once delivers them:
   [connected] only for a peer that is not yet connected (and, for an
   unknown address, only when the peer can be created), [disconnected] only
   for a connected peer (or an unknown address), [stop] and [remove_all]
   only while the peers concerned are not connected. *)
Definition orderly (d : driver) (ev : event) (ctx : tdls_auto_mode_ctx)
  : Prop :=
  match ev with
  | EvConnected a =>
      match tdls_auto_find_peer ctx a with
      | Some p => connected p = false
      | None => monitor_traffic d a true = 0 /\ os_zalloc_ok d = true
      end
  | EvDisconnected a =>
      match tdls_auto_find_peer ctx a with
      | Some p => connected p = true
      | None => True
      end
  | EvStop a =>
      match tdls_auto_find_peer ctx a with
      | Some p => connected p = false
      | None => True
      end
  | EvRemovePeers _ => forall p, In p (peers ctx) -> connected p = false
  | EvStart _ | EvDiscoveryResponse _ _ | EvTimeout _ => True
  end.

(* tdls_auto_deinit removes every peer without tearing links down and then
   frees the glue record and the context; the value is the context as it
   is when it is freed *)
Definition tdls_auto_deinit (d : driver) (ctx : tdls_auto_mode_ctx)
  : tdls_auto_mode_ctx :=
  tdls_auto_remove_peers d ctx false.

(* second component: the context that was freed, if there was one *)
Definition wpas_tdls_auto_deinit (d : driver) (wpa_s : wpa_supplicant)
  : wpa_supplicant * option tdls_auto_mode_ctx :=
  if negb (Config.tdls_auto_enabled (conf wpa_s)) then (wpa_s, None)
  else
    match tdls_auto wpa_s with
    | None => (wpa_s, None)
    | Some ctx => (mk_wpa_s (conf wpa_s) None, Some (tdls_auto_deinit d ctx))
    end.

(** ** Background-scan dispatcher (bgscan.c)

    C strings are byte lists read up to their first NUL (or to the end of
    the list, where the terminator stands).  The table [bgscan_modules]
    depends on the build configuration and is a parameter; what a module's
    own functions do is external: its [init] answers through
    [module_init], and every call into a module is logged. *)
Module Bgscan.

(** Modelled from the spec: [os_strlen], [os_strchr] and [os_strncmp] are
    declared in the repository's [utils/os.h], outside the files embedded
    here, and the specification does not describe them; they are given the
    meaning of the C library's strlen, strchr and strncmp. *)
Fixpoint os_strlen (s : list byte) : nat :=
  match s with
  | [] => 0%nat
  | c :: t => if Byte.eqb c x00 then 0%nat else S (os_strlen t)
  end.

(* os_strchr(s, c) for a character c other than NUL: the offset of the
   first occurrence, None for a null result *)
Fixpoint os_strchr (s : list byte) (c : byte) : option nat :=
  match s with
  | [] => None
  | x :: t =>
      if Byte.eqb x x00 then None
      else if Byte.eqb x c then Some 0%nat
      else option_map S (os_strchr t c)
  end.

(* os_strncmp(s1, s2, n) == 0 *)
Fixpoint os_strncmp_eq (s1 s2 : list byte) (n : nat) : bool :=
  match n with
  | O => true
  | S n' =>
      let c1 := hd x00 s1 in
      let c2 := hd x00 s2 in
      if Byte.eqb c1 c2
      then if Byte.eqb c1 x00 then true
           else os_strncmp_eq (tl s1) (tl s2) n'
      else false
  end.

(* the string a char pointer denotes *)
Fixpoint cstr (s : list byte) : list byte :=
  match s with
  | [] => []
  | c :: t => if Byte.eqb c x00 then [] else c :: cstr t
  end.

Inductive notification :=
| notify_scan
| notify_beacon_loss
| notify_signal_change
| notify_tcm_changed
| notify_scan_trigger.

(* struct bgscan_ops: the name and which of the optional callbacks are set *)
Record bgscan_ops := mk_ops {
  name : list byte;
  provides : notification -> bool
}.

Inductive module_call :=
| ModInit (ops : bgscan_ops) (params : list byte)
| ModDeinit (ops : bgscan_ops) (priv : nat)
| ModNotify (ops : bgscan_ops) (priv : nat) (what : notification).

Record module_env := mk_module_env {
  module_init : bgscan_ops -> list byte -> option nat;
  module_notify_scan : bgscan_ops -> nat -> Z
}.

(* the bgscan members of struct wpa_supplicant, and the calls made into
   modules so far *)
Record bgscan_state := mk_bgscan {
  bgscan : option bgscan_ops;
  bgscan_priv : option nat;
  module_calls : list module_call
}.

Definition bgscan_deinit (s : bgscan_state) : bgscan_state :=
  match bgscan s, bgscan_priv s with
  | Some ops, Some priv =>
      mk_bgscan None None (module_calls s ++ [ModDeinit ops priv])
  | _, _ => s
  end.

Definition colon : byte := x3a.

Definition bgscan_init (bgscan_modules : list bgscan_ops) (e : module_env)
           (s : bgscan_state) (name_arg : option (list byte))
  : bgscan_state * Z :=
  let s := bgscan_deinit s in
  match name_arg with
  | None => (s, -1)
  | Some nm =>
      let (params, nlen) :=
        match os_strchr nm colon with
        | None => ([], os_strlen nm)
        | Some i => (cstr (skipn (S i) nm), i)
        end in
      match find (fun m => os_strncmp_eq nm (name m) nlen) bgscan_modules with
      | None => (s, -1)
      | Some ops =>
          let r := module_init e ops params in
          let calls := module_calls s ++ [ModInit ops params] in
          match r with
          | None => (mk_bgscan (bgscan s) None calls, -1)
          | Some priv => (mk_bgscan (Some ops) (Some priv) calls, 0)
          end
      end
  end.

(* the common shape of the bgscan_notify_* functions *)
Definition forward (what : notification) (s : bgscan_state)
  : option (bgscan_ops * nat) :=
  match bgscan s, bgscan_priv s with
  | Some ops, Some priv =>
      if provides ops what then Some (ops, priv) else None
  | _, _ => None
  end.

Definition bgscan_notify_scan (e : module_env) (s : bgscan_state)
  : bgscan_state * Z :=
  match forward notify_scan s with
  | Some (ops, priv) =>
      (mk_bgscan (bgscan s) (bgscan_priv s)
                 (module_calls s ++ [ModNotify ops priv notify_scan]),
       module_notify_scan e ops priv)
  | None => (s, 0)
  end.

Definition notify_void (what : notification) (s : bgscan_state)
  : bgscan_state :=
  match forward what s with
  | Some (ops, priv) =>
      mk_bgscan (bgscan s) (bgscan_priv s)
                (module_calls s ++ [ModNotify ops priv what])
  | None => s
  end.

Definition bgscan_notify_beacon_loss := notify_void notify_beacon_loss.
Definition bgscan_notify_signal_change := notify_void notify_signal_change.
Definition bgscan_notify_tcm_changed := notify_void notify_tcm_changed.
Definition bgscan_notify_scan_trigger := notify_void notify_scan_trigger.

(* the part of a bgscan parameter that names the module: the bytes before
   the first ':' of the string *)
Fixpoint module_part (s : list byte) : list byte :=
  match s with
  | [] => []
  | c :: t =>
      if Byte.eqb c x00 then []
      else if Byte.eqb c colon then []
      else c :: module_part t
  end.

(* the parameter string handed to the module: what follows the first ':' *)
Definition params_part (s : list byte) : list byte :=
  match os_strchr s colon with
  | None => []
  | Some i => cstr (skipn (S i) s)
  end.

Fixpoint is_prefix (p s : list byte) : bool :=
  match p, s with
  | [], _ => true
  | _ :: _, [] => false
  | x :: p', y :: s' => Byte.eqb x y && is_prefix p' s'
  end.

(* both members set or both clear *)
Definition paired (s : bgscan_state) : Prop :=
  bgscan s = None <-> bgscan_priv s = None.

(* inputs for the examples: the two modules of the source, and the
   parameter "simple:30" *)
Definition bgscan_simple_ops : bgscan_ops :=
  mk_ops [x73; x69; x6d; x70; x6c; x65; x00] (fun _ => true).

Definition bgscan_learn_ops : bgscan_ops :=
  mk_ops [x6c; x65; x61; x72; x6e; x00]
         (fun w => match w with notify_tcm_changed => false | _ => true end).

Definition env_ok : module_env := mk_module_env (fun _ _ => Some 7%nat) (fun _ _ => 1).

Definition name_simple_30 : list byte :=
  [x73; x69; x6d; x70; x6c; x65; x3a; x33; x30; x00].

Definition idle : bgscan_state := mk_bgscan None None [].

Definition running_learn : bgscan_state :=
  mk_bgscan (Some bgscan_learn_ops) (Some 3%nat) [].

End Bgscan.

(** ** Hang detection of the Android driver wrapper
       (driver_nl80211_android.c)

    [drv_errors] is the file's static counter; the number of "HANGED"
    events reported through nl80211_report_hang is counted in
    [hang_reports].  DRV_NUMBER_SEQUENTIAL_ERRORS comes from android_drv.h
    and is a parameter ([max_errors]); the result of the ioctl is an
    input. *)
Module AndroidDrv.

Record hang_state := mk_hang {
  drv_errors : Z;
  hang_reports : nat
}.

Definition wpa_driver_send_hang_msg (max_errors : Z) (st : hang_state)
  : hang_state :=
  let e := drv_errors st + 1 in
  if e >? max_errors then mk_hang 0 (S (hang_reports st))
  else mk_hang e (hang_reports st).

Definition android_priv_cmd (max_errors : Z) (ioctl_ret : Z)
           (st : hang_state) : hang_state * Z :=
  if ioctl_ret <? 0
  then (wpa_driver_send_hang_msg max_errors st, ioctl_ret)
  else (mk_hang 0 (hang_reports st), 0).

(* android_priv_cmd(bss, "PNOFORCE 0") *)
Definition android_pno_stop := android_priv_cmd.

(* a sequence of android_priv_cmd calls with no other driver command in
   between, given the result of each ioctl *)
Fixpoint priv_cmds (max_errors : Z) (rets : list Z) (st : hang_state)
  : hang_state :=
  match rets with
  | [] => st
  | r :: tl => priv_cmds max_errors tl (fst (android_priv_cmd max_errors r st))
  end.

(* the longest run of consecutive failing ioctls in [rets], the first run
   continuing one of length [cur] *)
Fixpoint longest_run (cur : Z) (rets : list Z) : Z :=
  match rets with
  | [] => cur
  | r :: tl =>
      if r <? 0 then longest_run (cur + 1) tl
      else Z.max cur (longest_run 0 tl)
  end.

End AndroidDrv.

(** * Basic facts *)

Lemma addr_eqb_eq (a b : macaddr) : addr_eqb a b = true <-> a = b.
Proof.
  destruct a as [[[[[a0 a1] a2] a3] a4] a5].
  destruct b as [[[[[b0 b1] b2] b3] b4] b5].
  unfold addr_eqb. rewrite !andb_true_iff. split.
  - intros [[[[[H0 H1] H2] H3] H4] H5].
    apply byte_dec_bl in H0, H1, H2, H3, H4, H5. congruence.
  - intros H. inversion H; subst. repeat split; now apply byte_dec_lb.
Qed.

Lemma addr_eqb_refl (a : macaddr) : addr_eqb a a = true.
Proof. now apply addr_eqb_eq. Qed.

Lemma addr_eqb_neq (a b : macaddr) : addr_eqb a b = false <-> a <> b.
Proof.
  split.
  - intros H E. apply addr_eqb_eq in E. congruence.
  - intros H. destruct (addr_eqb a b) eqn:E; [|reflexivity].
    apply addr_eqb_eq in E. contradiction.
Qed.

Lemma u32_range (x : Z) : 0 <= u32 x < 2 ^ 32.
Proof. unfold u32. apply Z.mod_pos_bound. lia. Qed.

Lemma u32_small (x : Z) : 0 <= x < 2 ^ 32 -> u32 x = x.
Proof. intros H. unfold u32. now apply Z.mod_small. Qed.

Lemma u32_succ_pred (x : Z) : 0 <= x < 2 ^ 32 -> u32 (u32 (x + 1) - 1) = x.
Proof.
  intros H. unfold u32. rewrite Zminus_mod_idemp_l.
  replace (x + 1 - 1) with x by lia. now apply Z.mod_small.
Qed.

(* modular subtraction recovers the true increment of a wrapped counter *)
Lemma u32_wrap_delta (last delta : Z) :
  0 <= delta < 2 ^ 32 -> u32 (u32 (last + delta) - last) = delta.
Proof.
  intros H. unfold u32. rewrite Zminus_mod_idemp_l.
  replace (last + delta - last) with delta by lia. now apply Z.mod_small.
Qed.

(** ** The registry *)

Lemma find_in_addr ps a p : find_in ps a = Some p -> addr p = a.
Proof.
  induction ps as [|q tl IH]; simpl; [discriminate|].
  destruct (addr_eqb (addr q) a) eqn:E.
  - intros H. inversion H; subst. now apply addr_eqb_eq.
  - exact IH.
Qed.

Lemma find_in_In ps a p : find_in ps a = Some p -> In p ps.
Proof.
  induction ps as [|q tl IH]; simpl; [discriminate|].
  destruct (addr_eqb (addr q) a).
  - intros H. inversion H. now left.
  - intros H. right. now apply IH.
Qed.

Lemma find_in_none ps a :
  find_in ps a = None <-> ~ In a (map addr ps).
Proof.
  induction ps as [|q tl IH]; simpl.
  - tauto.
  - destruct (addr_eqb (addr q) a) eqn:E.
    + apply addr_eqb_eq in E. split; [discriminate|]. intros H. tauto.
    + apply addr_eqb_neq in E. rewrite IH. tauto.
Qed.

Lemma find_in_nodup ps p :
  NoDup (map addr ps) -> In p ps -> find_in ps (addr p) = Some p.
Proof.
  induction ps as [|q tl IH]; simpl; [tauto|].
  intros ND [->|Hin].
  - now rewrite addr_eqb_refl.
  - inversion ND as [|x l Hq ND']; subst.
    destruct (addr_eqb (addr q) (addr p)) eqn:E.
    + apply addr_eqb_eq in E. exfalso. apply Hq. rewrite E.
      now apply in_map.
    + now apply IH.
Qed.

Lemma peer_store_addrs a f ps :
  (forall p, addr p = a -> addr (f p) = addr p) ->
  map addr (peer_store a f ps) = map addr ps.
Proof.
  intros Hf. induction ps as [|q tl IH]; simpl; [reflexivity|].
  destruct (addr_eqb (addr q) a) eqn:E; simpl; [|now rewrite IH].
  apply addr_eqb_eq in E. now rewrite Hf.
Qed.

Lemma find_in_store a f ps :
  (forall p, addr p = a -> addr (f p) = addr p) ->
  find_in (peer_store a f ps) a = option_map f (find_in ps a).
Proof.
  intros Hf. induction ps as [|q tl IH]; simpl; [reflexivity|].
  destruct (addr_eqb (addr q) a) eqn:E; simpl.
  - rewrite Hf, E; [reflexivity|]. now apply addr_eqb_eq.
  - now rewrite E.
Qed.

Lemma find_in_store_other a b f ps :
  (forall p, addr p = a -> addr (f p) = addr p) -> a <> b ->
  find_in (peer_store a f ps) b = find_in ps b.
Proof.
  intros Hf Hab. induction ps as [|q tl IH]; simpl; [reflexivity|].
  destruct (addr_eqb (addr q) a) eqn:E; simpl.
  - apply addr_eqb_eq in E. rewrite Hf by exact E.
    assert (Hb : addr_eqb (addr q) b = false) by (apply addr_eqb_neq; congruence).
    now rewrite Hb.
  - destruct (addr_eqb (addr q) b); [reflexivity|exact IH].
Qed.

Lemma peer_unlink_length ps a p :
  find_in ps a = Some p -> length ps = S (length (peer_unlink a ps)).
Proof.
  induction ps as [|q tl IH]; simpl; [discriminate|].
  destruct (addr_eqb (addr q) a); [reflexivity|].
  intros H. simpl. now rewrite <- IH.
Qed.

Lemma peer_unlink_incl ps a x : In x (map addr (peer_unlink a ps)) -> In x (map addr ps).
Proof.
  induction ps as [|q tl IH]; simpl; [tauto|].
  destruct (addr_eqb (addr q) a); simpl; tauto.
Qed.

Lemma peer_unlink_nodup ps a :
  NoDup (map addr ps) -> NoDup (map addr (peer_unlink a ps)).
Proof.
  induction ps as [|q tl IH]; simpl; [trivial|].
  intros ND. inversion ND as [|x l Hq ND']; subst.
  destruct (addr_eqb (addr q) a); simpl; [assumption|].
  constructor; [|now apply IH].
  intros H. apply Hq. eapply peer_unlink_incl; eassumption.
Qed.

(** ** The rate sampler *)

Lemma sample_addr d p : addr (fst (tdls_auto_get_peer_data_rate d p)) = addr p.
Proof.
  unfold tdls_auto_get_peer_data_rate.
  destruct (_ <? _); [reflexivity|].
  destruct (get_sta_bytes d (addr p)) as [[tx rx]|]; reflexivity.
Qed.

Lemma sample_connected d p :
  connected (fst (tdls_auto_get_peer_data_rate d p)) = connected p.
Proof.
  unfold tdls_auto_get_peer_data_rate.
  destruct (_ <? _); [reflexivity|].
  destruct (get_sta_bytes d (addr p)) as [[tx rx]|]; reflexivity.
Qed.


Lemma sample_incoming d p :
  incoming_peer (fst (tdls_auto_get_peer_data_rate d p)) = incoming_peer p.
Proof.
  unfold tdls_auto_get_peer_data_rate.
  destruct (_ <? _); [reflexivity|].
  destruct (get_sta_bytes d (addr p)) as [[tx rx]|]; reflexivity.
Qed.

(* the sampler only ever asks for the byte counters *)
Lemma sample_calls d p c :
  In c (snd (tdls_auto_get_peer_data_rate d p)) -> c = GetStaBytes (addr p).
Proof.
  unfold tdls_auto_get_peer_data_rate.
  destruct (_ <? _); simpl; [tauto|].
  destruct (get_sta_bytes d (addr p)) as [[tx rx]|]; simpl;
    intros [H|[]]; now symmetry.
Qed.

(* the sampler does not look at the stored rssi *)
Lemma sample_set_rssi d r p :
  tdls_auto_get_peer_data_rate d (set_rssi r p) =
  (set_rssi r (fst (tdls_auto_get_peer_data_rate d p)),
   snd (tdls_auto_get_peer_data_rate d p)).
Proof.
  unfold tdls_auto_get_peer_data_rate. simpl.
  destruct (_ <? _); [reflexivity|].
  destruct (get_sta_bytes d (addr p)) as [[tx rx]|]; reflexivity.
Qed.

(** ** The log of capability calls *)

Lemma emitted_app c c' cs : calls c' = calls c ++ cs -> emitted c c' = cs.
Proof.
  intros H. unfold emitted. rewrite H.
  rewrite skipn_app, skipn_all, Nat.sub_diag. reflexivity.
Qed.

Lemma emitted_same c c' : calls c' = calls c -> emitted c c' = [].
Proof. intros H. apply emitted_app. now rewrite app_nil_r. Qed.

(** * C6: the rate sampler *)

(** C6, counterexample.  150 ms after the previous sample the driver
    reports 10 more received bytes: the source divides the 80 bits by 150
    first and stores a rate of 0, where the formula of the specification
    gives 80 * 1000 / 150 = 533. *)
Lemma sampler_rate_differs_from_spec_formula :
  delta_msec (os_get_reltime drv_sample0 mac_A)
             (last_query_time peer_sample0) = 150 /\
  get_sta_bytes drv_sample0 mac_A = Some (0, 10) /\
  data_rate (fst (tdls_auto_get_peer_data_rate drv_sample0 peer_sample0)) = 0 /\
  spec_data_rate 10 0 (last_rx_bytes peer_sample0)
                 (last_tx_bytes peer_sample0) 150 = 533.
Proof. repeat split. Qed.

(** C6, amended.  The sampler leaves the peer untouched when [delta_msec]
    is below 100; when the driver query fails it zeroes [data_rate] and
    nothing else; otherwise it stores the new counters and time stamp and
    sets [data_rate] to (delta_bits / delta_msec) * 1000 in 32-bit unsigned
    arithmetic, where delta_bits is the sum of the two byte deltas times 8,
    each delta a 32-bit modular subtraction; such a subtraction returns the
    true increment of a counter that wrapped once. *)
Theorem sampler_cases (d : driver) (p : tdls_auto_peer) :
  let now := os_get_reltime d (addr p) in
  let dm := delta_msec now (last_query_time p) in
  let p' := fst (tdls_auto_get_peer_data_rate d p) in
  (dm < TDLS_AUTO_MIN_SAMPLE_TIME_DIFF_MSEC -> p' = p) /\
  (TDLS_AUTO_MIN_SAMPLE_TIME_DIFF_MSEC <= dm ->
   get_sta_bytes d (addr p) = None ->
   p' = set_data_rate 0 p /\
   data_rate p' = 0 /\
   last_tx_bytes p' = last_tx_bytes p /\
   last_rx_bytes p' = last_rx_bytes p /\
   last_query_time p' = last_query_time p) /\
  (TDLS_AUTO_MIN_SAMPLE_TIME_DIFF_MSEC <= dm ->
   forall tx rx, get_sta_bytes d (addr p) = Some (tx, rx) ->
   data_rate p' =
     code_data_rate (u32 rx) (u32 tx) (last_rx_bytes p) (last_tx_bytes p) dm /\
   last_tx_bytes p' = u32 tx /\
   last_rx_bytes p' = u32 rx /\
   last_query_time p' = now /\
   p' = set_data_rate (data_rate p') (set_sample now (u32 rx) (u32 tx) p)) /\
  (forall last delta, 0 <= delta < 2 ^ 32 ->
   u32 (u32 (last + delta) - last) = delta).
Proof.
  cbv zeta. unfold tdls_auto_get_peer_data_rate.
  split; [|split; [|split]].
  - intros H. apply Z.ltb_lt in H. now rewrite H.
  - intros H E. apply Z.ltb_ge in H. rewrite H, E. now repeat split.
  - intros H tx rx E. apply Z.ltb_ge in H. rewrite H, E. now repeat split.
  - intros. now apply u32_wrap_delta.
Qed.

(** * C2: validation of the two connect periods at initialisation *)

Lemma init_rejects_longer_fast_period (e : init_env) (wpa_s : wpa_supplicant) :
  tdls_auto wpa_s = None ->
  u32 (Config.tdls_auto_fast_connect_period (conf wpa_s)) >
  u32 (Config.tdls_auto_slow_connect_period (conf wpa_s)) ->
  Config.tdls_auto_enabled (conf wpa_s) = true ->
  wpas_tdls_auto_init e wpa_s = (wpa_s, -1).
Proof.
  intros Hnone Hgt Hen. unfold wpas_tdls_auto_init.
  rewrite Hen, Hnone. simpl.
  destruct (wpa_tdls_is_external_setup e); simpl; [|reflexivity].
  destruct (glue_alloc_ok e); simpl; [|reflexivity].
  apply Z.gtb_gt in Hgt. now rewrite Hgt.
Qed.

(* without a controller every gated entry point returns at once *)
Lemma gated_without_controller (wpa_s : wpa_supplicant) f :
  tdls_auto wpa_s = None -> gated wpa_s f = wpa_s.
Proof.
  intros H. unfold gated. rewrite H. now destruct (negb _).
Qed.

(* after a refused initialisation there is no controller and the public
   entry points do nothing *)
Lemma entry_points_after_refused_init
      (e : init_env) (d : driver) (wpa_s : wpa_supplicant) (a : macaddr)
      (r : Z) (k : bool) :
  tdls_auto wpa_s = None ->
  Config.tdls_auto_enabled (conf wpa_s) = true ->
  u32 (Config.tdls_auto_fast_connect_period (conf wpa_s)) >
  u32 (Config.tdls_auto_slow_connect_period (conf wpa_s)) ->
  let w := fst (wpas_tdls_auto_init e wpa_s) in
  w = wpa_s /\
  wpas_tdls_auto_start d w a = (w, -1) /\
  wpas_tdls_auto_stop d w a = w /\
  wpas_tdls_auto_peer_connected d w a = w /\
  wpas_tdls_auto_peer_disconnected d w a = w /\
  wpas_tdls_auto_discovery_response d w a r = w /\
  wpas_tdls_auto_remove_peers d w k = w.
Proof.
  intros Hnone Hen Hgt. cbv zeta.
  rewrite (init_rejects_longer_fast_period e wpa_s Hnone Hgt Hen). simpl.
  split; [reflexivity|]. split.
  - unfold wpas_tdls_auto_start. now rewrite Hen, Hnone.
  - repeat split; now apply gated_without_controller.
Qed.

(** C2, the code at the failing input.  With the fast and the slow period
    both 1000 ms (and auto-mode enabled, external setup available, both
    allocations succeeding) initialisation returns 0 and installs a
    controller: only a fast period strictly longer than the slow one is
    refused. *)
Theorem init_accepts_equal_periods :
  Config.tdls_auto_fast_connect_period conf_equal_periods =
  Config.tdls_auto_slow_connect_period conf_equal_periods /\
  wpas_tdls_auto_init (mk_init_env true true true)
                      (mk_wpa_s conf_equal_periods None) =
  (mk_wpa_s conf_equal_periods
            (Some (init_ctx (glue_of_conf conf_equal_periods))), 0).
Proof. split; reflexivity. Qed.

(** * C5: discovery response from a connected peer *)

Lemma find_update_peer ctx a f :
  (forall p, addr p = a -> addr (f p) = addr p) ->
  tdls_auto_find_peer (update_peer a f ctx) a =
  option_map f (tdls_auto_find_peer ctx a).
Proof. intros Hf. unfold tdls_auto_find_peer. simpl. now apply find_in_store. Qed.

Lemma find_update_peer_other ctx a b f :
  (forall p, addr p = a -> addr (f p) = addr p) -> a <> b ->
  tdls_auto_find_peer (update_peer a f ctx) b = tdls_auto_find_peer ctx b.
Proof.
  intros Hf Hab. unfold tdls_auto_find_peer. simpl.
  now apply find_in_store_other.
Qed.

(** C5, counterexample.  Peer A is connected with a stored rssi of -60; a
    discovery response carrying -50 replaces the stored value. *)
Lemma discovery_response_overwrites_rssi :
  tdls_auto_find_peer ctx_one_connected mac_A = Some peer_sample0 /\
  connected peer_sample0 = true /\
  rssi peer_sample0 = -60 /\
  option_map rssi
    (tdls_auto_find_peer
       (tdls_auto_discovery_response (drv_at 20 0) ctx_one_connected
                                     mac_A (-50)) mac_A) = Some (-50).
Proof. repeat split. Qed.

(** C5, amended.  A discovery response for a connected peer stores the
    reported rssi in that peer's record and does nothing else: no
    capability is invoked, no timer is touched, the counters, the other
    fields of the peer and all other peers are as before. *)
Theorem discovery_response_connected_peer
        (d : driver) (ctx : tdls_auto_mode_ctx) (a : macaddr) (r : Z)
        (p : tdls_auto_peer) :
  tdls_auto_find_peer ctx a = Some p ->
  connected p = true ->
  let ctx' := tdls_auto_discovery_response d ctx a r in
  ctx' = update_peer a (set_rssi r) ctx /\
  tdls_auto_find_peer ctx' a = Some (set_rssi r p) /\
  (forall b, b <> a -> tdls_auto_find_peer ctx' b = tdls_auto_find_peer ctx b) /\
  emitted ctx ctx' = [] /\
  timeouts ctx' = timeouts ctx /\
  peer_count ctx' = peer_count ctx /\
  conn_peer_count ctx' = conn_peer_count ctx.
Proof.
  intros Hfind Hconn. cbv zeta.
  assert (Ha : addr p = a) by (eapply find_in_addr; exact Hfind).
  assert (E : tdls_auto_discovery_response d ctx a r =
              update_peer a (set_rssi r) ctx).
  { unfold tdls_auto_discovery_response. now rewrite Hfind, Hconn, Ha. }
  rewrite E. split; [reflexivity|]. split.
  - rewrite find_update_peer by reflexivity. now rewrite Hfind.
  - split.
    + intros b Hb. apply find_update_peer_other; [reflexivity|congruence].
    + split; [now apply emitted_same|]. now repeat split.
Qed.

Lemma discovery_response_connected_peer_witness :
  tdls_auto_find_peer ctx_one_connected mac_A = Some peer_sample0 /\
  connected peer_sample0 = true /\
  tdls_auto_discovery_response (drv_at 20 0) ctx_one_connected mac_A (-50) =
  update_peer mac_A (set_rssi (-50)) ctx_one_connected.
Proof.
  split; [reflexivity|]. split; [reflexivity|].
  exact (proj1 (discovery_response_connected_peer
                  (drv_at 20 0) ctx_one_connected mac_A (-50) peer_sample0
                  eq_refl eq_refl)).
Defined.

(** * C4: when a discovery response leads to a connection attempt *)

(* the capability calls of one discovery response *)
Lemma discovery_response_emitted d ctx a r :
  emitted ctx (tdls_auto_discovery_response d ctx a r) =
  match tdls_auto_find_peer ctx a with
  | None => []
  | Some p =>
      if connected p then []
      else if r <=? tdls_auto_rssi_connect_threshold (extn ctx) then []
      else
        snd (tdls_auto_get_peer_data_rate d p) ++
        if data_rate (fst (tdls_auto_get_peer_data_rate d p)) <?
           tdls_auto_data_connect_threshold (extn ctx)
        then []
        else if conn_peer_count ctx >=?
                tdls_auto_max_connected_peers (extn ctx)
        then []
        else [Connect (addr p)]
  end.
Proof.
  unfold tdls_auto_discovery_response.
  destruct (tdls_auto_find_peer ctx a) as [p|]; [|now apply emitted_same].
  destruct (connected p); [now apply emitted_same|].
  simpl extn.
  destruct (r <=? _); [now apply emitted_same|].
  rewrite sample_set_rssi. simpl.
  destruct (data_rate _ <? _).
  - apply emitted_app. simpl. now rewrite app_nil_r.
  - destruct (conn_peer_count ctx >=? _); apply emitted_app; simpl.
    + now rewrite app_nil_r.
    + now rewrite app_assoc.
Qed.

Lemma sample_no_connect d p b :
  ~ In (Connect b) (snd (tdls_auto_get_peer_data_rate d p)).
Proof. intros H. apply sample_calls in H. discriminate. Qed.



(** * C7: the rssi-teardown tick *)

Lemma for_each_peer_map body ps :
  for_each_peer body ps =
  (map (fun p => fst (body p)) ps, flat_map (fun p => snd (body p)) ps).
Proof.
  induction ps as [|p tl IH]; simpl; [reflexivity|].
  destruct (body p) as [p' cs]. rewrite IH. reflexivity.
Qed.

(** C7, the code at the failing input.  B connects without having been
    started, so its entry is an incoming peer; the count is 2 and the rssi
    read for B is below the threshold at three expiries of the
    rssi-teardown timeout in a row.  The first two expiries only read the
    rssi; after them the entry of B is connected with [low_rssi_vals] = 2.
    At the third expiry the handler calls disconnect(B).  When the
    capability reports the teardown through tdls_auto_peer_disconnected
    before it returns, that call releases the entry of the incoming peer,
    and the store [peer->low_rssi_vals = 0] that follows the capability
    call goes to the released entry.  On a driver whose disconnect returns
    without calling back the same expiry resets the counter of the entry,
    which stays tracked. *)
Theorem rssi_teardown_stores_to_released_peer :
  let tick := EvTimeout rssi_teardown_timeout in
  let linked := step (drv_at 1 0) (EvConnected mac_B) (init_ctx cfg1) in
  let before := run [(drv_sync 2 0, tick); (drv_sync 3 0, tick)] linked in
  let after := step (drv_sync 4 0) tick before in
  let quiet := step (drv_at 4 0) tick before in
  tdls_auto_rssi_teardown_count cfg1 = 2 /\
  emitted linked before = [GetRssi mac_B; GetRssi mac_B] /\
  map (fun p => (addr p, connected p, incoming_peer p, low_rssi_vals p))
      (peers before) = [(mac_B, true, true, 2)] /\
  emitted before after =
    [GetRssi mac_B; Disconnect mac_B; MonitorTraffic mac_B false;
     StoreToFreedPeer mac_B] /\
  peers after = [] /\
  emitted before quiet = [GetRssi mac_B; Disconnect mac_B] /\
  map (fun p => (addr p, connected p, incoming_peer p, low_rssi_vals p))
      (peers quiet) = [(mac_B, true, true, 0)].
Proof. vm_compute. repeat split. Qed.

(** * Re-entry through the disconnect capability *)

(* expose the fields of a context built by the setters *)
Ltac ctx_fields :=
  unfold tdls_auto_set_timer, tdls_auto_cancel_timer, set_timeouts,
    set_peer_count, set_conn_peer_count, set_peers, log, update_peer;
  simpl.

Lemma peer_store_head a f p tl :
  addr p = a -> peer_store a f (p :: tl) = f p :: tl.
Proof. intros H. simpl. rewrite H, addr_eqb_refl. reflexivity. Qed.

Lemma find_in_head a p tl : addr p = a -> find_in (p :: tl) a = Some p.
Proof. intros H. simpl. rewrite H, addr_eqb_refl. reflexivity. Qed.

Lemma peer_unlink_head a p tl : addr p = a -> peer_unlink a (p :: tl) = tl.
Proof. intros H. simpl. rewrite H, addr_eqb_refl. reflexivity. Qed.

Lemma peer_unlink_store a f ps :
  (forall p, addr p = a -> addr (f p) = addr p) ->
  peer_unlink a (peer_store a f ps) = peer_unlink a ps.
Proof.
  intros Hf. induction ps as [|q tl IH]; simpl; [reflexivity|].
  destruct (addr_eqb (addr q) a) eqn:E; simpl.
  - apply addr_eqb_eq in E. rewrite Hf by exact E.
    rewrite E, addr_eqb_refl. reflexivity.
  - rewrite E. now rewrite IH.
Qed.

Lemma peer_unlink_none a ps : find_in ps a = None -> peer_unlink a ps = ps.
Proof.
  induction ps as [|q tl IH]; simpl; [reflexivity|].
  destruct (addr_eqb (addr q) a); [discriminate|].
  intros H. now rewrite IH.
Qed.

Lemma find_in_unlink_other a b ps :
  a <> b -> find_in (peer_unlink a ps) b = find_in ps b.
Proof.
  intros Hab. induction ps as [|q tl IH]; simpl; [reflexivity|].
  destruct (addr_eqb (addr q) a) eqn:E; simpl.
  - apply addr_eqb_eq in E.
    assert (Hb : addr_eqb (addr q) b = false) by (apply addr_eqb_neq; congruence).
    now rewrite Hb.
  - now rewrite IH.
Qed.

Lemma find_in_unlink_same a ps :
  NoDup (map addr ps) -> find_in (peer_unlink a ps) a = None.
Proof.
  induction ps as [|q tl IH]; simpl; [reflexivity|].
  intros ND. inversion ND as [|x l Hq ND']; subst.
  destruct (addr_eqb (addr q) a) eqn:E; simpl.
  - apply addr_eqb_eq in E. subst. now apply find_in_none.
  - rewrite E. now apply IH.
Qed.

Lemma peer_store_store a f g ps :
  (forall p, addr p = a -> addr (f p) = addr p) ->
  peer_store a g (peer_store a f ps) = peer_store a (fun q => g (f q)) ps.
Proof.
  intros Hf. induction ps as [|q tl IH]; simpl; [reflexivity|].
  destruct (addr_eqb (addr q) a) eqn:E; simpl.
  - apply addr_eqb_eq in E. rewrite Hf by exact E.
    now rewrite E, addr_eqb_refl.
  - now rewrite E, IH.
Qed.

Lemma u32_pred_idem_gen x n : u32 (u32 (x - 1) - n) = u32 (x - (n + 1)).
Proof.
  unfold u32. rewrite Zminus_mod_idemp_l. f_equal. lia.
Qed.

Lemma cancel_after_arm v l :
  cancel_connect_timers (set_pending fast_connect_timeout v l) =
  cancel_connect_timers l.
Proof. reflexivity. Qed.

(* tdls_auto_mode_stop on an entry that is not connected: the capability is
   not called *)
Lemma stop_not_connected disc ctx a p :
  tdls_auto_find_peer ctx a = Some p ->
  connected p = false ->
  mode_stop_with disc ctx a =
  mk_ctx (peer_unlink a (peers ctx))
         (u32 (peer_count ctx - 1))
         (conn_peer_count ctx)
         (extn ctx)
         (if u32 (peer_count ctx - 1) =? 0
          then cancel_connect_timers (timeouts ctx) else timeouts ctx)
         (calls ctx ++ [MonitorTraffic a false]).
Proof.
  intros Hf Hc. assert (Ha : addr p = a) by (eapply find_in_addr; exact Hf).
  unfold mode_stop_with. rewrite Hf. cbv beta iota. rewrite Hc.
  unfold tdls_auto_peer_free, cancel_connect_timers. rewrite Ha.
  ctx_fields. now destruct (_ =? _).
Qed.

(* tdls_auto_peer_disconnected on a tracked address, whatever the
   capability does: the nested tdls_auto_mode_stop finds the connected flag
   cleared *)
Lemma disconnected_with_tracked disc ctx a p :
  tdls_auto_find_peer ctx a = Some p ->
  peer_disconnected_with (mode_stop_with disc) ctx a =
  if incoming_peer p
  then mk_ctx (peer_unlink a (peers ctx))
              (u32 (peer_count ctx - 1))
              (u32 (conn_peer_count ctx - 1))
              (extn ctx)
              (if u32 (peer_count ctx - 1) =? 0
               then cancel_connect_timers (timeouts ctx) else timeouts ctx)
              (calls ctx ++ [MonitorTraffic a false])
  else mk_ctx (peer_store a
                 (fun q => set_fast_attempts 0
                             (set_low_rssi_vals 0 (set_connected false q)))
                 (peers ctx))
              (peer_count ctx)
              (u32 (conn_peer_count ctx - 1))
              (extn ctx)
              (set_pending fast_connect_timeout
                 (armed (tdls_auto_fast_connect_period (extn ctx)))
                 (timeouts ctx))
              (calls ctx).
Proof.
  intros Hf. assert (Ha : addr p = a) by (eapply find_in_addr; exact Hf).
  unfold peer_disconnected_with. rewrite Hf, Ha.
  destruct (incoming_peer p).
  - rewrite (stop_not_connected disc _ a (set_connected false p));
      [|rewrite find_update_peer by reflexivity; now rewrite Hf|reflexivity].
    ctx_fields. now rewrite peer_unlink_store by reflexivity.
  - ctx_fields. now rewrite peer_store_store by reflexivity.
Qed.

Lemma disconnected_with_untracked stop ctx a :
  tdls_auto_find_peer ctx a = None -> peer_disconnected_with stop ctx a = ctx.
Proof. intros Hf. unfold peer_disconnected_with. now rewrite Hf. Qed.

Lemma disconnected_at_unfold n d :
  peer_disconnected_at n d =
  peer_disconnected_with
    (mode_stop_with
       (disconnect_with
          (match n with
           | O => fun ctx _ => ctx
           | S k => peer_disconnected_at k d
           end) d)).
Proof. destruct n; reflexivity. Qed.

(* the depth of nesting plays no part: tdls_auto_peer_disconnected never
   reaches the capability *)
Lemma disconnected_at_depth n m d ctx a :
  peer_disconnected_at n d ctx a = peer_disconnected_at m d ctx a.
Proof.
  rewrite (disconnected_at_unfold n), (disconnected_at_unfold m).
  destruct (tdls_auto_find_peer ctx a) as [p|] eqn:Hf.
  - now rewrite !(disconnected_with_tracked _ ctx a p Hf).
  - now rewrite !disconnected_with_untracked.
Qed.

Lemma disconnected_tracked d ctx a p :
  tdls_auto_find_peer ctx a = Some p ->
  tdls_auto_peer_disconnected d ctx a =
  if incoming_peer p
  then mk_ctx (peer_unlink a (peers ctx))
              (u32 (peer_count ctx - 1))
              (u32 (conn_peer_count ctx - 1))
              (extn ctx)
              (if u32 (peer_count ctx - 1) =? 0
               then cancel_connect_timers (timeouts ctx) else timeouts ctx)
              (calls ctx ++ [MonitorTraffic a false])
  else mk_ctx (peer_store a
                 (fun q => set_fast_attempts 0
                             (set_low_rssi_vals 0 (set_connected false q)))
                 (peers ctx))
              (peer_count ctx)
              (u32 (conn_peer_count ctx - 1))
              (extn ctx)
              (set_pending fast_connect_timeout
                 (armed (tdls_auto_fast_connect_period (extn ctx)))
                 (timeouts ctx))
              (calls ctx).
Proof.
  intros Hf. unfold tdls_auto_peer_disconnected.
  rewrite disconnected_at_unfold. now apply disconnected_with_tracked.
Qed.

Lemma disconnected_untracked d ctx a :
  tdls_auto_find_peer ctx a = None -> tdls_auto_peer_disconnected d ctx a = ctx.
Proof.
  intros Hf. unfold tdls_auto_peer_disconnected.
  rewrite disconnected_at_unfold. now apply disconnected_with_untracked.
Qed.

(* the disconnect capability called for a tracked, connected entry whose
   incoming flag is clear *)
Lemma extn_disconnect_outgoing d ctx a p :
  tdls_auto_find_peer ctx a = Some p ->
  incoming_peer p = false ->
  extn_disconnect d ctx a =
  if disconnect_calls_back d a
  then mk_ctx (peer_store a
                 (fun q => set_fast_attempts 0
                             (set_low_rssi_vals 0 (set_connected false q)))
                 (peers ctx))
              (peer_count ctx)
              (u32 (conn_peer_count ctx - 1))
              (extn ctx)
              (set_pending fast_connect_timeout
                 (armed (tdls_auto_fast_connect_period (extn ctx)))
                 (timeouts ctx))
              (calls ctx ++ [Disconnect a])
  else log [Disconnect a] ctx.
Proof.
  intros Hf Hi. unfold extn_disconnect, disconnect_with.
  destruct (disconnect_calls_back d a); [|reflexivity].
  rewrite (disconnected_tracked d _ a p) by exact Hf. now rewrite Hi.
Qed.

Lemma extn_disconnect_incoming d ctx a p :
  tdls_auto_find_peer ctx a = Some p ->
  incoming_peer p = true ->
  extn_disconnect d ctx a =
  if disconnect_calls_back d a
  then mk_ctx (peer_unlink a (peers ctx))
              (u32 (peer_count ctx - 1))
              (u32 (conn_peer_count ctx - 1))
              (extn ctx)
              (if u32 (peer_count ctx - 1) =? 0
               then cancel_connect_timers (timeouts ctx) else timeouts ctx)
              (calls ctx ++ [Disconnect a; MonitorTraffic a false])
  else log [Disconnect a] ctx.
Proof.
  intros Hf Hi. unfold extn_disconnect, disconnect_with.
  destruct (disconnect_calls_back d a); [|reflexivity].
  rewrite (disconnected_tracked d _ a p) by exact Hf. rewrite Hi.
  ctx_fields. now rewrite <- app_assoc.
Qed.

(* what tdls_auto_mode_stop makes of the context when the address is
   tracked; [cb]: the capability was called and called back *)
Lemma stop_tracked d ctx a p :
  tdls_auto_find_peer ctx a = Some p ->
  tdls_auto_mode_stop d ctx a =
  let cb := connected p && disconnect_calls_back d a in
  mk_ctx (peer_unlink a (peers ctx))
         (u32 (peer_count ctx - 1))
         (if cb then u32 (conn_peer_count ctx - 1) else conn_peer_count ctx)
         (extn ctx)
         (if u32 (peer_count ctx - 1) =? 0
          then cancel_connect_timers (timeouts ctx)
          else if cb
               then set_pending fast_connect_timeout
                      (armed (tdls_auto_fast_connect_period (extn ctx)))
                      (timeouts ctx)
               else timeouts ctx)
         (calls ctx ++ (if connected p then [Disconnect a] else [])
                    ++ [MonitorTraffic a false]).
Proof.
  intros Hf. assert (Ha : addr p = a) by (eapply find_in_addr; exact Hf).
  cbv zeta. destruct (connected p) eqn:Hc.
  - unfold tdls_auto_mode_stop, mode_stop_with. rewrite Hf, Hc, Ha.
    rewrite (extn_disconnect_outgoing d _ a (set_incoming_peer false p));
      [|rewrite find_update_peer by reflexivity; now rewrite Hf|reflexivity].
    unfold tdls_auto_peer_free, cancel_connect_timers. rewrite Ha.
    simpl andb. destruct (disconnect_calls_back d a).
    + ctx_fields. rewrite !peer_unlink_store by reflexivity.
      destruct (_ =? _); now rewrite <- app_assoc.
    + ctx_fields. rewrite peer_unlink_store by reflexivity.
      destruct (_ =? _); now rewrite <- app_assoc.
  - unfold tdls_auto_mode_stop.
    rewrite (stop_not_connected _ ctx a p Hf Hc). reflexivity.
Qed.

Lemma stop_untracked d ctx a :
  tdls_auto_find_peer ctx a = None -> tdls_auto_mode_stop d ctx a = ctx.
Proof.
  intros Hf. unfold tdls_auto_mode_stop, mode_stop_with. now rewrite Hf.
Qed.

Lemma stop_peers d ctx a :
  peers (tdls_auto_mode_stop d ctx a) = peer_unlink a (peers ctx).
Proof.
  destruct (tdls_auto_find_peer ctx a) as [p|] eqn:Hf.
  - now rewrite (stop_tracked d ctx a p Hf).
  - rewrite stop_untracked by exact Hf. symmetry. now apply peer_unlink_none.
Qed.

(** * The registry invariant *)

Section Invariant.
Variable cfg : wpas_tdls_auto_ctx.

Lemma wf_init : wf cfg (init_ctx cfg).
Proof.
  repeat split; simpl; try lia. constructor.
Qed.

Lemma wf_set_peers ctx ps :
  map addr ps = map addr (peers ctx) ->
  wf cfg ctx -> wf cfg (set_peers ps ctx).
Proof.
  intros Hm (He & Hc & Hn & Hd). unfold wf, registry_size. simpl.
  rewrite Hm. repeat split; try assumption; try apply Hn.
  rewrite Hc. unfold registry_size.
  rewrite <- (length_map addr ps), Hm, length_map. reflexivity.
Qed.

Lemma wf_update_peer ctx a f :
  (forall p, addr p = a -> addr (f p) = addr p) ->
  wf cfg ctx -> wf cfg (update_peer a f ctx).
Proof.
  intros Hf. apply wf_set_peers. now apply peer_store_addrs.
Qed.

Lemma wf_log ctx cs : wf cfg ctx -> wf cfg (log cs ctx).
Proof. intros H. exact H. Qed.

Lemma wf_set_timer ctx ms h : wf cfg ctx -> wf cfg (tdls_auto_set_timer ctx ms h).
Proof. intros H. exact H. Qed.

Lemma wf_cancel_timer ctx h : wf cfg ctx -> wf cfg (tdls_auto_cancel_timer ctx h).
Proof. intros H. exact H. Qed.

Lemma wf_set_conn ctx v :
  wf cfg ctx -> wf cfg (set_conn_peer_count (u32 v) ctx).
Proof.
  intros (He & Hc & Hn & Hd). repeat split; try assumption; apply u32_range.
Qed.

Lemma wf_add_to_list d ctx a :
  tdls_auto_find_peer ctx a = None ->
  wf cfg ctx -> wf cfg (fst (tdls_auto_peer_add_to_list d ctx a)).
Proof.
  intros Hf W. unfold tdls_auto_peer_add_to_list.
  destruct (os_zalloc_ok d); simpl; [|exact W].
  destruct W as (He & Hc & Hn & Hd).
  unfold wf, registry_size. simpl peers. simpl extn. simpl peer_count.
  simpl conn_peer_count. repeat split; try assumption; try apply Hn.
  - rewrite Hc. unfold registry_size, u32.
    rewrite Zplus_mod_idemp_l. f_equal. simpl length. lia.
  - simpl. constructor; [|assumption]. now apply find_in_none.
Qed.

Lemma wf_peer_free ctx p q :
  tdls_auto_find_peer ctx (addr p) = Some q ->
  wf cfg ctx -> wf cfg (tdls_auto_peer_free ctx p).
Proof.
  intros Hf (He & Hc & Hn & Hd). unfold tdls_auto_peer_free.
  unfold wf, registry_size. simpl peers. simpl extn. simpl peer_count.
  simpl conn_peer_count. repeat split; try assumption; try apply Hn.
  - rewrite Hc. unfold registry_size, u32.
    rewrite Zminus_mod_idemp_l. f_equal.
    rewrite (peer_unlink_length _ _ _ Hf). lia.
  - now apply peer_unlink_nodup.
Qed.

Lemma wf_unlinked ctx a p conn tm cs :
  tdls_auto_find_peer ctx a = Some p ->
  wf cfg ctx -> in_u32 conn ->
  wf cfg (mk_ctx (peer_unlink a (peers ctx)) (u32 (peer_count ctx - 1))
                 conn (extn ctx) tm cs).
Proof.
  intros Hf (He & Hc & Hn & Hd) Hconn.
  unfold wf, registry_size. cbn [peers peer_count conn_peer_count extn].
  repeat split; try assumption; try apply Hconn.
  - rewrite Hc. unfold registry_size, u32.
    rewrite Zminus_mod_idemp_l. f_equal.
    rewrite (peer_unlink_length _ _ _ Hf). lia.
  - now apply peer_unlink_nodup.
Qed.

Lemma wf_stored ctx a f conn tm cs :
  (forall p, addr p = a -> addr (f p) = addr p) ->
  wf cfg ctx -> in_u32 conn ->
  wf cfg (mk_ctx (peer_store a f (peers ctx)) (peer_count ctx)
                 conn (extn ctx) tm cs).
Proof.
  intros Hf (He & Hc & Hn & Hd) Hconn.
  unfold wf, registry_size. cbn [peers peer_count conn_peer_count extn].
  rewrite peer_store_addrs by exact Hf.
  repeat split; try assumption; try apply Hconn.
  rewrite Hc. unfold registry_size.
  rewrite <- (length_map addr (peer_store a f (peers ctx))),
    peer_store_addrs, length_map by exact Hf.
  reflexivity.
Qed.

Lemma wf_stop d ctx a : wf cfg ctx -> wf cfg (tdls_auto_mode_stop d ctx a).
Proof.
  intros W.
  destruct (tdls_auto_find_peer ctx a) as [p|] eqn:Hf;
    [|now rewrite stop_untracked].
  rewrite (stop_tracked d ctx a p Hf). cbv zeta.
  apply (wf_unlinked ctx a p); [exact Hf|exact W|].
  destruct (_ && _); [apply u32_range|apply W].
Qed.

Lemma wf_add_peer d ctx a :
  tdls_auto_find_peer ctx a = None ->
  wf cfg ctx -> wf cfg (fst (tdls_auto_add_peer d ctx a)).
Proof.
  intros Hf W. unfold tdls_auto_add_peer.
  destruct (negb _); [exact W|].
  pose proof (wf_add_to_list d (log [MonitorTraffic a true]
                                    (log [MonitorTraffic a false] ctx)) a Hf W)
    as W1.
  destruct (tdls_auto_peer_add_to_list d _ a) as [c1 added].
  simpl in W1. destruct added; simpl; [|exact W1].
  destruct (negb _); exact W1.
Qed.

Lemma wf_start d ctx a :
  wf cfg ctx -> wf cfg (fst (tdls_auto_mode_start d ctx a)).
Proof.
  intros W. unfold tdls_auto_mode_start.
  destruct (tdls_auto_find_peer ctx a) eqn:Hf; [exact W|].
  pose proof (wf_add_peer d ctx a Hf W) as W1.
  destruct (tdls_auto_add_peer d ctx a) as [c1 added].
  now destruct added.
Qed.

Lemma wf_on_peer ctx a body :
  (forall p, addr (fst (body p)) = addr p) ->
  wf cfg ctx -> wf cfg (on_peer a body ctx).
Proof.
  intros Hb W. unfold on_peer.
  destruct (tdls_auto_find_peer ctx a) as [p|] eqn:Hf; [|exact W].
  assert (Ha : addr p = a) by (eapply find_in_addr; exact Hf).
  specialize (Hb p). destruct (body p) as [p' cs]. simpl in Hb.
  apply wf_log, wf_update_peer; [|exact W]. intros q Hq. congruence.
Qed.

Lemma wf_connected d ctx a :
  wf cfg ctx -> wf cfg (tdls_auto_peer_connected d ctx a).
Proof.
  intros W. unfold tdls_auto_peer_connected.
  pose proof (wf_set_conn ctx (conn_peer_count ctx + 1) W) as W0.
  set (c0 := set_conn_peer_count _ ctx) in *.
  assert (W1 : wf cfg (fst (match tdls_auto_find_peer c0 a with
                   | Some _ => (c0, true)
                   | None =>
                       let (c, added) := tdls_auto_add_peer d c0 a in
                       if negb added then (c, false)
                       else (update_peer a (set_incoming_peer true) c, true)
                   end))).
  { destruct (tdls_auto_find_peer c0 a) eqn:Hf; [exact W0|].
    pose proof (wf_add_peer d c0 a Hf W0) as WA.
    destruct (tdls_auto_add_peer d c0 a) as [c added]. simpl in WA.
    destruct added; simpl; [|exact WA].
    now apply wf_update_peer. }
  destruct (match tdls_auto_find_peer c0 a with
            | Some _ => _ | None => _ end) as [c1 have].
  simpl in W1. destruct have; simpl; [|exact W1].
  destruct (negb _); repeat apply wf_set_timer;
    (apply wf_on_peer; [intros p; apply sample_addr|]);
    now apply wf_update_peer.
Qed.

Lemma wf_disconnected d ctx a :
  wf cfg ctx -> wf cfg (tdls_auto_peer_disconnected d ctx a).
Proof.
  intros W.
  destruct (tdls_auto_find_peer ctx a) as [p|] eqn:Hf;
    [|now rewrite disconnected_untracked].
  rewrite (disconnected_tracked d ctx a p Hf).
  destruct (incoming_peer p).
  - apply (wf_unlinked ctx a p); [exact Hf|exact W|apply u32_range].
  - apply wf_stored; [reflexivity|exact W|apply u32_range].
Qed.

Lemma wf_extn_disconnect d ctx a :
  wf cfg ctx -> wf cfg (extn_disconnect d ctx a).
Proof.
  intros W. unfold extn_disconnect, disconnect_with.
  destruct (disconnect_calls_back d a); [|now apply wf_log].
  now apply wf_disconnected, wf_log.
Qed.

Lemma wf_discovery_response d ctx a r :
  wf cfg ctx -> wf cfg (tdls_auto_discovery_response d ctx a r).
Proof.
  intros W. unfold tdls_auto_discovery_response.
  destruct (tdls_auto_find_peer ctx a) as [p|] eqn:Hf; [|exact W].
  assert (W1 : wf cfg (update_peer (addr p) (set_rssi r) ctx))
    by now apply wf_update_peer.
  destruct (connected p); [exact W1|].
  destruct (_ <=? _); [exact W1|].
  pose proof (sample_addr d (set_rssi r p)) as Hs.
  destruct (tdls_auto_get_peer_data_rate d (set_rssi r p)) as [p1 cs].
  simpl in Hs.
  assert (W2 : wf cfg (log cs (update_peer (addr p) (fun _ => p1)
                                 (update_peer (addr p) (set_rssi r) ctx)))).
  { apply wf_log, wf_update_peer; [|exact W1]. intros q Hq.
    simpl in Hs. congruence. }
  destruct (_ <? _); [exact W2|].
  destruct (_ >=? _); [exact W2|]. now apply wf_log.
Qed.

Lemma wf_remove_loop d kill visit ctx :
  wf cfg ctx -> wf cfg (remove_peers_loop d kill visit ctx).
Proof.
  revert ctx. induction visit as [|p tl IH]; intros ctx W; simpl; [exact W|].
  apply IH, wf_stop. destruct (negb kill); [|exact W].
  now apply wf_update_peer.
Qed.

Lemma wf_data_teardown_visit d ctx p :
  wf cfg ctx -> wf cfg (data_teardown_visit d ctx p).
Proof.
  intros W. unfold data_teardown_visit.
  destruct (negb _); [exact W|].
  pose proof (sample_addr d p) as Hs.
  destruct (tdls_auto_get_peer_data_rate d p) as [p1 cs]. simpl in Hs.
  assert (W1 : wf cfg (log cs (update_peer (addr p) (fun _ => p1) ctx))).
  { apply wf_log, wf_update_peer; [|exact W]. intros q Hq. congruence. }
  destruct (_ >=? _); [exact W1|]. now apply wf_extn_disconnect.
Qed.

Lemma wf_store_after_disconnect a f ctx :
  (forall p, addr p = a -> addr (f p) = addr p) ->
  wf cfg ctx -> wf cfg (store_after_disconnect a f ctx).
Proof.
  intros Hf W. unfold store_after_disconnect.
  destruct (tdls_auto_find_peer ctx a);
    [now apply wf_update_peer|now apply wf_log].
Qed.

Lemma wf_rssi_teardown_visit d ctx p :
  wf cfg ctx -> wf cfg (rssi_teardown_visit d ctx p).
Proof.
  intros W. unfold rssi_teardown_visit.
  destruct (negb _); [exact W|].
  unfold tdls_auto_get_connected_sta_rssi.
  assert (W1 : wf cfg (log [GetRssi (addr p)]
                         (update_peer (addr p)
                            (fun _ => set_rssi (get_rssi d (addr p)) p) ctx))).
  { apply wf_log, wf_update_peer; [|exact W]. intros q Hq. simpl. congruence. }
  destruct (_ >=? _); [now apply wf_update_peer|].
  destruct (_ <=? _); [now apply wf_update_peer|].
  apply wf_store_after_disconnect; [reflexivity|].
  apply wf_extn_disconnect. now apply wf_update_peer.
Qed.

Lemma wf_fold_visits (visit : tdls_auto_mode_ctx -> tdls_auto_peer ->
                              tdls_auto_mode_ctx) ps ctx :
  (forall c p, wf cfg c -> wf cfg (visit c p)) ->
  wf cfg ctx -> wf cfg (fold_left visit ps ctx).
Proof.
  intros Hv. revert ctx.
  induction ps as [|p tl IH]; intros ctx W; simpl; [exact W|].
  now apply IH, Hv.
Qed.
End Invariant.

(** ** The timer handlers keep the registry's addresses *)

Lemma fast_connect_body_addr d cfg p :
  addr (fst (fst (fast_connect_body d cfg p))) = addr p.
Proof.
  unfold fast_connect_body.
  destruct (connected p); [reflexivity|].
  destruct (_ >? _); [reflexivity|].
  pose proof (sample_addr d (set_fast_attempts (fast_attempts p + 1) p)) as H.
  destruct (tdls_auto_get_peer_data_rate d _) as [p2 cs]. simpl in H.
  now destruct (_ <? _).
Qed.

Lemma slow_connect_body_addr d cfg p :
  addr (fst (slow_connect_body d cfg p)) = addr p.
Proof.
  unfold slow_connect_body.
  destruct (connected p); [reflexivity|].
  destruct (_ <=? _); [reflexivity|].
  pose proof (sample_addr d p) as H.
  destruct (tdls_auto_get_peer_data_rate d p) as [p1 cs]. simpl in H.
  now destruct (_ <? _).
Qed.

Lemma fast_connect_loop_map d cfg ps :
  fast_connect_loop d cfg ps =
  (map (fun p => fst (fst (fast_connect_body d cfg p))) ps,
   flat_map (fun p => snd (fst (fast_connect_body d cfg p))) ps,
   existsb (fun p => snd (fast_connect_body d cfg p)) ps).
Proof.
  induction ps as [|p tl IH]; simpl; [reflexivity|].
  destruct (fast_connect_body d cfg p) as [[p' cs] f]. rewrite IH.
  reflexivity.
Qed.

Lemma map_addr_body (f : tdls_auto_peer -> tdls_auto_peer) ps :
  (forall p, addr (f p) = addr p) -> map addr (map f ps) = map addr ps.
Proof.
  intros H. rewrite map_map. apply map_ext. exact H.
Qed.

Section InvariantOfRuns.
Variable cfg : wpas_tdls_auto_ctx.

Lemma wf_fast_connect_timeout d ctx :
  wf cfg ctx -> wf cfg (tdls_auto_fast_connect_timeout d ctx).
Proof.
  intros W. unfold tdls_auto_fast_connect_timeout.
  rewrite fast_connect_loop_map.
  assert (W1 : wf cfg (set_peers
             (map (fun p => fst (fst (fast_connect_body d (extn ctx) p)))
                  (peers ctx)) ctx)).
  { apply wf_set_peers; [|exact W].
    apply map_addr_body. intros p. apply fast_connect_body_addr. }
  destruct (negb _); [now apply wf_log|].
  now apply wf_set_timer, wf_log.
Qed.

Lemma wf_for_each_peer ctx body :
  (forall p, addr (fst (body p)) = addr p) ->
  wf cfg ctx ->
  wf cfg (set_peers (fst (for_each_peer body (peers ctx))) ctx).
Proof.
  intros Hb W. rewrite for_each_peer_map. simpl.
  apply wf_set_peers; [|exact W]. now apply map_addr_body.
Qed.

Lemma wf_slow_connect_timeout d ctx :
  wf cfg ctx -> wf cfg (tdls_auto_slow_connect_timeout d ctx).
Proof.
  intros W. unfold tdls_auto_slow_connect_timeout.
  pose proof (wf_for_each_peer ctx (slow_connect_body d (extn ctx))
                (slow_connect_body_addr d (extn ctx)) W) as W1.
  destruct (for_each_peer _ _) as [ps cs]. simpl in W1.
  destruct (_ =? _); [now apply wf_log|]. now apply wf_set_timer, wf_log.
Qed.

Lemma wf_data_teardown_timeout d ctx :
  wf cfg ctx -> wf cfg (tdls_auto_data_teardown_timeout d ctx).
Proof.
  intros W. unfold tdls_auto_data_teardown_timeout.
  assert (W1 : wf cfg (fold_left (data_teardown_visit d) (peers ctx) ctx))
    by (apply wf_fold_visits;
        [intros c p; apply wf_data_teardown_visit|exact W]).
  destruct (_ =? _); [exact W1|]. now apply wf_set_timer.
Qed.

Lemma wf_rssi_teardown_timeout d ctx :
  wf cfg ctx -> wf cfg (tdls_auto_rssi_teardown_timeout d ctx).
Proof.
  intros W. unfold tdls_auto_rssi_teardown_timeout.
  assert (W1 : wf cfg (fold_left (rssi_teardown_visit d) (peers ctx) ctx))
    by (apply wf_fold_visits;
        [intros c p; apply wf_rssi_teardown_visit|exact W]).
  destruct (_ =? _); [exact W1|]. now apply wf_set_timer.
Qed.

Lemma wf_step d ev ctx : wf cfg ctx -> wf cfg (step d ev ctx).
Proof.
  intros W. destruct ev as [a|a|a|a|a r|k|h]; simpl.
  - now apply wf_start.
  - now apply wf_stop.
  - now apply wf_connected.
  - now apply wf_disconnected.
  - now apply wf_discovery_response.
  - now apply wf_remove_loop.
  - unfold eloop_fire. destruct (pending h (timeouts ctx)); [|exact W].
    pose proof (wf_cancel_timer cfg ctx h W) as W1.
    destruct h; simpl.
    + now apply wf_fast_connect_timeout.
    + now apply wf_slow_connect_timeout.
    + now apply wf_data_teardown_timeout.
    + now apply wf_rssi_teardown_timeout.
Qed.

(* every reachable context is well formed: in particular [peer_count] is
   the size of the registry (modulo 2^32) and addresses are unique *)
Lemma reachable_wf ctx : reachable cfg ctx -> wf cfg ctx.
Proof.
  induction 1 as [|d ev ctx _ IH]; [apply wf_init|now apply wf_step].
Qed.

Lemma run_reachable evs ctx :
  reachable cfg ctx -> reachable cfg (run evs ctx).
Proof.
  revert ctx. induction evs as [|[d ev] tl IH]; intros ctx R; simpl.
  - exact R.
  - apply IH. now constructor.
Qed.
End InvariantOfRuns.

(** * C1: the two counters against the registry *)

(* the half of the invariant that does hold in every reachable state *)
Lemma reachable_peer_count cfg ctx :
  reachable cfg ctx -> peer_count ctx = u32 (registry_size ctx).
Proof. intros R. apply (reachable_wf cfg ctx R). Qed.

(** C1, the code at three failing inputs, each a run from the initial
    context.  (1) [connected] for an unknown address while the driver
    refuses the traffic-accounting entry: no peer is created but
    [conn_peer_count] is 1.  (2) Two [connected] events for the same peer:
    one connected peer, [conn_peer_count] is 2.  (3) [connected] followed by
    [remove_all] with [kill_active_links] false: the registry is empty and
    [conn_peer_count] is still 1.  In all three [peer_count] equals the
    size of the registry. *)
Theorem conn_peer_count_not_number_of_connected_peers :
  (let c := run [(drv_no_cache, EvConnected mac_A)] (init_ctx cfg1) in
   reachable cfg1 c /\
   peers c = [] /\ peer_count c = 0 /\
   connected_peers c = 0 /\ conn_peer_count c = 1) /\
  (let c := run [(drv_at 1 0, EvConnected mac_A);
                 (drv_at 2 0, EvConnected mac_A)] (init_ctx cfg1) in
   reachable cfg1 c /\
   registry_size c = 1 /\ peer_count c = 1 /\
   connected_peers c = 1 /\ conn_peer_count c = 2) /\
  (let c := run [(drv_at 1 0, EvConnected mac_A);
                 (drv_at 2 0, EvRemovePeers false)] (init_ctx cfg1) in
   reachable cfg1 c /\
   peers c = [] /\ peer_count c = 0 /\
   connected_peers c = 0 /\ conn_peer_count c = 1).
Proof.
  cbv zeta. repeat split;
    try (apply run_reachable; constructor); vm_compute; reflexivity.
Qed.

(** * C8: a second disconnected event *)

(* For a peer that is not incoming, [disconnected] rewrites the peer to the
   same values each time it is delivered but decrements [conn_peer_count]
   every time. *)
Lemma disconnected_outgoing d ctx a p :
  tdls_auto_find_peer ctx a = Some p ->
  incoming_peer p = false ->
  tdls_auto_peer_disconnected d ctx a =
  set_conn_peer_count (u32 (conn_peer_count ctx - 1))
    (tdls_auto_set_timer
       (update_peer a (fun q => set_fast_attempts 0 (set_low_rssi_vals 0 q))
          (update_peer a (set_connected false) ctx))
       (tdls_auto_fast_connect_period (extn ctx)) fast_connect_timeout).
Proof.
  intros Hf Hi. unfold tdls_auto_peer_disconnected.
  rewrite disconnected_at_unfold. unfold peer_disconnected_with.
  rewrite Hf. cbv beta iota. rewrite Hi.
  assert (Ha : addr p = a) by (eapply find_in_addr; exact Hf).
  now rewrite Ha.
Qed.

(* what the outside world answers plays no part in
   tdls_auto_peer_disconnected *)
Lemma disconnected_any_driver d d' ctx a :
  tdls_auto_peer_disconnected d ctx a = tdls_auto_peer_disconnected d' ctx a.
Proof.
  destruct (tdls_auto_find_peer ctx a) as [p|] eqn:Hf.
  - now rewrite !(disconnected_tracked _ ctx a p Hf).
  - now rewrite !disconnected_untracked.
Qed.

(** C8, the code at the failing input.  After start(A), connected(A) and a
    first disconnected(A) the peer is tracked, not connected, and
    [conn_peer_count] is 0.  A second disconnected(A), whatever the driver
    answers during it, leaves the registry and [peer_count] as they are
    but decrements [conn_peer_count] once more, to 2^32 - 1. *)
Theorem second_disconnected_decrements_again :
  let c1 := run [(drv_at 1 0, EvStart mac_A);
                 (drv_at 2 0, EvConnected mac_A);
                 (drv_at 3 0, EvDisconnected mac_A)] (init_ctx cfg1) in
  forall d : driver,
  let c2 := tdls_auto_peer_disconnected d c1 mac_A in
  reachable cfg1 c1 /\
  option_map connected (tdls_auto_find_peer c1 mac_A) = Some false /\
  conn_peer_count c1 = 0 /\
  peers c2 = peers c1 /\
  peer_count c2 = peer_count c1 /\
  connected_peers c2 = 0 /\
  conn_peer_count c2 = 4294967295 /\
  c2 <> c1.
Proof.
  cbv zeta. intros d.
  rewrite (disconnected_any_driver d (drv_at 4 0)).
  repeat split;
    try (apply run_reachable; constructor); try (vm_compute; reflexivity).
  intros H. apply (f_equal conn_peer_count) in H. vm_compute in H.
  discriminate.
Qed.

(** * C3: the maximum number of connected peers *)

Lemma ncb_same c c' : calls c' = calls c -> no_connect_between c c'.
Proof. intros H. exists []. rewrite app_nil_r. split; [exact H|intros b []]. Qed.

Lemma ncb_trans c1 c2 c3 :
  no_connect_between c1 c2 -> no_connect_between c2 c3 ->
  no_connect_between c1 c3.
Proof.
  intros (cs1 & E1 & N1) (cs2 & E2 & N2). exists (cs1 ++ cs2). split.
  - now rewrite E2, E1, app_assoc.
  - intros b H. apply in_app_or in H. destruct H as [H|H];
      [now apply N1 in H|now apply N2 in H].
Qed.

Lemma ncb_emitted c c' b :
  no_connect_between c c' -> ~ In (Connect b) (emitted c c').
Proof.
  intros (cs & E & N). rewrite (emitted_app _ _ _ E). apply N.
Qed.

Lemma no_connect_flat_map (f : tdls_auto_peer -> list call) ps :
  (forall p b, ~ In (Connect b) (f p)) ->
  forall b, ~ In (Connect b) (flat_map f ps).
Proof.
  intros H b Hin. apply in_flat_map in Hin. destruct Hin as (p & _ & Hin).
  now apply H in Hin.
Qed.

Lemma no_connect_app (cs1 cs2 : list call) b :
  ~ In (Connect b) cs1 -> ~ In (Connect b) cs2 -> ~ In (Connect b) (cs1 ++ cs2).
Proof. intros H1 H2 H. apply in_app_or in H. tauto. Qed.

Lemma fast_connect_body_no_connect d cfg p b :
  ~ In (Connect b) (snd (fst (fast_connect_body d cfg p))).
Proof.
  unfold fast_connect_body.
  destruct (connected p); [intros []|].
  destruct (_ >? _); [intros []|].
  pose proof (sample_no_connect d (set_fast_attempts (fast_attempts p + 1) p) b) as H.
  destruct (tdls_auto_get_peer_data_rate d _) as [p2 cs]. simpl in H.
  destruct (_ <? _); simpl; [exact H|].
  apply no_connect_app; [exact H|]. intros [E|[]]. discriminate.
Qed.

Lemma slow_connect_body_no_connect d cfg p b :
  ~ In (Connect b) (snd (slow_connect_body d cfg p)).
Proof.
  unfold slow_connect_body.
  destruct (connected p); [intros []|].
  destruct (_ <=? _); [intros []|].
  pose proof (sample_no_connect d p b) as H.
  destruct (tdls_auto_get_peer_data_rate d p) as [p1 cs]. simpl in H.
  destruct (_ <? _); simpl; [exact H|].
  apply no_connect_app; [exact H|]. intros [E|[]]. discriminate.
Qed.

Lemma ncb_for_each ctx body :
  (forall p b, ~ In (Connect b) (snd (body p))) ->
  let r := for_each_peer body (peers ctx) in
  no_connect_between ctx (log (snd r) (set_peers (fst r) ctx)).
Proof.
  intros H. cbv zeta. rewrite for_each_peer_map. simpl.
  exists (flat_map (fun p => snd (body p)) (peers ctx)).
  split; [reflexivity|]. now apply no_connect_flat_map.
Qed.

(* the paths that tear down or release make only teardown calls *)
Lemma teardown_only_same c c' : calls c' = calls c -> teardown_only c c'.
Proof. intros H. exists []. now rewrite app_nil_r. Qed.

Lemma teardown_only_log cs c :
  forallb teardown_call cs = true -> teardown_only c (log cs c).
Proof. intros H. now exists cs. Qed.

Lemma teardown_only_trans c1 c2 c3 :
  teardown_only c1 c2 -> teardown_only c2 c3 -> teardown_only c1 c3.
Proof.
  intros (cs1 & E1 & N1) (cs2 & E2 & N2). exists (cs1 ++ cs2). split.
  - now rewrite E2, E1, app_assoc.
  - rewrite forallb_app. now rewrite N1, N2.
Qed.

Lemma teardown_only_no_connect c c' :
  teardown_only c c' -> no_connect_between c c'.
Proof.
  intros (cs & E & N). exists cs. split; [exact E|].
  intros b Hin. rewrite forallb_forall in N. apply N in Hin. discriminate.
Qed.

Lemma teardown_only_no_discovery c c' b :
  teardown_only c c' -> ~ In (SendDiscovery b) (emitted c c').
Proof.
  intros (cs & E & N). rewrite (emitted_app _ _ _ E).
  intros Hin. rewrite forallb_forall in N. apply N in Hin. discriminate.
Qed.

Lemma teardown_only_stop d ctx a :
  teardown_only ctx (tdls_auto_mode_stop d ctx a).
Proof.
  destruct (tdls_auto_find_peer ctx a) as [p|] eqn:Hf.
  - rewrite (stop_tracked d ctx a p Hf). cbv zeta.
    eexists. split; [reflexivity|]. now destruct (connected p).
  - rewrite stop_untracked by exact Hf. now apply teardown_only_same.
Qed.

Lemma teardown_only_disconnected d ctx a :
  teardown_only ctx (tdls_auto_peer_disconnected d ctx a).
Proof.
  destruct (tdls_auto_find_peer ctx a) as [p|] eqn:Hf.
  - rewrite (disconnected_tracked d ctx a p Hf).
    destruct (incoming_peer p).
    + eexists. split; [reflexivity|reflexivity].
    + now apply teardown_only_same.
  - rewrite disconnected_untracked by exact Hf. now apply teardown_only_same.
Qed.

Lemma teardown_only_extn_disconnect d ctx a :
  teardown_only ctx (extn_disconnect d ctx a).
Proof.
  unfold extn_disconnect, disconnect_with.
  assert (H : teardown_only ctx (log [Disconnect a] ctx))
    by now apply teardown_only_log.
  destruct (disconnect_calls_back d a); [|exact H].
  eapply teardown_only_trans; [exact H|apply teardown_only_disconnected].
Qed.

Lemma sample_teardown_calls d p :
  forallb teardown_call (snd (tdls_auto_get_peer_data_rate d p)) = true.
Proof.
  unfold tdls_auto_get_peer_data_rate.
  destruct (_ <? _); [reflexivity|].
  now destruct (get_sta_bytes d (addr p)) as [[tx rx]|].
Qed.

Lemma teardown_only_data_visit d ctx p :
  teardown_only ctx (data_teardown_visit d ctx p).
Proof.
  unfold data_teardown_visit.
  destruct (negb _); [now apply teardown_only_same|].
  pose proof (sample_teardown_calls d p) as Hs.
  destruct (tdls_auto_get_peer_data_rate d p) as [p1 cs]. simpl in Hs.
  assert (H : teardown_only ctx
                (log cs (update_peer (addr p) (fun _ => p1) ctx)))
    by (now exists cs).
  destruct (_ >=? _); [exact H|].
  eapply teardown_only_trans; [exact H|apply teardown_only_extn_disconnect].
Qed.

Lemma teardown_only_store_after a f ctx :
  teardown_only ctx (store_after_disconnect a f ctx).
Proof.
  unfold store_after_disconnect.
  destruct (tdls_auto_find_peer ctx a);
    [now apply teardown_only_same|now apply teardown_only_log].
Qed.

Lemma teardown_only_rssi_visit d ctx p :
  teardown_only ctx (rssi_teardown_visit d ctx p).
Proof.
  unfold rssi_teardown_visit.
  destruct (negb _); [now apply teardown_only_same|].
  unfold tdls_auto_get_connected_sta_rssi.
  destruct (_ >=? _); [now exists [GetRssi (addr p)]|].
  destruct (_ <=? _); [now exists [GetRssi (addr p)]|].
  eapply teardown_only_trans; [|apply teardown_only_store_after].
  eapply teardown_only_trans; [|apply teardown_only_extn_disconnect].
  now exists [GetRssi (addr p)].
Qed.

Lemma teardown_only_fold (visit : tdls_auto_mode_ctx -> tdls_auto_peer ->
                                  tdls_auto_mode_ctx) ps ctx :
  (forall c p, teardown_only c (visit c p)) ->
  teardown_only ctx (fold_left visit ps ctx).
Proof.
  intros Hv. revert ctx.
  induction ps as [|p tl IH]; intros ctx; simpl.
  - now apply teardown_only_same.
  - eapply teardown_only_trans; [apply Hv|apply IH].
Qed.

Lemma teardown_only_data_timeout d ctx :
  teardown_only ctx (tdls_auto_data_teardown_timeout d ctx).
Proof.
  unfold tdls_auto_data_teardown_timeout.
  pose proof (teardown_only_fold (data_teardown_visit d) (peers ctx) ctx
                (teardown_only_data_visit d)) as H.
  destruct (_ =? _); exact H.
Qed.

Lemma teardown_only_rssi_timeout d ctx :
  teardown_only ctx (tdls_auto_rssi_teardown_timeout d ctx).
Proof.
  unfold tdls_auto_rssi_teardown_timeout.
  pose proof (teardown_only_fold (rssi_teardown_visit d) (peers ctx) ctx
                (teardown_only_rssi_visit d)) as H.
  destruct (_ =? _); exact H.
Qed.

Lemma teardown_only_remove_loop d kill visit ctx :
  teardown_only ctx (remove_peers_loop d kill visit ctx).
Proof.
  revert ctx. induction visit as [|p tl IH]; intros ctx; simpl.
  - now apply teardown_only_same.
  - eapply teardown_only_trans; [|apply IH].
    destruct (negb kill); [|apply teardown_only_stop].
    exact (teardown_only_stop d
             (update_peer (addr p) (set_connected false) ctx) (addr p)).
Qed.

Lemma ncb_stop d ctx a : no_connect_between ctx (tdls_auto_mode_stop d ctx a).
Proof. apply teardown_only_no_connect, teardown_only_stop. Qed.

Lemma ncb_add_peer d ctx a :
  no_connect_between ctx (fst (tdls_auto_add_peer d ctx a)).
Proof.
  unfold tdls_auto_add_peer, tdls_auto_peer_add_to_list.
  destruct (negb _); simpl.
  - exists [MonitorTraffic a false; MonitorTraffic a true].
    split; [simpl; now rewrite <- app_assoc|].
    intros b [E|[E|[]]]; discriminate.
  - destruct (os_zalloc_ok d); simpl.
    + destruct (negb _); simpl;
        (exists [MonitorTraffic a false; MonitorTraffic a true];
         split; [simpl; now rewrite <- app_assoc|];
         intros b [E|[E|[]]]; discriminate).
    + exists [MonitorTraffic a false; MonitorTraffic a true;
              MonitorTraffic a false].
      split; [simpl; now rewrite <- !app_assoc|].
      intros b [E|[E|[E|[]]]]; discriminate.
Qed.

Lemma ncb_on_peer_sample d ctx a :
  no_connect_between ctx (on_peer a (tdls_auto_get_peer_data_rate d) ctx).
Proof.
  unfold on_peer.
  destruct (tdls_auto_find_peer ctx a) as [p|]; [|now apply ncb_same].
  pose proof (fun b => sample_no_connect d p b) as H.
  destruct (tdls_auto_get_peer_data_rate d p) as [p' cs]. simpl in H.
  exists cs. now split.
Qed.

Lemma ncb_start d ctx a :
  no_connect_between ctx (fst (tdls_auto_mode_start d ctx a)).
Proof.
  unfold tdls_auto_mode_start.
  destruct (tdls_auto_find_peer ctx a); [now apply ncb_same|].
  pose proof (ncb_add_peer d ctx a) as H.
  destruct (tdls_auto_add_peer d ctx a) as [c added]. now destruct added.
Qed.

Lemma ncb_connected d ctx a :
  no_connect_between ctx (tdls_auto_peer_connected d ctx a).
Proof.
  unfold tdls_auto_peer_connected.
  set (c0 := set_conn_peer_count _ ctx).
  assert (N1 : no_connect_between ctx (fst (match tdls_auto_find_peer c0 a with
                     | Some _ => (c0, true)
                     | None =>
                         let (c, added) := tdls_auto_add_peer d c0 a in
                         if negb added then (c, false)
                         else (update_peer a (set_incoming_peer true) c, true)
                     end))).
  { destruct (tdls_auto_find_peer c0 a); [now apply ncb_same|].
    pose proof (ncb_add_peer d c0 a) as H.
    destruct (tdls_auto_add_peer d c0 a) as [c added].
    destruct added; exact H. }
  destruct (match tdls_auto_find_peer c0 a with
            | Some _ => _ | None => _ end) as [c1 have].
  simpl in N1. destruct have; simpl; [|exact N1].
  eapply ncb_trans; [exact N1|].
  pose proof (ncb_on_peer_sample d (update_peer a (set_connected true) c1) a)
    as N2.
  destruct (negb _); exact N2.
Qed.

Lemma ncb_disconnected d ctx a :
  no_connect_between ctx (tdls_auto_peer_disconnected d ctx a).
Proof. apply teardown_only_no_connect, teardown_only_disconnected. Qed.

Lemma ncb_remove_loop d kill visit ctx :
  no_connect_between ctx (remove_peers_loop d kill visit ctx).
Proof. apply teardown_only_no_connect, teardown_only_remove_loop. Qed.

Lemma ncb_run_handler h d ctx :
  no_connect_between ctx (run_handler h d ctx).
Proof.
  destruct h; simpl.
  - unfold tdls_auto_fast_connect_timeout. rewrite fast_connect_loop_map.
    assert (N : forall b, ~ In (Connect b)
                (flat_map (fun p => snd (fst (fast_connect_body d (extn ctx) p)))
                          (peers ctx))).
    { apply no_connect_flat_map. intros p b.
      apply fast_connect_body_no_connect. }
    destruct (negb _); eexists; (split; [reflexivity|exact N]).
  - unfold tdls_auto_slow_connect_timeout.
    pose proof (ncb_for_each ctx (slow_connect_body d (extn ctx))
                  (slow_connect_body_no_connect d (extn ctx))) as N.
    cbv zeta in N. destruct (for_each_peer _ _) as [ps cs].
    destruct (_ =? _); exact N.
  - apply teardown_only_no_connect, teardown_only_data_timeout.
  - apply teardown_only_no_connect, teardown_only_rssi_timeout.
Qed.

Lemma ncb_fire h d ctx : no_connect_between ctx (eloop_fire h d ctx).
Proof.
  unfold eloop_fire. destruct (pending h (timeouts ctx)); [|now apply ncb_same].
  exact (ncb_run_handler h d (tdls_auto_cancel_timer ctx h)).
Qed.

(** C3, counterexample.  With [max_connected_peers] = 1, two [connected]
    events for two addresses lead to a reachable state with two connected
    peers and [conn_peer_count] = 2. *)
Lemma connected_events_exceed_maximum :
  let c := run [(drv_at 1 0, EvConnected mac_A);
                (drv_at 1 0, EvConnected mac_B)] (init_ctx cfg1) in
  reachable cfg1 c /\
  tdls_auto_max_connected_peers cfg1 = 1 /\
  connected_peers c = 2 /\
  conn_peer_count c = 2.
Proof.
  cbv zeta. split; [apply run_reachable; constructor|].
  repeat split.
Qed.

(** C3, amended.  The one check against the maximum is the guard on a
    connect request: whenever a top-level event makes the controller invoke
    [connect], the event is a discovery response from that address and
    [conn_peer_count] was strictly below [max_connected_peers] when it
    arrived.  (The guard is evaluated at each request; it bounds neither
    the number of requests made before the links come up nor
    [conn_peer_count], see [connect_requested_twice_with_maximum_one].) *)
Theorem connect_only_below_maximum
        (d : driver) (ev : event) (ctx : tdls_auto_mode_ctx) (b : macaddr) :
  In (Connect b) (emitted ctx (step d ev ctx)) ->
  conn_peer_count ctx < tdls_auto_max_connected_peers (extn ctx) /\
  exists r, ev = EvDiscoveryResponse b r.
Proof.
  destruct ev as [a|a|a|a|a r|k|h]; simpl; intros H.
  - now apply ncb_emitted in H; [|apply ncb_start].
  - now apply ncb_emitted in H; [|apply ncb_stop].
  - now apply ncb_emitted in H; [|apply ncb_connected].
  - now apply ncb_emitted in H; [|apply ncb_disconnected].
  - rewrite discovery_response_emitted in H.
    destruct (tdls_auto_find_peer ctx a) as [p|] eqn:Hf; [|destruct H].
    destruct (connected p); [destruct H|].
    destruct (_ <=? _); [destruct H|].
    apply in_app_or in H. destruct H as [H|H];
      [now apply sample_no_connect in H|].
    destruct (_ <? _); [destruct H|].
    destruct (Z.geb_spec (conn_peer_count ctx)
                         (tdls_auto_max_connected_peers (extn ctx)))
      as [Hge|Hlt]; [destruct H|].
    destruct H as [E|[]]. inversion E; subst. split; [lia|].
    exists r. f_equal. symmetry. eapply find_in_addr. exact Hf.
  - now apply ncb_emitted in H; [|apply ncb_remove_loop].
  - now apply ncb_emitted in H; [|apply ncb_fire].
Qed.

Lemma connect_only_below_maximum_witness :
  In (Connect mac_A)
     (emitted ctx_one_candidate
        (step (drv_at 2 100000) (EvDiscoveryResponse mac_A (-60))
              ctx_one_candidate)) /\
  conn_peer_count ctx_one_candidate <
  tdls_auto_max_connected_peers (extn ctx_one_candidate).
Proof.
  assert (H : In (Connect mac_A)
     (emitted ctx_one_candidate
        (step (drv_at 2 100000) (EvDiscoveryResponse mac_A (-60))
              ctx_one_candidate))).
  { vm_compute. right. left. reflexivity. }
  split; [exact H|].
  exact (proj1 (connect_only_below_maximum
                  (drv_at 2 100000) (EvDiscoveryResponse mac_A (-60))
                  ctx_one_candidate mac_A H)).
Defined.

(* The guard does not bound the connections the controller initiates.
   With [max_connected_peers] = 1, A and B are started and both answer
   discovery before either link is up: the guard passes twice, connect is
   requested for both, and once both links are reported there are two
   connected outgoing peers. *)
Example connect_requested_twice_with_maximum_one :
  let c := run [(drv_at 1 0, EvStart mac_A);
                (drv_at 1 0, EvStart mac_B);
                (drv_at 2 100000, EvDiscoveryResponse mac_A (-60));
                (drv_at 2 100000, EvDiscoveryResponse mac_B (-60));
                (drv_at 3 100000, EvConnected mac_A);
                (drv_at 3 100000, EvConnected mac_B)] (init_ctx cfg1) in
  reachable cfg1 c /\
  tdls_auto_max_connected_peers cfg1 = 1 /\
  filter (fun x => match x with Connect _ => true | _ => false end)
         (calls c) = [Connect mac_A; Connect mac_B] /\
  roles c = [(mac_B, true, false); (mac_A, true, false)] /\
  conn_peer_count c = 2.
Proof.
  cbv zeta. split; [apply run_reachable; constructor|].
  vm_compute. repeat split.
Qed.

(** * C9: an incoming peer comes and goes *)




Lemma add_peer_ok d ctx a :
  monitor_traffic d a true = 0 ->
  os_zalloc_ok d = true ->
  exists c,
    tdls_auto_add_peer d ctx a = (c, true) /\
    peers c = zalloc_peer a :: peers ctx /\
    peer_count c = u32 (peer_count ctx + 1) /\
    conn_peer_count c = conn_peer_count ctx /\
    extn c = extn ctx /\
    calls c = calls ctx ++ [MonitorTraffic a false; MonitorTraffic a true].
Proof.
  intros Hm Ha. unfold tdls_auto_add_peer, tdls_auto_peer_add_to_list.
  rewrite Hm, Ha. simpl negb. cbv iota.
  destruct (negb _); eexists; (split; [reflexivity|]); simpl;
    rewrite <- app_assoc; now repeat split.
Qed.

Lemma connected_unknown d ctx a :
  tdls_auto_find_peer ctx a = None ->
  monitor_traffic d a true = 0 ->
  os_zalloc_ok d = true ->
  let c1 := tdls_auto_peer_connected d ctx a in
  peers c1 = incoming_entry d a :: peers ctx /\
  peer_count c1 = u32 (peer_count ctx + 1) /\
  conn_peer_count c1 = u32 (conn_peer_count ctx + 1) /\
  extn c1 = extn ctx.
Proof.
  intros Hf Hm Ha. cbv zeta.
  unfold tdls_auto_peer_connected.
  set (c0 := set_conn_peer_count _ ctx).
  assert (Hf0 : tdls_auto_find_peer c0 a = None) by exact Hf.
  rewrite Hf0.
  destruct (add_peer_ok d c0 a Hm Ha) as (c & E & Hp & Hpc & Hcc & He & _).
  rewrite E. cbv beta iota. simpl negb. cbv beta iota.
  set (c2 := update_peer a (set_connected true)
               (update_peer a (set_incoming_peer true) c)).
  assert (Hp2 : peers c2 =
                set_connected true (set_incoming_peer true (zalloc_peer a))
                :: peers ctx).
  { subst c2. unfold update_peer. simpl peers. rewrite Hp.
    rewrite peer_store_head by reflexivity.
    rewrite peer_store_head by reflexivity. reflexivity. }
  assert (Hq2 : peer_count c2 = peer_count c /\
                conn_peer_count c2 = conn_peer_count c /\
                extn c2 = extn c) by now repeat split.
  destruct Hq2 as (Hpc2 & Hcc2 & He2). clearbody c2.
  assert (H3 : let c3 := on_peer a (tdls_auto_get_peer_data_rate d) c2 in
               peers c3 = incoming_entry d a :: peers ctx /\
               peer_count c3 = peer_count c2 /\
               conn_peer_count c3 = conn_peer_count c2 /\
               extn c3 = extn c2).
  { cbv zeta. unfold on_peer, tdls_auto_find_peer. rewrite Hp2.
    rewrite find_in_head by reflexivity. unfold incoming_entry.
    destruct (tdls_auto_get_peer_data_rate d _) as [p' cs].
    simpl. rewrite Hp2. rewrite peer_store_head by reflexivity.
    now repeat split. }
  cbv zeta in H3. destruct H3 as (H3p & H3c & H3cc & H3e).
  change (negb true) with false. cbv iota.
  destruct (negb _); unfold tdls_auto_set_timer, set_timeouts;
    cbn [peers peer_count conn_peer_count extn];
    rewrite H3p, H3c, H3cc, H3e, Hpc2, Hcc2, He2, Hpc, Hcc, He;
    now repeat split.
Qed.

Lemma disconnected_incoming_head d ctx a p tl :
  peers ctx = p :: tl -> addr p = a -> incoming_peer p = true ->
  let c2 := tdls_auto_peer_disconnected d ctx a in
  peers c2 = tl /\
  peer_count c2 = u32 (peer_count ctx - 1) /\
  conn_peer_count c2 = u32 (conn_peer_count ctx - 1) /\
  extn c2 = extn ctx /\
  emitted ctx c2 = [MonitorTraffic a false] /\
  (fast_pending (timeouts c2) = fast_pending (timeouts ctx) \/
   fast_pending (timeouts c2) = None).
Proof.
  intros Hp Ha Hi. cbv zeta.
  assert (Hf : tdls_auto_find_peer ctx a = Some p)
    by (unfold tdls_auto_find_peer; rewrite Hp; now apply find_in_head).
  rewrite (disconnected_tracked d ctx a p Hf), Hi.
  cbn [peers peer_count conn_peer_count extn timeouts].
  rewrite Hp, peer_unlink_head by exact Ha.
  repeat split; [now apply emitted_app|].
  destruct (_ =? _); [now right|now left].
Qed.

Lemma fast_connect_body_discovery d cfg p b :
  In (SendDiscovery b) (snd (fst (fast_connect_body d cfg p))) ->
  b = addr p /\ connected p = false /\
  fast_attempts p <= TDLS_AUTO_MAX_FAST_CONN_ATTEMPTS.
Proof.
  unfold fast_connect_body.
  destruct (connected p); [intros []|].
  destruct (Z.gtb_spec (fast_attempts p) TDLS_AUTO_MAX_FAST_CONN_ATTEMPTS)
    as [Hgt|Hle]; [intros []|].
  pose proof (sample_addr d (set_fast_attempts (fast_attempts p + 1) p)) as Hs.
  pose proof (sample_calls d (set_fast_attempts (fast_attempts p + 1) p)) as Hc.
  destruct (tdls_auto_get_peer_data_rate d _) as [p2 cs].
  simpl in Hs, Hc.
  destruct (_ <? _); simpl; intros H.
  - apply Hc in H. discriminate.
  - apply in_app_or in H. destruct H as [H|[H|[]]].
    + apply Hc in H. discriminate.
    + inversion H. repeat split; congruence || lia.
Qed.

Lemma fast_connect_timeout_emitted d ctx :
  emitted ctx (tdls_auto_fast_connect_timeout d ctx) =
  flat_map (fun p => snd (fst (fast_connect_body d (extn ctx) p))) (peers ctx).
Proof.
  apply emitted_app. unfold tdls_auto_fast_connect_timeout.
  rewrite fast_connect_loop_map. now destruct (negb _).
Qed.


(* the fast-connect handler sends discoveries to tracked peers only *)
Lemma fast_connect_untracked d ctx a :
  tdls_auto_find_peer ctx a = None ->
  ~ In (SendDiscovery a) (emitted ctx (tdls_auto_fast_connect_timeout d ctx)).
Proof.
  intros Hf H. rewrite fast_connect_timeout_emitted in H.
  apply in_flat_map in H. destruct H as (p & Hin & H).
  apply fast_connect_body_discovery in H. destruct H as (E & _).
  apply find_in_none in Hf. apply Hf. rewrite E. now apply in_map.
Qed.

Lemma add_peer_failure d ctx a :
  monitor_traffic d a true <> 0 \/ os_zalloc_ok d = false ->
  tdls_auto_add_peer d ctx a =
  (log (MonitorTraffic a false :: MonitorTraffic a true ::
        (if monitor_traffic d a true =? 0 then [MonitorTraffic a false]
         else [])) ctx,
   false).
Proof.
  intros H. unfold tdls_auto_add_peer, tdls_auto_peer_add_to_list.
  destruct (Z.eqb_spec (monitor_traffic d a true) 0) as [E|E]; simpl.
  - destruct H as [H|H]; [contradiction|]. rewrite H. ctx_fields.
    now rewrite <- !app_assoc.
  - ctx_fields. now rewrite <- app_assoc.
Qed.

Lemma connected_unknown_failure d ctx a :
  tdls_auto_find_peer ctx a = None ->
  monitor_traffic d a true <> 0 \/ os_zalloc_ok d = false ->
  peers (tdls_auto_peer_connected d ctx a) = peers ctx /\
  timeouts (tdls_auto_peer_connected d ctx a) = timeouts ctx /\
  peer_count (tdls_auto_peer_connected d ctx a) = peer_count ctx /\
  conn_peer_count (tdls_auto_peer_connected d ctx a) =
    u32 (conn_peer_count ctx + 1).
Proof.
  intros Hf H. unfold tdls_auto_peer_connected.
  set (c0 := set_conn_peer_count _ ctx).
  assert (Hf0 : tdls_auto_find_peer c0 a = None) by exact Hf.
  rewrite Hf0, add_peer_failure by exact H. now repeat split.
Qed.

(** C9, counterexample.  The driver refuses the traffic-accounting entry
    for A.  [connected A] on the initial context then creates no peer, and
    after the following [disconnected A] [conn_peer_count] is 1, not the 0
    it was before the two events. *)
Lemma connected_without_accounting_creates_no_peer :
  let ctx := init_ctx cfg1 in
  let c1 := tdls_auto_peer_connected drv_no_cache ctx mac_A in
  let c2 := tdls_auto_peer_disconnected drv_no_cache c1 mac_A in
  tdls_auto_find_peer ctx mac_A = None /\
  peers c1 = [] /\
  conn_peer_count ctx = 0 /\
  conn_peer_count c2 = 1.
Proof. vm_compute. repeat split. Qed.

(** C9, amended.  Let [a] be an address the registry does not contain.
    When the peer can be created (the driver accepts the new accounting
    entry and the allocation succeeds), [connected a] puts a new entry for
    [a] at the head of the registry with [incoming_peer] and [connected]
    both true, and a following [disconnected a] removes it: the registry,
    [peer_count] and [conn_peer_count] are what they were before the two
    events; the [disconnected] invokes only the removal of the accounting
    entry and registers no timeout (it leaves the registrations as they
    are, or cancels both connect timeouts when no peer was tracked before),
    and no later firing of the fast-connect handler sends a discovery to
    [a].  When the peer cannot be created, [connected a] creates no entry
    and the registry and [peer_count] are the same after each of the two
    events.  In no context does [disconnected] of an incoming peer register
    the fast-connect timeout: the registrations are left as they are, or
    both connect timeouts are cancelled with the last peer. *)
Theorem incoming_peer_comes_and_goes
        (d d2 : driver) (ctx : tdls_auto_mode_ctx) (a : macaddr) :
  tdls_auto_find_peer ctx a = None ->
  in_u32 (peer_count ctx) ->
  in_u32 (conn_peer_count ctx) ->
  let c1 := tdls_auto_peer_connected d ctx a in
  let c2 := tdls_auto_peer_disconnected d2 c1 a in
  (monitor_traffic d a true = 0 -> os_zalloc_ok d = true ->
   (exists p, peers c1 = p :: peers ctx /\
              tdls_auto_find_peer c1 a = Some p /\
              addr p = a /\ incoming_peer p = true /\ connected p = true) /\
   peers c2 = peers ctx /\
   peer_count c2 = peer_count ctx /\
   conn_peer_count c2 = conn_peer_count ctx /\
   tdls_auto_find_peer c2 a = None /\
   emitted c1 c2 = [MonitorTraffic a false] /\
   timeouts c2 = (if peer_count ctx =? 0
                  then cancel_connect_timers (timeouts c1)
                  else timeouts c1) /\
   (forall d', ~ In (SendDiscovery a)
                    (emitted c2 (tdls_auto_fast_connect_timeout d' c2)))) /\
  (monitor_traffic d a true <> 0 \/ os_zalloc_ok d = false ->
   peers c1 = peers ctx /\ peer_count c1 = peer_count ctx /\
   peers c2 = peers ctx /\ peer_count c2 = peer_count ctx) /\
  (forall c p d',
     tdls_auto_find_peer c a = Some p -> incoming_peer p = true ->
     timeouts (tdls_auto_peer_disconnected d' c a) =
     if u32 (peer_count c - 1) =? 0
     then cancel_connect_timers (timeouts c) else timeouts c).
Proof.
  intros Hf Hpc Hcc. cbv zeta. split; [|split].
  - intros Hm Hz.
    destruct (connected_unknown d ctx a Hf Hm Hz) as (Hp1 & Hpc1 & Hcc1 & He1).
    assert (Hia : addr (incoming_entry d a) = a)
      by (unfold incoming_entry; now rewrite sample_addr).
    assert (Hii : incoming_peer (incoming_entry d a) = true)
      by (unfold incoming_entry; now rewrite sample_incoming).
    assert (Hic : connected (incoming_entry d a) = true)
      by (unfold incoming_entry; now rewrite sample_connected).
    destruct (disconnected_incoming_head d2
                (tdls_auto_peer_connected d ctx a) a (incoming_entry d a)
                (peers ctx) Hp1 Hia Hii)
      as (Hp2 & Hpc2 & Hcc2 & He2 & Hem & Ht).
    assert (Hf2 : tdls_auto_find_peer
                    (tdls_auto_peer_disconnected d2
                       (tdls_auto_peer_connected d ctx a) a) a = None).
    { unfold tdls_auto_find_peer. rewrite Hp2. exact Hf. }
    split.
    { exists (incoming_entry d a). split; [exact Hp1|].
      split; [|now repeat split].
      unfold tdls_auto_find_peer. rewrite Hp1. now apply find_in_head. }
    split; [exact Hp2|].
    split; [rewrite Hpc2, Hpc1; now apply u32_succ_pred|].
    split; [rewrite Hcc2, Hcc1; now apply u32_succ_pred|].
    split; [exact Hf2|]. split; [exact Hem|].
    split; [|intros d'; now apply fast_connect_untracked].
    assert (Hf1 : tdls_auto_find_peer (tdls_auto_peer_connected d ctx a) a =
                  Some (incoming_entry d a))
      by (unfold tdls_auto_find_peer; rewrite Hp1; now apply find_in_head).
    rewrite (disconnected_tracked d2 _ a _ Hf1), Hii.
    cbn [timeouts]. rewrite Hpc1, u32_succ_pred by exact Hpc.
    reflexivity.
  - intros Hfail.
    destruct (connected_unknown_failure d ctx a Hf Hfail)
      as (Hp1 & _ & Hpc1 & _).
    assert (Hf1 : tdls_auto_find_peer (tdls_auto_peer_connected d ctx a) a
                  = None)
      by (unfold tdls_auto_find_peer; rewrite Hp1; exact Hf).
    rewrite (disconnected_untracked d2 _ a Hf1). now repeat split.
  - intros c p d' Hfc Hi.
    now rewrite (disconnected_tracked d' c a p Hfc), Hi.
Qed.

Lemma incoming_peer_comes_and_goes_witness :
  tdls_auto_find_peer ctx_one_candidate mac_B = None /\
  in_u32 (peer_count ctx_one_candidate) /\
  in_u32 (conn_peer_count ctx_one_candidate) /\
  monitor_traffic (drv_at 2 0) mac_B true = 0 /\
  os_zalloc_ok (drv_at 2 0) = true /\
  peers (tdls_auto_peer_disconnected (drv_sync 3 0)
           (tdls_auto_peer_connected (drv_at 2 0) ctx_one_candidate mac_B)
           mac_B) = peers ctx_one_candidate.
Proof.
  assert (Hp : in_u32 (peer_count ctx_one_candidate))
    by (vm_compute; split; [discriminate|reflexivity]).
  assert (Hc : in_u32 (conn_peer_count ctx_one_candidate))
    by (vm_compute; split; [discriminate|reflexivity]).
  split; [reflexivity|]. split; [exact Hp|]. split; [exact Hc|].
  split; [reflexivity|]. split; [reflexivity|].
  exact (proj1 (proj2 (proj1 (incoming_peer_comes_and_goes
                         (drv_at 2 0) (drv_sync 3 0) ctx_one_candidate mac_B
                         eq_refl Hp Hc) eq_refl eq_refl))).
Defined.

(** * C10: from the fast to the slow connect cycle *)









Lemma slow_connect_body_discovery_iff d cfg p b :
  In (SendDiscovery b) (snd (slow_connect_body d cfg p)) <->
  b = addr p /\
  connected p = false /\
  fast_attempts p > TDLS_AUTO_MAX_FAST_CONN_ATTEMPTS /\
  data_rate (fst (tdls_auto_get_peer_data_rate d p)) >=
  tdls_auto_data_connect_threshold cfg.
Proof.
  unfold slow_connect_body.
  destruct (connected p).
  { split; [intros []|intros (_ & H & _); discriminate]. }
  destruct (Z.leb_spec (fast_attempts p) TDLS_AUTO_MAX_FAST_CONN_ATTEMPTS).
  { split; [intros []|intros (_ & _ & H' & _); lia]. }
  pose proof (sample_addr d p) as Hs.
  pose proof (sample_calls d p) as Hc.
  destruct (tdls_auto_get_peer_data_rate d p) as [p1 cs]. simpl in Hs, Hc.
  simpl fst.
  destruct (Z.ltb_spec (data_rate p1) (tdls_auto_data_connect_threshold cfg));
    simpl; split.
  - intros H'. apply Hc in H'. discriminate.
  - intros (_ & _ & _ & H'). lia.
  - intros H'. apply in_app_or in H'. destruct H' as [H'|[H'|[]]].
    + apply Hc in H'. discriminate.
    + inversion H'. repeat split; try lia. congruence.
  - intros (E & _). apply in_or_app. right. left. congruence.
Qed.

Lemma slow_connect_timeout_emitted d ctx :
  emitted ctx (tdls_auto_slow_connect_timeout d ctx) =
  flat_map (fun p => snd (slow_connect_body d (extn ctx) p)) (peers ctx).
Proof.
  apply emitted_app. unfold tdls_auto_slow_connect_timeout.
  rewrite for_each_peer_map. simpl. now destruct (_ =? _).
Qed.





(** * Further properties of the controller *)


(** ** Removing entries *)








(** ** Adding entries *)

Lemma add_peer_success d ctx a :
  monitor_traffic d a true = 0 ->
  os_zalloc_ok d = true ->
  tdls_auto_add_peer d ctx a =
  (mk_ctx (zalloc_peer a :: peers ctx)
          (u32 (peer_count ctx + 1))
          (conn_peer_count ctx)
          (extn ctx)
          (let l := set_pending fast_connect_timeout
                      (armed (tdls_auto_fast_connect_period (extn ctx)))
                      (timeouts ctx) in
           if u32 (peer_count ctx + 1) =? 1
           then set_pending slow_connect_timeout
                  (armed (tdls_auto_slow_connect_period (extn ctx))) l
           else l)
          (calls ctx ++ [MonitorTraffic a false; MonitorTraffic a true]),
   true).
Proof.
  intros Hm Ha. unfold tdls_auto_add_peer, tdls_auto_peer_add_to_list.
  rewrite Hm, Ha. simpl negb. cbv iota. ctx_fields.
  destruct (_ =? 1); simpl; now rewrite <- app_assoc.
Qed.

(** X1.  [tdls_auto_mode_start] returns 0 or -1.  It returns 0 exactly
    when the address is already tracked or the driver accepts the
    accounting entry and the allocation succeeds.  A start for a tracked
    address changes nothing.  A failed start leaves the registry, both
    counters and all timers as they were; it has tried the accounting
    entry (delete, then add) and, when the add had succeeded and only the
    allocation failed, has deleted the entry again. *)
Theorem start_result (d : driver) (ctx : tdls_auto_mode_ctx) (a : macaddr) :
  let r := tdls_auto_mode_start d ctx a in
  (snd r = 0 \/ snd r = -1) /\
  (snd r = 0 <->
   tdls_auto_find_peer ctx a <> None \/
   (monitor_traffic d a true = 0 /\ os_zalloc_ok d = true)) /\
  (tdls_auto_find_peer ctx a <> None -> fst r = ctx) /\
  (snd r = -1 ->
   peers (fst r) = peers ctx /\
   peer_count (fst r) = peer_count ctx /\
   conn_peer_count (fst r) = conn_peer_count ctx /\
   timeouts (fst r) = timeouts ctx /\
   emitted ctx (fst r) =
     MonitorTraffic a false :: MonitorTraffic a true ::
     (if monitor_traffic d a true =? 0 then [MonitorTraffic a false]
      else [])).
Proof.
  cbv zeta. unfold tdls_auto_mode_start.
  destruct (tdls_auto_find_peer ctx a) as [p|] eqn:Hf.
  - simpl. split; [now left|]. split; [|split; [reflexivity|discriminate]].
    split; [intros _; left; discriminate|reflexivity].
  - destruct (Z.eq_dec (monitor_traffic d a true) 0) as [Hm|Hm];
      [destruct (os_zalloc_ok d) eqn:Hz|].
    + rewrite add_peer_success by assumption. simpl.
      split; [now left|]. split; [|split; [congruence|discriminate]].
      split; [intros _; right; now split|reflexivity].
    + rewrite add_peer_failure by (now right). simpl.
      split; [now right|]. split; [|split; [congruence|]].
      * split; [discriminate|]. intros [H|[_ H]]; congruence.
      * intros _. repeat split. now apply emitted_app.
    + rewrite add_peer_failure by (now left). simpl.
      split; [now right|]. split; [|split; [congruence|]].
      * split; [discriminate|]. intros [H|[H _]]; congruence.
      * intros _. repeat split. now apply emitted_app.
Qed.

Lemma start_tracks d ctx a :
  snd (tdls_auto_mode_start d ctx a) = 0 ->
  tdls_auto_find_peer (fst (tdls_auto_mode_start d ctx a)) a <> None.
Proof.
  unfold tdls_auto_mode_start.
  destruct (tdls_auto_find_peer ctx a) as [p|] eqn:Hf.
  - simpl. intros _. now rewrite Hf.
  - destruct (Z.eq_dec (monitor_traffic d a true) 0) as [Hm|Hm];
      [destruct (os_zalloc_ok d) eqn:Hz|].
    + rewrite add_peer_success by assumption. simpl. intros _.
      unfold tdls_auto_find_peer. simpl. now rewrite addr_eqb_refl.
    + rewrite add_peer_failure by (now right). discriminate.
    + rewrite add_peer_failure by (now left). discriminate.
Qed.

(** X2.  Starting an address twice is starting it once: when a start has
    returned 0, a second start for the same address (whatever the driver
    answers by then) returns 0 and leaves the context exactly as the first
    start left it, without a capability call or a timer update. *)
Theorem start_twice (d1 d2 : driver) (ctx : tdls_auto_mode_ctx) (a : macaddr) :
  snd (tdls_auto_mode_start d1 ctx a) = 0 ->
  tdls_auto_mode_start d2 (fst (tdls_auto_mode_start d1 ctx a)) a =
  (fst (tdls_auto_mode_start d1 ctx a), 0).
Proof.
  intros H. apply start_tracks in H.
  unfold tdls_auto_mode_start at 1.
  now destruct (tdls_auto_find_peer (fst (tdls_auto_mode_start d1 ctx a)) a).
Qed.

Lemma start_twice_witness :
  snd (tdls_auto_mode_start (drv_at 1 0) (init_ctx cfg1) mac_A) = 0 /\
  tdls_auto_mode_start drv_no_cache
    (fst (tdls_auto_mode_start (drv_at 1 0) (init_ctx cfg1) mac_A)) mac_A =
  (fst (tdls_auto_mode_start (drv_at 1 0) (init_ctx cfg1) mac_A), 0).
Proof.
  split; [reflexivity|].
  exact (start_twice (drv_at 1 0) drv_no_cache (init_ctx cfg1) mac_A eq_refl).
Defined.

(** X3.  [start] followed by [stop] of an address that was not tracked,
    when the start succeeds and whatever the driver answers during the
    stop: the registry, [peer_count] and [conn_peer_count] are as before
    the two calls; the only capability calls are the three accounting
    calls (delete, add, delete); the two teardown timers are untouched.
    If no peer was tracked before, both connect timers end up cancelled;
    otherwise the fast-connect timer stays armed by the start and the
    slow-connect timer is as it was. *)
Theorem start_stop_round_trip
        (d d2 : driver) (ctx : tdls_auto_mode_ctx) (a : macaddr) :
  tdls_auto_find_peer ctx a = None ->
  monitor_traffic d a true = 0 ->
  os_zalloc_ok d = true ->
  in_u32 (peer_count ctx) ->
  let c2 := tdls_auto_mode_stop d2 (fst (tdls_auto_mode_start d ctx a)) a in
  peers c2 = peers ctx /\
  peer_count c2 = peer_count ctx /\
  conn_peer_count c2 = conn_peer_count ctx /\
  emitted ctx c2 = [MonitorTraffic a false; MonitorTraffic a true;
                    MonitorTraffic a false] /\
  data_pending (timeouts c2) = data_pending (timeouts ctx) /\
  rssi_pending (timeouts c2) = rssi_pending (timeouts ctx) /\
  (peer_count ctx = 0 ->
   fast_pending (timeouts c2) = None /\ slow_pending (timeouts c2) = None) /\
  (peer_count ctx <> 0 ->
   fast_pending (timeouts c2) =
     armed (tdls_auto_fast_connect_period (extn ctx)) /\
   slow_pending (timeouts c2) = slow_pending (timeouts ctx)).
Proof.
  intros Hf Hm Hz Hpc. cbv zeta. unfold tdls_auto_mode_start. rewrite Hf.
  rewrite add_peer_success by assumption. simpl fst.
  erewrite stop_tracked
    by (unfold tdls_auto_find_peer; simpl; now rewrite addr_eqb_refl).
  cbn [peers peer_count conn_peer_count extn timeouts calls connected
       zalloc_peer andb].
  rewrite u32_succ_pred by exact Hpc.
  rewrite peer_unlink_head by reflexivity.
  split; [reflexivity|]. split; [reflexivity|]. split; [reflexivity|].
  split; [apply emitted_app; cbn; now rewrite <- app_assoc|].
  assert (H1 : (u32 (peer_count ctx + 1) =? 1) = (peer_count ctx =? 0)).
  { unfold in_u32 in Hpc. destruct (Z.eq_dec (peer_count ctx) (2 ^ 32 - 1)) as [E|E].
    - rewrite E. reflexivity.
    - rewrite u32_small by lia.
      destruct (Z.eqb_spec (peer_count ctx + 1) 1);
        destruct (Z.eqb_spec (peer_count ctx) 0); try reflexivity; lia. }
  rewrite H1.
  destruct (Z.eqb_spec (peer_count ctx) 0) as [E|E]; cbn.
  - repeat split; try reflexivity; intros; contradiction.
  - repeat split; try reflexivity; intros; contradiction.
Qed.

Lemma start_stop_round_trip_witness :
  tdls_auto_find_peer ctx_one_candidate mac_B = None /\
  monitor_traffic (drv_at 2 0) mac_B true = 0 /\
  os_zalloc_ok (drv_at 2 0) = true /\
  in_u32 (peer_count ctx_one_candidate) /\
  peers (tdls_auto_mode_stop (drv_sync 3 0)
           (fst (tdls_auto_mode_start (drv_at 2 0) ctx_one_candidate mac_B))
           mac_B) = peers ctx_one_candidate.
Proof.
  assert (Hp : in_u32 (peer_count ctx_one_candidate))
    by (vm_compute; split; [discriminate|reflexivity]).
  split; [reflexivity|]. split; [reflexivity|]. split; [reflexivity|].
  split; [exact Hp|].
  exact (proj1 (start_stop_round_trip (drv_at 2 0) (drv_sync 3 0)
                  ctx_one_candidate mac_B eq_refl eq_refl eq_refl Hp)).
Defined.

(** X4.  [stop] of a tracked address removes exactly that peer: afterwards
    the address is unknown, every other address resolves to the same
    record as before and [peer_count] is one less.  It asks the driver to
    disconnect the peer exactly when the peer was connected, always before
    it deletes the accounting entry, and makes no other call.  When the
    disconnect capability reports the teardown through
    tdls_auto_peer_disconnected before it returns, that call decrements
    [conn_peer_count] and registers the fast-connect timeout; otherwise
    [conn_peer_count] and the registrations are untouched.  In both cases
    the two connect timeouts are cancelled when [peer_count] reaches 0, the
    registration made by the callback included; the two teardown timeouts
    are never touched. *)
Theorem stop_removes_the_peer
        (d : driver) (ctx : tdls_auto_mode_ctx) (a : macaddr)
        (p : tdls_auto_peer) :
  NoDup (map addr (peers ctx)) ->
  tdls_auto_find_peer ctx a = Some p ->
  let c := tdls_auto_mode_stop d ctx a in
  let called_back := connected p && disconnect_calls_back d a in
  tdls_auto_find_peer c a = None /\
  (forall b, b <> a -> tdls_auto_find_peer c b = tdls_auto_find_peer ctx b) /\
  registry_size c = registry_size ctx - 1 /\
  peer_count c = u32 (peer_count ctx - 1) /\
  conn_peer_count c =
    (if called_back then u32 (conn_peer_count ctx - 1)
     else conn_peer_count ctx) /\
  emitted ctx c =
    (if connected p then [Disconnect a] else []) ++ [MonitorTraffic a false] /\
  timeouts c =
    (if peer_count c =? 0 then cancel_connect_timers (timeouts ctx)
     else if called_back
          then set_pending fast_connect_timeout
                 (armed (tdls_auto_fast_connect_period (extn ctx)))
                 (timeouts ctx)
          else timeouts ctx).
Proof.
  intros ND Hf. cbv zeta. rewrite (stop_tracked d ctx a p Hf). cbv zeta.
  unfold tdls_auto_find_peer, registry_size. cbn [peers peer_count
    conn_peer_count timeouts].
  split; [now apply find_in_unlink_same|].
  split; [intros b Hb; apply find_in_unlink_other; congruence|].
  split.
  { rewrite (peer_unlink_length _ _ _ Hf). lia. }
  split; [reflexivity|]. split; [reflexivity|].
  split; [now apply emitted_app|reflexivity].
Qed.

Lemma stop_removes_the_peer_witness :
  NoDup (map addr (peers ctx_one_connected)) /\
  tdls_auto_find_peer ctx_one_connected mac_A = Some peer_sample0 /\
  emitted ctx_one_connected
          (tdls_auto_mode_stop (drv_sync 1 0) ctx_one_connected mac_A) =
  [Disconnect mac_A; MonitorTraffic mac_A false] /\
  conn_peer_count
    (tdls_auto_mode_stop (drv_sync 1 0) ctx_one_connected mac_A) = 0.
Proof.
  assert (ND : NoDup (map addr (peers ctx_one_connected))).
  { simpl. constructor; [intros []|constructor]. }
  split; [exact ND|]. split; [reflexivity|].
  pose proof (stop_removes_the_peer (drv_sync 1 0) ctx_one_connected mac_A
                peer_sample0 ND eq_refl) as H.
  cbv zeta in H. split; [exact (proj1 (proj2 (proj2 (proj2 (proj2 (proj2 H))))))|].
  exact (proj1 (proj2 (proj2 (proj2 (proj2 H))))).
Defined.

(** ** Removing all entries *)

Lemma remove_loop_step d k ctx p tl :
  peers ctx = p :: tl ->
  tdls_auto_mode_stop d
    (if negb k then update_peer (addr p) (set_connected false) ctx else ctx)
    (addr p) =
  mk_ctx tl (u32 (peer_count ctx - 1))
         (if called_back d k p then u32 (conn_peer_count ctx - 1)
          else conn_peer_count ctx)
         (extn ctx)
         (if u32 (peer_count ctx - 1) =? 0
          then cancel_connect_timers (timeouts ctx)
          else if called_back d k p
               then set_pending fast_connect_timeout
                      (armed (tdls_auto_fast_connect_period (extn ctx)))
                      (timeouts ctx)
               else timeouts ctx)
         (calls ctx ++ removal_calls k p).
Proof.
  intros Hp. unfold removal_calls, called_back.
  destruct k; simpl negb; cbv iota.
  - erewrite stop_tracked
      by (unfold tdls_auto_find_peer; rewrite Hp; now apply find_in_head).
    cbv zeta. rewrite Hp, peer_unlink_head by reflexivity. reflexivity.
  - erewrite stop_tracked
      by (unfold tdls_auto_find_peer, update_peer; cbn [peers set_peers];
          rewrite Hp, peer_store_head by reflexivity;
          now apply find_in_head).
    ctx_fields. rewrite Hp, peer_store_head by reflexivity.
    rewrite peer_unlink_head by reflexivity. reflexivity.
Qed.

Lemma remove_loop_all d k : forall visit ctx,
  peers ctx = visit ->
  in_u32 (peer_count ctx) ->
  in_u32 (conn_peer_count ctx) ->
  let c := remove_peers_loop d k visit ctx in
  peers c = [] /\
  peer_count c = u32 (peer_count ctx - Z.of_nat (length visit)) /\
  conn_peer_count c =
    u32 (conn_peer_count ctx -
         Z.of_nat (length (filter (called_back d k) visit))) /\
  extn c = extn ctx /\
  calls c = calls ctx ++ flat_map (removal_calls k) visit /\
  data_pending (timeouts c) = data_pending (timeouts ctx) /\
  rssi_pending (timeouts c) = rssi_pending (timeouts ctx) /\
  (visit <> [] -> peer_count c = 0 ->
   fast_pending (timeouts c) = None /\ slow_pending (timeouts c) = None) /\
  (visit = [] -> timeouts c = timeouts ctx).
Proof.
  induction visit as [|p tl IH]; intros ctx Hp Hpc Hcc; cbv zeta.
  - simpl. rewrite Hp, app_nil_r, !Z.sub_0_r, !u32_small by assumption.
    repeat split; try reflexivity. all: intros; congruence.
  - simpl remove_peers_loop. rewrite (remove_loop_step d k ctx p tl Hp).
    match goal with |- context [remove_peers_loop d k tl ?c] =>
      assert (Hcc' : in_u32 (conn_peer_count c))
        by (cbn [conn_peer_count]; destruct (called_back d k p);
            [apply u32_range|exact Hcc]);
      destruct (IH c eq_refl (u32_range _) Hcc')
        as (H1 & H2 & H3 & H4 & H5 & H6 & H7 & H8 & H9) end.
    cbn [peer_count conn_peer_count extn calls timeouts] in *.
    split; [exact H1|]. split.
    { rewrite H2. unfold u32. rewrite Zminus_mod_idemp_l. f_equal.
      simpl length. lia. }
    split.
    { rewrite H3. simpl filter. destruct (called_back d k p).
      - unfold u32. rewrite Zminus_mod_idemp_l. f_equal.
        simpl length. lia.
      - reflexivity. }
    split; [exact H4|]. split.
    { rewrite H5. simpl flat_map. now rewrite app_assoc. }
    split. { rewrite H6. destruct (_ =? _); [reflexivity|].
             now destruct (called_back d k p). }
    split. { rewrite H7. destruct (_ =? _); [reflexivity|].
             now destruct (called_back d k p). }
    split; [|discriminate].
    intros _ H0.
    assert (Htl : tl = [] \/ tl <> [])
      by (destruct tl; [left; reflexivity|right; discriminate]).
    destruct Htl as [Ht|Ht].
    + subst tl. simpl in H0 |- *. rewrite H0. now split.
    + now apply H8.
Qed.

Lemma no_callback_without_kill d ps : filter (called_back d false) ps = [].
Proof. induction ps as [|q tl IH]; [reflexivity|exact IH]. Qed.

(** X5.  [tdls_auto_remove_peers] empties the registry of a well-formed
    context: afterwards no peer is tracked and [peer_count] is 0.  For
    every entry, in registry order, the accounting entry is deleted,
    preceded by a disconnect request exactly when [kill_active_links] is
    set and the peer is connected; with [kill_active_links] clear no
    disconnect is requested and [conn_peer_count] is left as it was.
    [conn_peer_count] is decremented once for every disconnect request
    that the capability reports through tdls_auto_peer_disconnected before
    it returns.  If a peer was tracked both connect timers end up
    cancelled; the two teardown timers are never touched. *)
Theorem remove_peers_empties_registry
        (cfg : wpas_tdls_auto_ctx) (d : driver) (ctx : tdls_auto_mode_ctx)
        (k : bool) :
  wf cfg ctx ->
  let c := tdls_auto_remove_peers d ctx k in
  peers c = [] /\
  peer_count c = 0 /\
  conn_peer_count c =
    u32 (conn_peer_count ctx -
         Z.of_nat (length (filter (called_back d k) (peers ctx)))) /\
  emitted ctx c = flat_map (removal_calls k) (peers ctx) /\
  (k = false ->
   conn_peer_count c = conn_peer_count ctx /\
   forall b, ~ In (Disconnect b) (emitted ctx c)) /\
  (peers ctx <> [] ->
   fast_pending (timeouts c) = None /\ slow_pending (timeouts c) = None) /\
  data_pending (timeouts c) = data_pending (timeouts ctx) /\
  rssi_pending (timeouts c) = rssi_pending (timeouts ctx).
Proof.
  intros (_ & Hpc & Hcc & _). cbv zeta. unfold tdls_auto_remove_peers.
  assert (Hr : in_u32 (peer_count ctx)) by (rewrite Hpc; apply u32_range).
  destruct (remove_loop_all d k (peers ctx) ctx eq_refl Hr Hcc)
    as (H1 & H2 & H3 & H4 & H5 & H6 & H7 & H8 & H9).
  assert (H0 : peer_count (remove_peers_loop d k (peers ctx) ctx) = 0).
  { rewrite H2, Hpc. unfold registry_size, u32.
    rewrite Zminus_mod_idemp_l, Z.sub_diag. reflexivity. }
  split; [exact H1|]. split; [exact H0|]. split; [exact H3|].
  rewrite (emitted_app _ _ _ H5).
  split; [reflexivity|]. split.
  { intros ->. split.
    - rewrite H3.
      rewrite no_callback_without_kill. simpl.
      rewrite Z.sub_0_r. now apply u32_small.
    - intros b Hin. apply in_flat_map in Hin.
      destruct Hin as (q & _ & Hin).
      unfold removal_calls in Hin. simpl in Hin.
      destruct Hin as [E|[]]. discriminate. }
  split; [intros Hne; now apply H8|]. now split.
Qed.

Lemma remove_peers_empties_registry_witness :
  wf cfg1 ctx_one_connected /\
  emitted ctx_one_connected
          (tdls_auto_remove_peers (drv_sync 1 0) ctx_one_connected true) =
  flat_map (removal_calls true) (peers ctx_one_connected) /\
  conn_peer_count
    (tdls_auto_remove_peers (drv_sync 1 0) ctx_one_connected true) = 0.
Proof.
  assert (W : wf cfg1 ctx_one_connected).
  { split; [reflexivity|]. split; [reflexivity|]. split.
    - vm_compute. split; [discriminate|reflexivity].
    - simpl. constructor; [intros []|constructor]. }
  split; [exact W|].
  pose proof (remove_peers_empties_registry cfg1 (drv_sync 1 0)
                ctx_one_connected true W) as H.
  cbv zeta in H.
  split; [exact (proj1 (proj2 (proj2 (proj2 H))))|].
  exact (proj1 (proj2 (proj2 H))).
Defined.

(** ** The teardown handlers *)

Lemma peer_store_const a f q ps :
  find_in ps a = Some q ->
  peer_store a f ps = peer_store a (fun _ => f q) ps.
Proof.
  induction ps as [|x tl IH]; simpl; [reflexivity|].
  destruct (addr_eqb (addr x) a).
  - intros H. now inversion H.
  - intros H. now rewrite IH.
Qed.

Lemma kept_kept a q q' cs cs' ctx :
  addr q = a ->
  entry_kept a q' cs' (entry_kept a q cs ctx) = entry_kept a q' (cs ++ cs') ctx.
Proof.
  intros Ha. unfold entry_kept. cbn [peers peer_count conn_peer_count extn
    timeouts calls].
  rewrite peer_store_store by (intros; congruence).
  now rewrite app_assoc.
Qed.

Lemma forgotten_kept a q q' cs cs' ctx :
  addr q = a ->
  link_forgotten a q' cs' (entry_kept a q cs ctx) =
  link_forgotten a q' (cs ++ cs') ctx.
Proof.
  intros Ha. unfold link_forgotten, entry_kept.
  cbn [peers peer_count conn_peer_count extn timeouts calls].
  rewrite peer_store_store by (intros; congruence).
  now rewrite app_assoc.
Qed.

Lemma released_kept a q cs cs' ctx :
  addr q = a ->
  entry_released a cs' (entry_kept a q cs ctx) =
  entry_released a (cs ++ cs') ctx.
Proof.
  intros Ha. unfold entry_released, entry_kept.
  cbn [peers peer_count conn_peer_count extn timeouts calls].
  rewrite peer_unlink_store by (intros; congruence).
  now rewrite app_assoc.
Qed.

Lemma log_kept a q cs cs' ctx :
  log cs' (entry_kept a q cs ctx) = entry_kept a q (cs ++ cs') ctx.
Proof. unfold log, entry_kept. simpl. now rewrite app_assoc. Qed.

Lemma find_kept a q cs ctx p :
  tdls_auto_find_peer ctx a = Some p -> addr q = a ->
  tdls_auto_find_peer (entry_kept a q cs ctx) a = Some q.
Proof.
  intros Hf Ha. unfold tdls_auto_find_peer, entry_kept. cbn [peers].
  rewrite find_in_store by (intros; congruence).
  unfold tdls_auto_find_peer in Hf. now rewrite Hf.
Qed.

Lemma find_forgotten a q cs ctx p :
  tdls_auto_find_peer ctx a = Some p -> addr q = a ->
  tdls_auto_find_peer (link_forgotten a q cs ctx) a = Some q.
Proof.
  intros Hf Ha. unfold tdls_auto_find_peer, link_forgotten. cbn [peers].
  rewrite find_in_store by (intros; congruence).
  unfold tdls_auto_find_peer in Hf. now rewrite Hf.
Qed.

Lemma find_released a cs ctx :
  NoDup (map addr (peers ctx)) ->
  tdls_auto_find_peer (entry_released a cs ctx) a = None.
Proof.
  intros ND. unfold tdls_auto_find_peer, entry_released. cbn [peers].
  now apply find_in_unlink_same.
Qed.

(* the disconnect capability called for the tracked entry [q] *)
Lemma extn_disconnect_tracked d ctx a q :
  tdls_auto_find_peer ctx a = Some q ->
  extn_disconnect d ctx a =
  if disconnect_calls_back d a
  then if incoming_peer q
       then entry_released a [Disconnect a; MonitorTraffic a false] ctx
       else link_forgotten a (after_disconnected q) [Disconnect a] ctx
  else log [Disconnect a] ctx.
Proof.
  intros Hf. destruct (incoming_peer q) eqn:Hi.
  - now rewrite (extn_disconnect_incoming d ctx a q Hf Hi).
  - rewrite (extn_disconnect_outgoing d ctx a q Hf Hi).
    destruct (disconnect_calls_back d a); [|reflexivity].
    unfold link_forgotten, after_disconnected.
    now rewrite (peer_store_const a _ q) by exact Hf.
Qed.

Lemma data_visit_skipped d ctx p :
  connected p = false -> data_teardown_visit d ctx p = ctx.
Proof. intros Hc. unfold data_teardown_visit. now rewrite Hc. Qed.

Lemma rssi_visit_skipped d ctx p :
  connected p = false -> rssi_teardown_visit d ctx p = ctx.
Proof. intros Hc. unfold rssi_teardown_visit. now rewrite Hc. Qed.

(* the visit of the data-teardown handler to a connected entry *)
Lemma data_visit_tracked d ctx p :
  tdls_auto_find_peer ctx (addr p) = Some p ->
  connected p = true ->
  data_teardown_visit d ctx p =
  visit_result (addr p) (data_teardown_outcome d (extn ctx) p) ctx.
Proof.
  intros Hf Hc. unfold data_teardown_outcome. cbv zeta.
  unfold data_teardown_visit. rewrite Hc.
  simpl negb. cbv iota.
  pose proof (sample_addr d p) as Ha.
  pose proof (sample_incoming d p) as Hi.
  destruct (tdls_auto_get_peer_data_rate d p) as [p1 cs].
  cbn [fst snd] in *.
  change (log cs (update_peer (addr p) (fun _ => p1) ctx))
    with (entry_kept (addr p) p1 cs ctx).
  change (extn (entry_kept (addr p) p1 cs ctx)) with (extn ctx).
  destruct (_ >=? _); [reflexivity|].
  rewrite (extn_disconnect_tracked d _ (addr p) p1)
    by (eapply find_kept; [exact Hf|exact Ha]).
  rewrite Hi.
  destruct (disconnect_calls_back d (addr p)); [destruct (incoming_peer p)|];
    cbn [visit_result].
  - now apply released_kept.
  - now apply forgotten_kept.
  - apply log_kept.
Qed.

(* the visit of the rssi-teardown handler to a connected entry *)
Lemma rssi_visit_tracked d ctx p :
  NoDup (map addr (peers ctx)) ->
  tdls_auto_find_peer ctx (addr p) = Some p ->
  connected p = true ->
  rssi_teardown_visit d ctx p =
  visit_result (addr p) (rssi_teardown_outcome d (extn ctx) p) ctx.
Proof.
  intros ND Hf Hc. unfold rssi_teardown_outcome. cbv zeta.
  unfold rssi_teardown_visit. rewrite Hc.
  simpl negb. cbv iota. unfold tdls_auto_get_connected_sta_rssi.
  set (a := addr p). set (p1 := set_rssi (get_rssi d a) p).
  change (log [GetRssi a] (update_peer a (fun _ => p1) ctx))
    with (entry_kept a p1 [GetRssi a] ctx).
  change (extn (entry_kept a p1 [GetRssi a] ctx)) with (extn ctx).
  change (rssi p1) with (get_rssi d a).
  change (low_rssi_vals p1) with (low_rssi_vals p).
  assert (Hk : forall f,
             update_peer a f (entry_kept a p1 [GetRssi a] ctx) =
             entry_kept a (f p1) [GetRssi a] ctx).
  { intros f. unfold update_peer, entry_kept, set_peers.
    cbn [peers peer_count conn_peer_count extn timeouts calls].
    now rewrite peer_store_store by (intros q Hq; now rewrite Hq). }
  destruct (_ >=? _); [apply Hk|].
  rewrite Hk.
  change (extn (entry_kept a (set_low_rssi_vals (u32 (low_rssi_vals p + 1)) p1)
                  [GetRssi a] ctx)) with (extn ctx).
  destruct (_ <=? _); [reflexivity|].
  set (p2 := set_low_rssi_vals (u32 (low_rssi_vals p + 1)) p1).
  rewrite (extn_disconnect_tracked d _ a p2)
    by (eapply find_kept; [exact Hf|reflexivity]).
  change (incoming_peer p2) with (incoming_peer p).
  unfold store_after_disconnect.
  destruct (disconnect_calls_back d a); [destruct (incoming_peer p)|];
    cbn [visit_result].
  - rewrite released_kept by reflexivity.
    rewrite find_released by exact ND.
    unfold log, entry_released. cbn [peers peer_count conn_peer_count extn
      timeouts calls]. now rewrite <- app_assoc.
  - rewrite forgotten_kept by reflexivity.
    rewrite (find_forgotten a _ _ ctx p) by (exact Hf || reflexivity).
    unfold update_peer, link_forgotten, set_peers.
    cbn [peers peer_count conn_peer_count extn timeouts calls].
    now rewrite peer_store_store by (intros q Hq; now rewrite Hq).
  - rewrite log_kept.
    rewrite (find_kept a _ _ ctx p) by (exact Hf || reflexivity).
    unfold update_peer, entry_kept, set_peers.
    cbn [peers peer_count conn_peer_count extn timeouts calls].
    now rewrite peer_store_store by (intros q Hq; now rewrite Hq).
Qed.

(* a visit touches no entry but its own *)
Lemma find_disconnected_other d ctx a b :
  b <> a ->
  tdls_auto_find_peer (tdls_auto_peer_disconnected d ctx a) b =
  tdls_auto_find_peer ctx b.
Proof.
  intros Hb. destruct (tdls_auto_find_peer ctx a) as [p|] eqn:Hf.
  - rewrite (disconnected_tracked d ctx a p Hf).
    unfold tdls_auto_find_peer. destruct (incoming_peer p); cbn [peers].
    + apply find_in_unlink_other. congruence.
    + apply find_in_store_other; [reflexivity|congruence].
  - now rewrite disconnected_untracked.
Qed.

Lemma find_extn_disconnect_other d ctx a b :
  b <> a ->
  tdls_auto_find_peer (extn_disconnect d ctx a) b = tdls_auto_find_peer ctx b.
Proof.
  intros Hb. unfold extn_disconnect, disconnect_with.
  destruct (disconnect_calls_back d a); [|reflexivity].
  now rewrite find_disconnected_other.
Qed.

Lemma data_visit_frame d ctx p b :
  b <> addr p ->
  tdls_auto_find_peer (data_teardown_visit d ctx p) b =
  tdls_auto_find_peer ctx b.
Proof.
  intros Hb. unfold data_teardown_visit.
  destruct (negb _); [reflexivity|].
  pose proof (sample_addr d p) as Ha.
  destruct (tdls_auto_get_peer_data_rate d p) as [p1 cs]. simpl in Ha.
  assert (H1 : tdls_auto_find_peer
                 (log cs (update_peer (addr p) (fun _ => p1) ctx)) b =
               tdls_auto_find_peer ctx b).
  { change (tdls_auto_find_peer
              (log cs (update_peer (addr p) (fun _ => p1) ctx)) b)
      with (tdls_auto_find_peer (update_peer (addr p) (fun _ => p1) ctx) b).
    apply find_update_peer_other; [intros; congruence|congruence]. }
  destruct (_ >=? _); [exact H1|].
  now rewrite find_extn_disconnect_other.
Qed.

Lemma rssi_visit_frame d ctx p b :
  b <> addr p ->
  tdls_auto_find_peer (rssi_teardown_visit d ctx p) b =
  tdls_auto_find_peer ctx b.
Proof.
  intros Hb. unfold rssi_teardown_visit.
  destruct (negb _); [reflexivity|].
  unfold tdls_auto_get_connected_sta_rssi.
  assert (Hu : forall f c,
             (forall q, addr q = addr p -> addr (f q) = addr q) ->
             tdls_auto_find_peer (update_peer (addr p) f c) b =
             tdls_auto_find_peer c b)
    by (intros f c Hf; apply find_update_peer_other; [exact Hf|congruence]).
  assert (H1 : tdls_auto_find_peer
                 (log [GetRssi (addr p)]
                    (update_peer (addr p)
                       (fun _ => set_rssi (get_rssi d (addr p)) p) ctx)) b =
               tdls_auto_find_peer ctx b).
  { change (tdls_auto_find_peer (log ?cs ?c) b)
      with (tdls_auto_find_peer c b).
    apply Hu. intros q Hq. simpl. congruence. }
  destruct (_ >=? _); [now rewrite Hu|].
  destruct (_ <=? _); [now rewrite Hu|].
  unfold store_after_disconnect.
  destruct (tdls_auto_find_peer (extn_disconnect d _ (addr p)) (addr p)).
  - rewrite Hu by reflexivity.
    rewrite find_extn_disconnect_other by exact Hb. now rewrite Hu.
  - change (tdls_auto_find_peer (log ?cs ?c) b)
      with (tdls_auto_find_peer c b).
    rewrite find_extn_disconnect_other by exact Hb. now rewrite Hu.
Qed.

(* A loop over a registry with unique addresses whose visits touch no entry
   but their own: every visit finds its entry as it was when the loop
   started.  [Q tl c c']: running the visits of [tl] from [c] ends in
   [c']. *)
Lemma fold_visits
      (visit : tdls_auto_mode_ctx -> tdls_auto_peer -> tdls_auto_mode_ctx)
      (Q : list tdls_auto_peer -> tdls_auto_mode_ctx ->
           tdls_auto_mode_ctx -> Prop) :
  (forall c p b, b <> addr p ->
     tdls_auto_find_peer (visit c p) b = tdls_auto_find_peer c b) ->
  (forall c, Q [] c c) ->
  (forall p tl c c',
     tdls_auto_find_peer c (addr p) = Some p ->
     Q tl (visit c p) c' -> Q (p :: tl) c c') ->
  forall ps ctx,
    NoDup (map addr ps) ->
    (forall q, In q ps -> tdls_auto_find_peer ctx (addr q) = Some q) ->
    Q ps ctx (fold_left visit ps ctx).
Proof.
  intros Hframe Hnil Hcons.
  induction ps as [|p tl IH]; intros ctx ND Hin; simpl; [apply Hnil|].
  inversion ND as [|x l Hp ND']; subst.
  apply Hcons; [apply Hin; now left|].
  apply IH; [exact ND'|]. intros q Hq.
  rewrite Hframe; [apply Hin; now right|].
  intros E. apply Hp. rewrite <- E. now apply in_map.
Qed.

(* the entries of a well-formed registry are found under their address *)
Lemma wf_present cfg ctx q :
  wf cfg ctx -> In q (peers ctx) ->
  tdls_auto_find_peer ctx (addr q) = Some q.
Proof.
  intros (_ & _ & _ & ND) Hin. now apply find_in_nodup.
Qed.

Lemma fast_connect_body_flag d cfg p :
  snd (fast_connect_body d cfg p) =
  negb (connected p) &&
  (fast_attempts p <=? TDLS_AUTO_MAX_FAST_CONN_ATTEMPTS).
Proof.
  unfold fast_connect_body. destruct (connected p); [reflexivity|].
  destruct (Z.gtb_spec (fast_attempts p) TDLS_AUTO_MAX_FAST_CONN_ATTEMPTS);
    destruct (Z.leb_spec (fast_attempts p) TDLS_AUTO_MAX_FAST_CONN_ATTEMPTS);
    try lia; [reflexivity|].
  destruct (tdls_auto_get_peer_data_rate d _) as [p2 cs].
  now destruct (_ <? _).
Qed.

Lemma existsb_pointwise (f g : tdls_auto_peer -> bool) ps :
  (forall p, f p = g p) -> existsb f ps = existsb g ps.
Proof.
  intros H. induction ps as [|p tl IH]; simpl; [reflexivity|].
  now rewrite H, IH.
Qed.

Lemma set_pending_twice h v w l :
  set_pending h v (set_pending h w l) = set_pending h v l.
Proof. now destruct h. Qed.

(* the two connect handlers: when they register themselves again *)
Lemma connect_handler_timeouts h d ctx :
  h = fast_connect_timeout \/ h = slow_connect_timeout ->
  timeouts (run_handler h d ctx) =
  if work_remains h ctx
  then set_pending h (armed (period_of h (extn ctx))) (timeouts ctx)
  else timeouts ctx.
Proof.
  intros [-> | ->]; simpl.
  - unfold tdls_auto_fast_connect_timeout. rewrite fast_connect_loop_map.
    rewrite (existsb_pointwise _ _ _ (fast_connect_body_flag d (extn ctx))).
    now destruct (existsb _ _).
  - unfold tdls_auto_slow_connect_timeout. rewrite for_each_peer_map. simpl.
    now destruct (_ =? _).
Qed.

Lemma sample_role d p : role (fst (tdls_auto_get_peer_data_rate d p)) = role p.
Proof.
  unfold role. now rewrite sample_addr, sample_connected, sample_incoming.
Qed.

Lemma fast_connect_body_role d cfg p :
  role (fst (fst (fast_connect_body d cfg p))) = role p.
Proof.
  unfold fast_connect_body.
  destruct (connected p) eqn:Hc; [reflexivity|].
  destruct (_ >? _); [reflexivity|].
  pose proof (sample_role d (set_fast_attempts (fast_attempts p + 1) p)) as H.
  destruct (tdls_auto_get_peer_data_rate d _) as [p2 cs]. simpl in H.
  destruct (_ <? _); simpl; rewrite H; unfold role; simpl; now rewrite Hc.
Qed.

Lemma slow_connect_body_role d cfg p :
  role (fst (slow_connect_body d cfg p)) = role p.
Proof.
  unfold slow_connect_body.
  destruct (connected p); [reflexivity|].
  destruct (_ <=? _); [reflexivity|].
  pose proof (sample_role d p) as H.
  destruct (tdls_auto_get_peer_data_rate d p) as [p1 cs]. simpl in H.
  now destruct (_ <? _).
Qed.

Lemma map_role_body (f : tdls_auto_peer -> tdls_auto_peer) ps :
  (forall p, role (f p) = role p) -> map role (map f ps) = map role ps.
Proof. intros H. rewrite map_map. apply map_ext. exact H. Qed.

Lemma peer_store_roles a f ps :
  (forall p, role (f p) = role p) ->
  map role (peer_store a f ps) = map role ps.
Proof.
  intros Hf. induction ps as [|q tl IH]; simpl; [reflexivity|].
  destruct (addr_eqb (addr q) a); simpl; [now rewrite Hf|now rewrite IH].
Qed.

(* the two connect handlers: what they leave alone *)
Lemma connect_handler_frame h d ctx :
  h = fast_connect_timeout \/ h = slow_connect_timeout ->
  roles (run_handler h d ctx) = roles ctx /\
  peer_count (run_handler h d ctx) = peer_count ctx /\
  conn_peer_count (run_handler h d ctx) = conn_peer_count ctx /\
  extn (run_handler h d ctx) = extn ctx.
Proof.
  unfold roles. intros [-> | ->]; simpl.
  - unfold tdls_auto_fast_connect_timeout. rewrite fast_connect_loop_map.
    destruct (negb _); simpl;
      (rewrite map_role_body by (intros p; apply fast_connect_body_role));
      now repeat split.
  - unfold tdls_auto_slow_connect_timeout. rewrite for_each_peer_map. simpl.
    destruct (_ =? _); simpl;
      (rewrite map_role_body by (intros p; apply slow_connect_body_role));
      now repeat split.
Qed.

Lemma peer_store_const_roles a x p ps :
  find_in ps a = Some p -> role x = role p ->
  map role (peer_store a (fun _ => x) ps) = map role ps.
Proof.
  intros Hf Hr. induction ps as [|q tl IH]; simpl in *; [reflexivity|].
  destruct (addr_eqb (addr q) a); simpl.
  - inversion Hf; subst. now rewrite Hr.
  - now rewrite IH.
Qed.

Lemma discovery_response_frame d ctx a r :
  roles (tdls_auto_discovery_response d ctx a r) = roles ctx /\
  peer_count (tdls_auto_discovery_response d ctx a r) = peer_count ctx /\
  conn_peer_count (tdls_auto_discovery_response d ctx a r) =
    conn_peer_count ctx /\
  extn (tdls_auto_discovery_response d ctx a r) = extn ctx /\
  timeouts (tdls_auto_discovery_response d ctx a r) = timeouts ctx.
Proof.
  unfold roles, tdls_auto_discovery_response.
  destruct (tdls_auto_find_peer ctx a) as [p|] eqn:Hf; [|now repeat split].
  assert (Ha : addr p = a) by (eapply find_in_addr; exact Hf).
  assert (R1 : map role (peer_store (addr p) (set_rssi r) (peers ctx)) =
               map role (peers ctx))
    by (apply peer_store_roles; reflexivity).
  destruct (connected p); [ctx_fields; now repeat split|].
  destruct (_ <=? _); [ctx_fields; now repeat split|].
  pose proof (sample_role d (set_rssi r p)) as Hs.
  destruct (tdls_auto_get_peer_data_rate d (set_rssi r p)) as [p1 cs].
  simpl in Hs.
  assert (R2 : map role (peer_store (addr p) (fun _ => p1)
                  (peer_store (addr p) (set_rssi r) (peers ctx))) =
               map role (peers ctx)).
  { rewrite (peer_store_const_roles (addr p) p1 (set_rssi r p)).
    - exact R1.
    - rewrite Ha, find_in_store by reflexivity.
      unfold tdls_auto_find_peer in Hf. now rewrite Hf.
    - exact Hs. }
  destruct (_ <? _); [ctx_fields; now repeat split|].
  destruct (_ >=? _); ctx_fields; now repeat split.
Qed.

(** ** The loop of a teardown handler, entry by entry *)

Lemma visit_result_calls a o c :
  calls (visit_result a o c) = calls c ++ outcome_calls o.
Proof. destruct o; simpl; [now rewrite app_nil_r|reflexivity..]. Qed.

Lemma visit_result_conn a o c :
  conn_peer_count (visit_result a o c) =
  if outcome_uncounts o then u32 (conn_peer_count c - 1)
  else conn_peer_count c.
Proof. now destruct o. Qed.

Lemma visit_result_teardown_timers a o c :
  data_pending (timeouts (visit_result a o c)) = data_pending (timeouts c) /\
  rssi_pending (timeouts (visit_result a o c)) = rssi_pending (timeouts c).
Proof.
  destruct o; simpl; try (now split).
  now destruct (_ =? _).
Qed.

Lemma visit_result_find a o c p :
  NoDup (map addr (peers c)) ->
  tdls_auto_find_peer c a = Some p ->
  (forall q, outcome_entry p o = Some q -> addr q = a) ->
  tdls_auto_find_peer (visit_result a o c) a = outcome_entry p o.
Proof.
  intros ND Hf Ha. destruct o as [|q cs|q cs|cs]; simpl.
  - exact Hf.
  - apply (find_kept a q cs c p Hf). now apply Ha.
  - apply (find_forgotten a q cs c p Hf). now apply Ha.
  - now apply find_released.
Qed.

Section TeardownLoop.
Variable cfg : wpas_tdls_auto_ctx.
Variable visit : tdls_auto_mode_ctx -> tdls_auto_peer -> tdls_auto_mode_ctx.
Variable out : tdls_auto_peer -> outcome.
Hypothesis visit_out : forall c p,
  wf cfg c -> tdls_auto_find_peer c (addr p) = Some p ->
  visit c p = visit_result (addr p) (out p) c.
Hypothesis visit_frame : forall c p b,
  b <> addr p -> tdls_auto_find_peer (visit c p) b = tdls_auto_find_peer c b.
Hypothesis visit_wf : forall c p, wf cfg c -> wf cfg (visit c p).
Hypothesis out_addr : forall p q,
  outcome_entry p (out p) = Some q -> addr q = addr p.

(* the loop over entries that are found as they are listed *)
Lemma loop_summary : forall tl c,
  NoDup (map addr tl) ->
  (forall q, In q tl -> tdls_auto_find_peer c (addr q) = Some q) ->
  wf cfg c ->
  let c' := fold_left visit tl c in
  calls c' = calls c ++ flat_map (fun p => outcome_calls (out p)) tl /\
  conn_peer_count c' =
    u32 (conn_peer_count c -
         Z.of_nat (length (filter (fun p => outcome_uncounts (out p)) tl))) /\
  data_pending (timeouts c') = data_pending (timeouts c) /\
  rssi_pending (timeouts c') = rssi_pending (timeouts c) /\
  (forall b, ~ In b (map addr tl) ->
     tdls_auto_find_peer c' b = tdls_auto_find_peer c b) /\
  (forall q, In q tl ->
     tdls_auto_find_peer c' (addr q) = outcome_entry q (out q)).
Proof.
  induction tl as [|p tl IH]; intros c ND Hin W; cbv zeta.
  - simpl. rewrite app_nil_r, Z.sub_0_r, u32_small by apply W.
    repeat split; try reflexivity. intros q [].
  - inversion ND as [|x l Hp ND']; subst.
    assert (Hfp : tdls_auto_find_peer c (addr p) = Some p)
      by (apply Hin; now left).
    assert (Hin' : forall q, In q tl ->
              tdls_auto_find_peer (visit c p) (addr q) = Some q).
    { intros q Hq. rewrite visit_frame; [apply Hin; now right|].
      intros E. apply Hp. rewrite <- E. now apply in_map. }
    destruct (IH (visit c p) ND' Hin' (visit_wf c p W))
      as (H1 & H2 & H3 & H4 & H5 & H6).
    pose proof (visit_out c p W Hfp) as E1.
    destruct (visit_result_teardown_timers (addr p) (out p) c) as (T1 & T2).
    simpl fold_left. rewrite H1, H2, H3, H4.
    split.
    { rewrite E1, visit_result_calls. simpl flat_map.
      now rewrite app_assoc. }
    split.
    { rewrite E1, visit_result_conn. simpl filter.
      destruct (outcome_uncounts (out p)).
      - rewrite u32_pred_idem_gen. f_equal. simpl length. lia.
      - reflexivity. }
    split; [now rewrite E1|]. split; [now rewrite E1|]. split.
    + intros b Hb. rewrite H5 by (intros Hb'; apply Hb; now right).
      apply visit_frame. intros E. apply Hb. left. now symmetry.
    + intros q [->|Hq].
      * rewrite H5 by exact Hp. rewrite E1.
        apply visit_result_find; [apply W|exact Hfp|apply out_addr].
      * now apply H6.
Qed.
End TeardownLoop.


Lemma rssi_outcome_addr d cfg p q :
  outcome_entry p (rssi_teardown_outcome d cfg p) = Some q -> addr q = addr p.
Proof.
  unfold rssi_teardown_outcome.
  destruct (negb _); simpl; [congruence|].
  destruct (_ >=? _); simpl; [intros E; now inversion E|].
  destruct (_ <=? _); simpl; [intros E; now inversion E|].
  destruct (disconnect_calls_back d (addr p)); [destruct (incoming_peer p)|];
    simpl; try discriminate; intros E; now inversion E.
Qed.


Lemma rssi_visit_outcome cfg d c p :
  wf cfg c -> tdls_auto_find_peer c (addr p) = Some p ->
  rssi_teardown_visit d c p =
  visit_result (addr p) (rssi_teardown_outcome d cfg p) c.
Proof.
  intros (He & _ & _ & ND) Hf. destruct (connected p) eqn:Hc.
  - rewrite (rssi_visit_tracked d c p ND Hf Hc). now rewrite He.
  - rewrite rssi_visit_skipped by exact Hc.
    unfold rssi_teardown_outcome. now rewrite Hc.
Qed.

(* calls that name their entry are found in the part of their entry *)
Lemma in_flat_map_own (mk : macaddr -> call)
      (f : tdls_auto_peer -> list call) ps p :
  NoDup (map addr ps) -> In p ps ->
  (forall q b, In (mk b) (f q) -> b = addr q) ->
  (In (mk (addr p)) (flat_map f ps) <-> In (mk (addr p)) (f p)).
Proof.
  intros ND Hp Hown. split.
  - intros H. apply in_flat_map in H. destruct H as (q & Hq & H).
    pose proof (Hown q _ H) as E.
    pose proof (find_in_nodup ps p ND Hp) as F1.
    pose proof (find_in_nodup ps q ND Hq) as F2.
    rewrite E in F1. rewrite F1 in F2. inversion F2. now subst.
  - intros H. apply in_flat_map. now exists p.
Qed.




Lemma rssi_outcome_disconnect d cfg q b :
  In (Disconnect b) (outcome_calls (rssi_teardown_outcome d cfg q)) <->
  b = addr q /\ connected q = true /\
  get_rssi d (addr q) < tdls_auto_rssi_teardown_threshold cfg /\
  u32 (low_rssi_vals q + 1) > tdls_auto_rssi_teardown_count cfg.
Proof.
  unfold rssi_teardown_outcome.
  destruct (connected q); simpl negb; cbv iota zeta.
  2:{ simpl. split; [intros []|intros (_ & H & _); discriminate]. }
  destruct (Z.geb_spec (get_rssi d (addr q))
                       (tdls_auto_rssi_teardown_threshold cfg)) as [Hge|Hlt].
  { simpl. split; [intros [H|[]]; discriminate|intros (_ & _ & H & _); lia]. }
  destruct (Z.leb_spec (u32 (low_rssi_vals q + 1))
                       (tdls_auto_rssi_teardown_count cfg)) as [Hle|Hgt].
  { simpl. split; [intros [H|[]]; discriminate|intros (_ & _ & _ & H); lia]. }
  destruct (disconnect_calls_back d (addr q)); [destruct (incoming_peer q)|];
    simpl; (split;
            [intros H; repeat (destruct H as [H|H]; try discriminate);
             try (inversion H; repeat split; (reflexivity || lia));
             destruct H
            |intros (-> & _); right; now left]).
Qed.

Lemma rssi_outcome_store d cfg q b :
  In (StoreToFreedPeer b) (outcome_calls (rssi_teardown_outcome d cfg q)) <->
  b = addr q /\ connected q = true /\
  get_rssi d (addr q) < tdls_auto_rssi_teardown_threshold cfg /\
  u32 (low_rssi_vals q + 1) > tdls_auto_rssi_teardown_count cfg /\
  disconnect_calls_back d (addr q) = true /\ incoming_peer q = true.
Proof.
  unfold rssi_teardown_outcome.
  destruct (connected q); simpl negb; cbv iota zeta.
  2:{ simpl. split; [intros []|intros (_ & H & _); discriminate]. }
  destruct (Z.geb_spec (get_rssi d (addr q))
                       (tdls_auto_rssi_teardown_threshold cfg)) as [Hge|Hlt].
  { simpl. split; [intros [H|[]]; discriminate|intros (_ & _ & H & _); lia]. }
  destruct (Z.leb_spec (u32 (low_rssi_vals q + 1))
                       (tdls_auto_rssi_teardown_count cfg)) as [Hle|Hgt].
  { simpl. split; [intros [H|[]]; discriminate
                  |intros (_ & _ & _ & H & _); lia]. }
  destruct (disconnect_calls_back d (addr q)); [destruct (incoming_peer q)|];
    simpl.
  - split.
    + intros H. repeat (destruct H as [H|H]; try discriminate);
        [|destruct H]. inversion H. repeat split; (reflexivity || lia).
    + intros (-> & _). right. right. right. now left.
  - split; [intros H; repeat (destruct H as [H|H]; try discriminate);
            destruct H
           |intros (_ & _ & _ & _ & _ & H); discriminate].
  - split; [intros H; repeat (destruct H as [H|H]; try discriminate);
            destruct H
           |intros (_ & _ & _ & _ & H & _); discriminate].
Qed.

Lemma rssi_outcome_counter d cfg p q :
  connected p = true ->
  outcome_entry p (rssi_teardown_outcome d cfg p) = Some q ->
  rssi q = get_rssi d (addr p) /\
  low_rssi_vals q =
    (if get_rssi d (addr p) >=? tdls_auto_rssi_teardown_threshold cfg then 0
     else if u32 (low_rssi_vals p + 1) <=? tdls_auto_rssi_teardown_count cfg
          then u32 (low_rssi_vals p + 1) else 0).
Proof.
  intros Hc. unfold rssi_teardown_outcome. rewrite Hc.
  simpl negb. cbv iota zeta.
  destruct (_ >=? _); simpl; [intros E; inversion E; now split|].
  destruct (_ <=? _); simpl; [intros E; inversion E; now split|].
  destruct (disconnect_calls_back d (addr p)); [destruct (incoming_peer p)|];
    simpl; try discriminate; intros E; inversion E; now split.
Qed.

(** X29.  One firing of the rssi-teardown handler on a well-formed context,
    entry by entry.  An entry that is not connected is skipped.  For a
    connected entry the rssi is read; a reading at or above
    [rssi_teardown_threshold] resets [low_rssi_vals] to 0; a reading below
    increments it, and disconnect is requested exactly when the
    incremented value is strictly greater than [rssi_teardown_count].  An
    entry that is still tracked after the visit has [low_rssi_vals] 0 after
    a good reading or a disconnect request and the incremented value
    otherwise.  When the capability reports the teardown through
    tdls_auto_peer_disconnected, an outgoing peer stays tracked and not
    connected, an incoming peer is released, and [conn_peer_count] is
    decremented; the store to [low_rssi_vals] that follows the capability
    call goes to a released entry exactly in the second case.  No other
    entry is touched and no address is added.  The handler registers itself
    again exactly when [conn_peer_count], as the pass leaves it, is not 0,
    and never touches the data-teardown registration. *)
Theorem rssi_teardown_tick
        (cfg : wpas_tdls_auto_ctx) (d : driver) (ctx : tdls_auto_mode_ctx) :
  wf cfg ctx ->
  let out := rssi_teardown_outcome d cfg in
  let thr := tdls_auto_rssi_teardown_threshold cfg in
  let cnt := tdls_auto_rssi_teardown_count cfg in
  let ctx' := tdls_auto_rssi_teardown_timeout d ctx in
  emitted ctx ctx' = flat_map (fun p => outcome_calls (out p)) (peers ctx) /\
  (forall p, In p (peers ctx) ->
     tdls_auto_find_peer ctx' (addr p) = outcome_entry p (out p)) /\
  (forall b, tdls_auto_find_peer ctx b = None ->
     tdls_auto_find_peer ctx' b = None) /\
  (forall p, In p (peers ctx) ->
     let bad := connected p = true /\ get_rssi d (addr p) < thr /\
                u32 (low_rssi_vals p + 1) > cnt in
     (In (Disconnect (addr p)) (emitted ctx ctx') <-> bad) /\
     (In (StoreToFreedPeer (addr p)) (emitted ctx ctx') <->
      bad /\ disconnect_calls_back d (addr p) = true /\
      incoming_peer p = true)) /\
  (forall p q, In p (peers ctx) -> connected p = true ->
     tdls_auto_find_peer ctx' (addr p) = Some q ->
     rssi q = get_rssi d (addr p) /\
     low_rssi_vals q =
       (if get_rssi d (addr p) >=? thr then 0
        else if u32 (low_rssi_vals p + 1) <=? cnt
             then u32 (low_rssi_vals p + 1) else 0)) /\
  conn_peer_count ctx' =
    u32 (conn_peer_count ctx -
         Z.of_nat (length (filter (fun p => outcome_uncounts (out p))
                                  (peers ctx)))) /\
  rssi_pending (timeouts ctx') =
    (if conn_peer_count ctx' =? 0 then rssi_pending (timeouts ctx)
     else armed (tdls_auto_rssi_teardown_period cfg)) /\
  data_pending (timeouts ctx') = data_pending (timeouts ctx).
Proof.
  intros W. cbv zeta.
  pose proof W as (_ & _ & _ & ND).
  destruct (loop_summary cfg (rssi_teardown_visit d)
              (rssi_teardown_outcome d cfg)
              (fun c p => rssi_visit_outcome cfg d c p)
              (rssi_visit_frame d)
              (fun c p => wf_rssi_teardown_visit cfg d c p)
              (rssi_outcome_addr d cfg)
              (peers ctx) ctx ND
              (fun q Hq => wf_present cfg ctx q W Hq) W)
    as (H1 & H2 & H3 & H4 & H5 & H6).
  assert (We : extn (fold_left (rssi_teardown_visit d) (peers ctx) ctx) = cfg).
  { apply (wf_fold_visits cfg); [apply wf_rssi_teardown_visit|exact W]. }
  assert (Hem : emitted ctx (tdls_auto_rssi_teardown_timeout d ctx) =
                flat_map (fun p => outcome_calls (rssi_teardown_outcome d cfg p))
                         (peers ctx)).
  { apply emitted_app. unfold tdls_auto_rssi_teardown_timeout.
    destruct (_ =? _); exact H1. }
  assert (Hfind : forall p, In p (peers ctx) ->
            tdls_auto_find_peer (tdls_auto_rssi_teardown_timeout d ctx)
                                (addr p) =
            outcome_entry p (rssi_teardown_outcome d cfg p)).
  { intros p Hp. unfold tdls_auto_rssi_teardown_timeout.
    destruct (_ =? _); now apply H6. }
  split; [exact Hem|]. split; [exact Hfind|].
  split.
  { intros b Hb. unfold tdls_auto_rssi_teardown_timeout.
    assert (Hnb : ~ In b (map addr (peers ctx))) by now apply find_in_none.
    destruct (_ =? _); (etransitivity; [apply (H5 b Hnb)|exact Hb]). }
  split.
  { intros p Hp. rewrite Hem. split.
    - rewrite (in_flat_map_own Disconnect _ _ p ND Hp).
      + rewrite rssi_outcome_disconnect. tauto.
      + intros q b Hin. now apply rssi_outcome_disconnect in Hin.
    - rewrite (in_flat_map_own StoreToFreedPeer _ _ p ND Hp).
      + rewrite rssi_outcome_store. tauto.
      + intros q b Hin. now apply rssi_outcome_store in Hin. }
  split.
  { intros p q Hp Hc Hq. rewrite (Hfind p Hp) in Hq.
    now apply (rssi_outcome_counter d cfg p q). }
  unfold tdls_auto_rssi_teardown_timeout.
  destruct (conn_peer_count (fold_left _ _ _) =? 0) eqn:E0.
  - rewrite E0. split; [exact H2|]. now split.
  - unfold tdls_auto_set_timer, set_timeouts.
    cbn [conn_peer_count timeouts set_pending data_pending rssi_pending].
    rewrite E0, We. split; [exact H2|]. now split.
Qed.

Lemma rssi_teardown_tick_witness :
  wf cfg1 ctx_one_connected /\
  emitted ctx_one_connected
          (tdls_auto_rssi_teardown_timeout (drv_sync 1 0) ctx_one_connected) =
  [GetRssi mac_A] /\
  option_map low_rssi_vals
    (tdls_auto_find_peer
       (tdls_auto_rssi_teardown_timeout (drv_sync 1 0) ctx_one_connected)
       mac_A) = Some 1.
Proof.
  assert (W : wf cfg1 ctx_one_connected).
  { split; [reflexivity|]. split; [reflexivity|]. split.
    - vm_compute. split; [discriminate|reflexivity].
    - simpl. constructor; [intros []|constructor]. }
  split; [exact W|].
  pose proof (rssi_teardown_tick cfg1 (drv_sync 1 0) ctx_one_connected W)
    as H.
  cbv zeta in H. split; [exact (proj1 H)|].
  exact (f_equal (option_map low_rssi_vals)
                 (proj1 (proj2 H) peer_sample0 (or_introl eq_refl))).
Defined.

(** ** Which registrations an expiry touches *)

Lemma extn_disconnect_teardown_frame d c a :
  extn (extn_disconnect d c a) = extn c /\
  data_pending (timeouts (extn_disconnect d c a)) = data_pending (timeouts c) /\
  rssi_pending (timeouts (extn_disconnect d c a)) = rssi_pending (timeouts c).
Proof.
  unfold extn_disconnect, disconnect_with.
  destruct (disconnect_calls_back d a); [|now repeat split].
  destruct (tdls_auto_find_peer (log [Disconnect a] c) a) as [p|] eqn:Hf.
  - rewrite (disconnected_tracked d _ a p Hf).
    destruct (incoming_peer p); simpl; [destruct (_ =? _)|];
      now repeat split.
  - rewrite (disconnected_untracked d _ a Hf). now repeat split.
Qed.

Lemma data_visit_teardown_frame d c p :
  extn (data_teardown_visit d c p) = extn c /\
  data_pending (timeouts (data_teardown_visit d c p)) =
    data_pending (timeouts c) /\
  rssi_pending (timeouts (data_teardown_visit d c p)) =
    rssi_pending (timeouts c).
Proof.
  unfold data_teardown_visit. destruct (negb (connected p)); [now repeat split|].
  destruct (tdls_auto_get_peer_data_rate d p) as [p1 cs].
  destruct (_ >=? _); [now repeat split|].
  exact (extn_disconnect_teardown_frame d
           (log cs (update_peer (addr p) (fun _ => p1) c)) (addr p)).
Qed.

Lemma rssi_visit_teardown_frame d c p :
  extn (rssi_teardown_visit d c p) = extn c /\
  data_pending (timeouts (rssi_teardown_visit d c p)) =
    data_pending (timeouts c) /\
  rssi_pending (timeouts (rssi_teardown_visit d c p)) =
    rssi_pending (timeouts c).
Proof.
  unfold rssi_teardown_visit. destruct (negb (connected p)); [now repeat split|].
  unfold tdls_auto_get_connected_sta_rssi. cbv beta iota zeta.
  destruct (_ >=? _); [now repeat split|].
  destruct (_ <=? _); [now repeat split|].
  unfold store_after_disconnect.
  match goal with
  | |- context [extn_disconnect d ?c0 ?a0] =>
      pose proof (extn_disconnect_teardown_frame d c0 a0) as H
  end.
  destruct (tdls_auto_find_peer _ _); exact H.
Qed.

Lemma fold_teardown_frame
      (visit : tdls_auto_mode_ctx -> tdls_auto_peer -> tdls_auto_mode_ctx)
      ps c :
  (forall c p, extn (visit c p) = extn c /\
               data_pending (timeouts (visit c p)) = data_pending (timeouts c) /\
               rssi_pending (timeouts (visit c p)) =
                 rssi_pending (timeouts c)) ->
  extn (fold_left visit ps c) = extn c /\
  data_pending (timeouts (fold_left visit ps c)) = data_pending (timeouts c) /\
  rssi_pending (timeouts (fold_left visit ps c)) = rssi_pending (timeouts c).
Proof.
  intros Hv. revert c.
  induction ps as [|p tl IH]; intros c; simpl; [now repeat split|].
  destruct (IH (visit c p)) as (A & B & C).
  destruct (Hv c p) as (A' & B' & C').
  repeat split; congruence.
Qed.

(* without the callback a teardown visit changes entries and the log only *)
Lemma extn_disconnect_quiet d c a :
  disconnect_calls_back d a = false ->
  extn_disconnect d c a = log [Disconnect a] c.
Proof.
  intros H. unfold extn_disconnect, disconnect_with. now rewrite H.
Qed.

Lemma data_visit_quiet d c p :
  (forall a, disconnect_calls_back d a = false) ->
  let c' := data_teardown_visit d c p in
  peer_count c' = peer_count c /\ conn_peer_count c' = conn_peer_count c /\
  extn c' = extn c /\ timeouts c' = timeouts c /\
  (option_map role (tdls_auto_find_peer c (addr p)) = Some (role p) ->
   roles c' = roles c).
Proof.
  intros Hq. cbv zeta. unfold data_teardown_visit.
  destruct (negb (connected p)); [now repeat split|].
  pose proof (sample_role d p) as Hr.
  destruct (tdls_auto_get_peer_data_rate d p) as [p1 cs]. simpl in Hr.
  assert (R : option_map role (tdls_auto_find_peer c (addr p)) =
              Some (role p) ->
              map role (peer_store (addr p) (fun _ => p1) (peers c)) =
              map role (peers c)).
  { unfold tdls_auto_find_peer.
    destruct (find_in (peers c) (addr p)) as [p0|] eqn:Hf; [|discriminate].
    simpl. intros E. assert (E' : role p0 = role p) by congruence.
    apply (peer_store_const_roles (addr p) p1 p0); [exact Hf|congruence]. }
  destruct (_ >=? _).
  { exact (conj eq_refl (conj eq_refl (conj eq_refl (conj eq_refl R)))). }
  rewrite extn_disconnect_quiet by apply Hq.
  exact (conj eq_refl (conj eq_refl (conj eq_refl (conj eq_refl R)))).
Qed.

Lemma rssi_visit_quiet d c p :
  (forall a, disconnect_calls_back d a = false) ->
  let c' := rssi_teardown_visit d c p in
  peer_count c' = peer_count c /\ conn_peer_count c' = conn_peer_count c /\
  extn c' = extn c /\ timeouts c' = timeouts c /\
  (option_map role (tdls_auto_find_peer c (addr p)) = Some (role p) ->
   roles c' = roles c).
Proof.
  intros Hq. cbv zeta. unfold rssi_teardown_visit.
  destruct (negb (connected p)); [now repeat split|].
  unfold tdls_auto_get_connected_sta_rssi. cbv beta iota zeta.
  assert (R : option_map role (tdls_auto_find_peer c (addr p)) =
              Some (role p) ->
              forall f, (forall q, role (f q) = role q) ->
              map role (peer_store (addr p) f
                          (peer_store (addr p)
                             (fun _ => set_rssi (get_rssi d (addr p)) p)
                             (peers c))) =
              map role (peers c)).
  { unfold tdls_auto_find_peer.
    destruct (find_in (peers c) (addr p)) as [p0|] eqn:Hf; [|discriminate].
    simpl. intros E f Hrole. assert (E' : role p0 = role p) by congruence.
    rewrite (peer_store_roles (addr p) f) by exact Hrole.
    apply (peer_store_const_roles (addr p) _ p0); [exact Hf|].
    now rewrite E'. }
  destruct (_ >=? _).
  { refine (conj eq_refl (conj eq_refl (conj eq_refl (conj eq_refl _)))).
    intros E. now apply R. }
  destruct (_ <=? _).
  { refine (conj eq_refl (conj eq_refl (conj eq_refl (conj eq_refl _)))).
    intros E. now apply R. }
  rewrite extn_disconnect_quiet by apply Hq.
  unfold store_after_disconnect.
  match goal with
  | |- context [match tdls_auto_find_peer ?c0 ?a0 with _ => _ end] =>
      destruct (tdls_auto_find_peer c0 a0)
  end.
  - refine (conj eq_refl (conj eq_refl (conj eq_refl (conj eq_refl _)))).
    intros E. unfold roles. simpl.
    rewrite (peer_store_roles (addr p) (set_low_rssi_vals 0))
      by reflexivity.
    now apply R.
  - refine (conj eq_refl (conj eq_refl (conj eq_refl (conj eq_refl _)))).
    intros E. now apply R.
Qed.

Lemma find_role_of_roles ps ps' a :
  map role ps' = map role ps ->
  option_map role (find_in ps' a) = option_map role (find_in ps a).
Proof.
  revert ps'. induction ps as [|q tl IH]; intros [|q' tl']; simpl;
    try discriminate; [reflexivity|].
  intros E. inversion E as [[Ea Ec Ei Et]].
  rewrite Ea. destruct (addr_eqb (addr q) a); simpl.
  - unfold role. now rewrite Ea, Ec, Ei.
  - now apply IH.
Qed.

Lemma fold_quiet
      (visit : tdls_auto_mode_ctx -> tdls_auto_peer -> tdls_auto_mode_ctx) :
  (forall c p,
     let c' := visit c p in
     peer_count c' = peer_count c /\ conn_peer_count c' = conn_peer_count c /\
     extn c' = extn c /\ timeouts c' = timeouts c /\
     (option_map role (tdls_auto_find_peer c (addr p)) = Some (role p) ->
      roles c' = roles c)) ->
  forall ps c,
    let c' := fold_left visit ps c in
    peer_count c' = peer_count c /\ conn_peer_count c' = conn_peer_count c /\
    extn c' = extn c /\ timeouts c' = timeouts c /\
    ((forall q, In q ps ->
        option_map role (tdls_auto_find_peer c (addr q)) = Some (role q)) ->
     roles c' = roles c).
Proof.
  intros Hv. induction ps as [|p tl IH]; intros c; cbv zeta; simpl.
  { now repeat split. }
  destruct (Hv c p) as (A & B & C & D & E).
  destruct (IH (visit c p)) as (A' & B' & C' & D' & E').
  repeat split; try congruence.
  intros Hin.
  assert (R : roles (visit c p) = roles c) by (apply E, Hin; now left).
  rewrite E'; [exact R|].
  intros q Hq. unfold tdls_auto_find_peer.
  rewrite (find_role_of_roles (peers c) (peers (visit c p)) (addr q) R).
  apply Hin. now right.
Qed.

(** X7.  Each of the four timeouts is one-shot: its registration is
    dropped when it expires, and an expiry with no registration pending
    does nothing.  After the handler has run, its own registration is
    pending again with the handler's configured period exactly when:
    (fast-connect) some peer tracked at the expiry is not connected and has
    [fast_attempts] at most 20; (slow-connect) [peer_count] is not 0;
    (data-teardown, rssi-teardown) [conn_peer_count], as the handler's pass
    over the peers leaves it, is not 0; it is absent otherwise.  A connect
    handler touches no other registration.  The data-teardown handler never
    touches the rssi-teardown registration and the rssi-teardown handler
    never touches the data-teardown registration; both can change the
    registrations of the connect handlers when the disconnect capability
    reports a teardown through tdls_auto_peer_disconnected, and touch no
    other registration when it never does. *)
Theorem timer_rearms_while_work_remains
        (h : handler) (d : driver) (ctx : tdls_auto_mode_ctx) :
  (pending h (timeouts ctx) = None -> eloop_fire h d ctx = ctx) /\
  (pending h (timeouts ctx) <> None ->
   let ctx' := eloop_fire h d ctx in
   let seen := match h with
               | fast_connect_timeout | slow_connect_timeout => ctx
               | data_teardown_timeout | rssi_teardown_timeout => ctx'
               end in
   let reg := if work_remains h seen
              then armed (period_of h (extn ctx)) else None in
   pending h (timeouts ctx') = reg /\
   match h with
   | fast_connect_timeout | slow_connect_timeout =>
       timeouts ctx' = set_pending h reg (timeouts ctx)
   | data_teardown_timeout =>
       rssi_pending (timeouts ctx') = rssi_pending (timeouts ctx) /\
       ((forall a, disconnect_calls_back d a = false) ->
        timeouts ctx' = set_pending h reg (timeouts ctx))
   | rssi_teardown_timeout =>
       data_pending (timeouts ctx') = data_pending (timeouts ctx) /\
       ((forall a, disconnect_calls_back d a = false) ->
        timeouts ctx' = set_pending h reg (timeouts ctx))
   end).
Proof.
  unfold eloop_fire. split; [intros H; now rewrite H|].
  intros H. destruct (pending h (timeouts ctx)) as [t|]; [clear H|contradiction].
  cbv zeta.
  assert (Hconnect : h = fast_connect_timeout \/ h = slow_connect_timeout ->
            timeouts (run_handler h d (tdls_auto_cancel_timer ctx h)) =
            set_pending h (if work_remains h ctx
                           then armed (period_of h (extn ctx)) else None)
                        (timeouts ctx)).
  { intros Hh. rewrite (connect_handler_timeouts h d _ Hh).
    assert (W : work_remains h (tdls_auto_cancel_timer ctx h) =
                work_remains h ctx) by now destruct h.
    rewrite W. destruct (work_remains h ctx); simpl;
      [now rewrite set_pending_twice|reflexivity]. }
  destruct h.
  - rewrite (Hconnect (or_introl eq_refl)). split; [|reflexivity].
    now destruct (work_remains _ _).
  - rewrite (Hconnect (or_intror eq_refl)). split; [|reflexivity].
    now destruct (work_remains _ _).
  - clear Hconnect. simpl run_handler.
    set (c0 := tdls_auto_cancel_timer ctx data_teardown_timeout).
    destruct (fold_teardown_frame (data_teardown_visit d) (peers c0) c0
                (data_visit_teardown_frame d)) as (A & B & C).
    unfold tdls_auto_data_teardown_timeout, work_remains, period_of.
    destruct (conn_peer_count (fold_left _ _ _) =? 0) eqn:E0.
    + rewrite E0. simpl negb. cbv iota.
      split; [exact B|]. split; [exact C|].
      intros Hq.
      destruct (fold_quiet (data_teardown_visit d)
                  (fun c p => data_visit_quiet d c p Hq) (peers c0) c0)
        as (_ & _ & _ & T & _).
      exact T.
    + unfold tdls_auto_set_timer, set_timeouts.
      cbn [conn_peer_count timeouts set_pending pending data_pending
           rssi_pending].
      rewrite E0, A. simpl negb. cbv iota.
      split; [reflexivity|]. split; [exact C|].
      intros Hq.
      destruct (fold_quiet (data_teardown_visit d)
                  (fun c p => data_visit_quiet d c p Hq) (peers c0) c0)
        as (_ & _ & _ & T & _).
      rewrite T. reflexivity.
  - clear Hconnect. simpl run_handler.
    set (c0 := tdls_auto_cancel_timer ctx rssi_teardown_timeout).
    destruct (fold_teardown_frame (rssi_teardown_visit d) (peers c0) c0
                (rssi_visit_teardown_frame d)) as (A & B & C).
    unfold tdls_auto_rssi_teardown_timeout, work_remains, period_of.
    destruct (conn_peer_count (fold_left _ _ _) =? 0) eqn:E0.
    + rewrite E0. simpl negb. cbv iota.
      split; [exact C|]. split; [exact B|].
      intros Hq.
      destruct (fold_quiet (rssi_teardown_visit d)
                  (fun c p => rssi_visit_quiet d c p Hq) (peers c0) c0)
        as (_ & _ & _ & T & _).
      exact T.
    + unfold tdls_auto_set_timer, set_timeouts.
      cbn [conn_peer_count timeouts set_pending pending data_pending
           rssi_pending].
      rewrite E0, A. simpl negb. cbv iota.
      split; [reflexivity|]. split; [exact B|].
      intros Hq.
      destruct (fold_quiet (rssi_teardown_visit d)
                  (fun c p => rssi_visit_quiet d c p Hq) (peers c0) c0)
        as (_ & _ & _ & T & _).
      rewrite T. reflexivity.
Qed.

Lemma timer_rearms_while_work_remains_witness :
  pending data_teardown_timeout (timeouts ctx_one_connected) <> None /\
  pending data_teardown_timeout
    (timeouts (eloop_fire data_teardown_timeout (drv_sync 11 0)
                          ctx_one_connected)) = None /\
  pending data_teardown_timeout
    (timeouts (eloop_fire data_teardown_timeout (drv_at 11 0)
                          ctx_one_connected)) = armed 2000.
Proof.
  assert (Hp : pending data_teardown_timeout (timeouts ctx_one_connected)
               <> None) by discriminate.
  split; [exact Hp|]. split.
  - exact (proj1 (proj2 (timer_rearms_while_work_remains
                           data_teardown_timeout (drv_sync 11 0)
                           ctx_one_connected) Hp)).
  - exact (proj1 (proj2 (timer_rearms_while_work_remains
                           data_teardown_timeout (drv_at 11 0)
                           ctx_one_connected) Hp)).
Defined.

(** ** What timers and discovery responses leave alone *)







(** ** The depth of the re-entry *)

(** X30.  The disconnect capability may call tdls_auto_peer_disconnected
    before it returns, and that function calls tdls_auto_mode_stop, which
    calls the capability; the chain nevertheless ends after one round.
    tdls_auto_peer_disconnected clears [connected] before it stops an
    incoming peer, so the stop it starts never reaches the capability:
    whatever the capability is allowed to do when it is called from inside
    tdls_auto_peer_disconnected, and however deep it is allowed to re-enter,
    the result of tdls_auto_peer_disconnected, of the capability and of
    tdls_auto_mode_stop is the same. *)
Theorem reentry_ends_after_one_round
        (n : nat) (inner : reentry) (d : driver)
        (ctx : tdls_auto_mode_ctx) (a : macaddr) :
  peer_disconnected_with (mode_stop_with (disconnect_with inner d)) ctx a =
    tdls_auto_peer_disconnected d ctx a /\
  peer_disconnected_at n d ctx a = tdls_auto_peer_disconnected d ctx a /\
  disconnect_with (peer_disconnected_at n d) d ctx a = extn_disconnect d ctx a /\
  mode_stop_with (disconnect_with (peer_disconnected_at n d) d) ctx a =
    tdls_auto_mode_stop d ctx a.
Proof.
  assert (H1 : forall inner' c b,
            peer_disconnected_with
              (mode_stop_with (disconnect_with inner' d)) c b =
            tdls_auto_peer_disconnected d c b).
  { intros inner' c b.
    destruct (tdls_auto_find_peer c b) as [p|] eqn:Hf.
    - now rewrite (disconnected_with_tracked _ c b p Hf),
                  (disconnected_tracked d c b p Hf).
    - now rewrite disconnected_with_untracked, disconnected_untracked. }
  assert (H2 : forall c b,
            peer_disconnected_at n d c b = tdls_auto_peer_disconnected d c b).
  { intros c b. rewrite disconnected_at_unfold. apply H1. }
  assert (H3 : forall c b,
            disconnect_with (peer_disconnected_at n d) d c b =
            extn_disconnect d c b).
  { intros c b. unfold extn_disconnect, disconnect_with.
    destruct (disconnect_calls_back d b); [apply H2|reflexivity]. }
  split; [apply H1|]. split; [apply H2|]. split; [apply H3|].
  unfold tdls_auto_mode_stop, mode_stop_with.
  destruct (tdls_auto_find_peer ctx a) as [p|]; [|reflexivity].
  destruct (connected p); [|reflexivity].
  now rewrite H3.
Qed.

(** ** Invariants of the tracked peers *)

Lemma Forall_peer_store_at (P : tdls_auto_peer -> Prop) a f p ps :
  find_in ps a = Some p -> P (f p) ->
  Forall P ps -> Forall P (peer_store a f ps).
Proof.
  intros Hf Hp HF. induction ps as [|q tl IH]; simpl in *; [constructor|].
  inversion HF as [|x l Hq Htl]; subst.
  destruct (addr_eqb (addr q) a).
  - inversion Hf; subst. now constructor.
  - constructor; [assumption|now apply IH].
Qed.

Lemma Forall_peer_unlink (P : tdls_auto_peer -> Prop) a ps :
  Forall P ps -> Forall P (peer_unlink a ps).
Proof.
  intros HF. induction ps as [|q tl IH]; simpl; [constructor|].
  inversion HF as [|x l Hq Htl]; subst.
  destruct (addr_eqb (addr q) a); [assumption|].
  constructor; [assumption|now apply IH].
Qed.

Lemma find_in_Forall (P : tdls_auto_peer -> Prop) a p ps :
  find_in ps a = Some p -> Forall P ps -> P p.
Proof.
  intros Hf HF. apply find_in_In in Hf.
  rewrite Forall_forall in HF. now apply HF.
Qed.


Lemma peer_store_nonempty a f ps : ps <> [] -> peer_store a f ps <> [].
Proof.
  destruct ps as [|q tl]; [congruence|]. simpl.
  now destruct (addr_eqb (addr q) a).
Qed.

Lemma find_in_nonempty ps a p : find_in ps a = Some p -> ps <> [].
Proof. destruct ps; [discriminate|discriminate]. Qed.

Lemma sample_ok cfg d p :
  peer_ok cfg p -> peer_ok cfg (fst (tdls_auto_get_peer_data_rate d p)).
Proof.
  unfold peer_ok, tdls_auto_get_peer_data_rate.
  destruct (_ <? _); [trivial|].
  destruct (get_sta_bytes d (addr p)) as [[tx rx]|]; trivial.
Qed.

(* a known peer is marked connected and sampled in place *)
Lemma connected_known d ctx a p :
  tdls_auto_find_peer ctx a = Some p ->
  peers (tdls_auto_peer_connected d ctx a) =
  peer_store a
    (fun q => fst (tdls_auto_get_peer_data_rate d (set_connected true q)))
    (peers ctx) /\
  peer_count (tdls_auto_peer_connected d ctx a) = peer_count ctx /\
  conn_peer_count (tdls_auto_peer_connected d ctx a) =
    u32 (conn_peer_count ctx + 1) /\
  extn (tdls_auto_peer_connected d ctx a) = extn ctx.
Proof.
  intros Hf. unfold tdls_auto_peer_connected.
  set (c0 := set_conn_peer_count _ ctx).
  assert (Hf0 : tdls_auto_find_peer c0 a = Some p) by exact Hf.
  rewrite Hf0. simpl negb. cbv iota.
  assert (H3 : let c3 := on_peer a (tdls_auto_get_peer_data_rate d)
                           (update_peer a (set_connected true) c0) in
               peers c3 =
               peer_store a
                 (fun q => fst (tdls_auto_get_peer_data_rate
                                  d (set_connected true q))) (peers ctx) /\
               peer_count c3 = peer_count ctx /\
               conn_peer_count c3 = u32 (conn_peer_count ctx + 1) /\
               extn c3 = extn ctx).
  { cbv zeta. unfold on_peer.
    rewrite find_update_peer by reflexivity. rewrite Hf0. simpl option_map.
    cbv iota.
    destruct (tdls_auto_get_peer_data_rate d (set_connected true p))
      as [p' cs] eqn:Es.
    ctx_fields. rewrite peer_store_store by reflexivity.
    split; [|now repeat split].
    unfold tdls_auto_find_peer in Hf. clear - Hf Es.
    induction (peers ctx) as [|q tl IH]; simpl in *; [reflexivity|].
    destruct (addr_eqb (addr q) a).
    - inversion Hf; subst. now rewrite Es.
    - now rewrite IH. }
  cbv zeta in H3. destruct H3 as (H3p & H3c & H3cc & H3e).
  destruct (negb _); unfold tdls_auto_set_timer, set_timeouts;
    cbn [peers peer_count conn_peer_count extn]; now repeat split.
Qed.

Lemma zalloc_peer_ok cfg a : peer_ok cfg (zalloc_peer a).
Proof.
  unfold peer_ok, TDLS_AUTO_MAX_FAST_CONN_ATTEMPTS. simpl.
  split; [lia|]. split; [discriminate|now left].
Qed.

Lemma fast_connect_body_ok cfg d c p :
  peer_ok cfg p -> peer_ok cfg (fst (fst (fast_connect_body d c p))).
Proof.
  intros H. unfold fast_connect_body.
  destruct (connected p) eqn:Hc; [exact H|].
  destruct (Z.gtb_spec (fast_attempts p) TDLS_AUTO_MAX_FAST_CONN_ATTEMPTS)
    as [Hgt|Hle]; [exact H|].
  assert (H1 : peer_ok cfg (set_fast_attempts (fast_attempts p + 1) p)).
  { destruct H as (Hfa & Hi & Hl). unfold peer_ok.
    unfold TDLS_AUTO_MAX_FAST_CONN_ATTEMPTS in *. simpl.
    split; [lia|]. now split. }
  apply (sample_ok cfg d) in H1.
  destruct (tdls_auto_get_peer_data_rate d _) as [p2 cs].
  now destruct (_ <? _).
Qed.

Lemma slow_connect_body_ok cfg d c p :
  peer_ok cfg p -> peer_ok cfg (fst (slow_connect_body d c p)).
Proof.
  intros H. unfold slow_connect_body.
  destruct (connected p); [exact H|].
  destruct (_ <=? _); [exact H|].
  apply (sample_ok cfg d) in H.
  destruct (tdls_auto_get_peer_data_rate d p) as [p1 cs].
  now destruct (_ <? _).
Qed.

Lemma Forall_map_body (P : tdls_auto_peer -> Prop) f ps :
  (forall p, P p -> P (f p)) -> Forall P ps -> Forall P (map f ps).
Proof.
  intros Hf HF. induction HF; simpl; constructor; auto.
Qed.

Section PeersOk.
Variable cfg : wpas_tdls_auto_ctx.

Lemma ok_start d ctx a :
  peers_ok cfg ctx -> peers_ok cfg (fst (tdls_auto_mode_start d ctx a)).
Proof.
  intros (HF & HT). unfold tdls_auto_mode_start.
  destruct (tdls_auto_find_peer ctx a) eqn:Hf; [now split|].
  destruct (Z.eq_dec (monitor_traffic d a true) 0) as [Hm|Hm];
    [destruct (os_zalloc_ok d) eqn:Hz|].
  - rewrite add_peer_success by assumption. simpl. split.
    + constructor; [apply zalloc_peer_ok|exact HF].
    + discriminate.
  - rewrite add_peer_failure by (now right). now split.
  - rewrite add_peer_failure by (now left). now split.
Qed.

Lemma ok_stop_gen d ctx a :
  wf cfg ctx ->
  Forall (peer_ok cfg) (peer_unlink a (peers ctx)) ->
  (peers ctx = [] ->
   fast_pending (timeouts ctx) = None /\ slow_pending (timeouts ctx) = None) ->
  peers_ok cfg (tdls_auto_mode_stop d ctx a).
Proof.
  intros (_ & Hpc & _ & _) HF HT.
  destruct (tdls_auto_find_peer ctx a) as [p|] eqn:Hf.
  - rewrite (stop_tracked d ctx a p Hf). cbv zeta. split; [exact HF|].
    cbn [peers timeouts]. intros He.
    pose proof (peer_unlink_length _ _ _ Hf) as Hl. rewrite He in Hl.
    unfold registry_size in Hpc. rewrite Hl in Hpc. rewrite Hpc. now split.
  - rewrite stop_untracked by exact Hf. split; [|exact HT].
    now rewrite peer_unlink_none in HF.
Qed.

Lemma ok_stop d ctx a :
  wf cfg ctx -> peers_ok cfg ctx ->
  peers_ok cfg (tdls_auto_mode_stop d ctx a).
Proof.
  intros W (HF & HT). apply ok_stop_gen; try assumption.
  now apply Forall_peer_unlink.
Qed.

Lemma ok_connected d ctx a :
  peers_ok cfg ctx -> peers_ok cfg (tdls_auto_peer_connected d ctx a).
Proof.
  intros (HF & HT).
  destruct (tdls_auto_find_peer ctx a) as [p|] eqn:Hf.
  - destruct (connected_known d ctx a p Hf) as (Hp & _). split.
    + rewrite Hp. eapply Forall_peer_store_at; [exact Hf| |exact HF].
      apply sample_ok. pose proof (find_in_Forall _ _ _ _ Hf HF) as (A & B & C).
      unfold peer_ok. simpl. now repeat split.
    + rewrite Hp. intros He. exfalso.
      eapply peer_store_nonempty; [|exact He].
      eapply find_in_nonempty. exact Hf.
  - destruct (Z.eq_dec (monitor_traffic d a true) 0) as [Hm|Hm];
      [destruct (os_zalloc_ok d) eqn:Hz|].
    + destruct (connected_unknown d ctx a Hf Hm Hz) as (Hp & _).
      split; rewrite Hp; [|discriminate].
      constructor; [|exact HF]. unfold incoming_entry. apply sample_ok.
      unfold peer_ok, TDLS_AUTO_MAX_FAST_CONN_ATTEMPTS. simpl.
      split; [lia|]. split; [reflexivity|now left].
    + destruct (connected_unknown_failure d ctx a Hf) as (Hp & Ht & _);
        [now right|]. split; rewrite Hp; [exact HF|now rewrite Ht].
    + destruct (connected_unknown_failure d ctx a Hf) as (Hp & Ht & _);
        [now left|]. split; rewrite Hp; [exact HF|now rewrite Ht].
Qed.

Lemma ok_set_conn ctx v :
  peers_ok cfg ctx -> peers_ok cfg (set_conn_peer_count v ctx).
Proof. intros H. exact H. Qed.

Lemma ok_kept a q cs ctx p :
  tdls_auto_find_peer ctx a = Some p ->
  peer_ok cfg q ->
  peers_ok cfg ctx -> peers_ok cfg (entry_kept a q cs ctx).
Proof.
  intros Hf Hq (HF & HT). split; cbn [entry_kept peers timeouts].
  - eapply Forall_peer_store_at; [exact Hf|exact Hq|exact HF].
  - intros He. exfalso. eapply peer_store_nonempty; [|exact He].
    eapply find_in_nonempty. exact Hf.
Qed.

Lemma ok_forgotten a q cs ctx p :
  tdls_auto_find_peer ctx a = Some p ->
  peer_ok cfg q ->
  peers_ok cfg ctx -> peers_ok cfg (link_forgotten a q cs ctx).
Proof.
  intros Hf Hq (HF & HT). split; cbn [link_forgotten peers timeouts].
  - eapply Forall_peer_store_at; [exact Hf|exact Hq|exact HF].
  - intros He. exfalso. eapply peer_store_nonempty; [|exact He].
    eapply find_in_nonempty. exact Hf.
Qed.

Lemma ok_released a cs ctx p :
  wf cfg ctx ->
  tdls_auto_find_peer ctx a = Some p ->
  peers_ok cfg ctx -> peers_ok cfg (entry_released a cs ctx).
Proof.
  intros (_ & Hpc & _ & _) Hf (HF & HT).
  split; cbn [entry_released peers timeouts].
  - now apply Forall_peer_unlink.
  - intros He.
    pose proof (peer_unlink_length _ _ _ Hf) as Hl. rewrite He in Hl.
    unfold registry_size in Hpc. rewrite Hl in Hpc. rewrite Hpc. now split.
Qed.

Lemma after_disconnected_ok q :
  incoming_peer q = false -> peer_ok cfg (after_disconnected q).
Proof.
  intros Hi. unfold peer_ok, after_disconnected,
    TDLS_AUTO_MAX_FAST_CONN_ATTEMPTS. simpl.
  split; [lia|]. split; [congruence|now left].
Qed.

Lemma ok_disconnected d ctx a :
  wf cfg ctx -> peers_ok cfg ctx ->
  peers_ok cfg (tdls_auto_peer_disconnected d ctx a).
Proof.
  intros W H.
  destruct (tdls_auto_find_peer ctx a) as [p|] eqn:Hf;
    [|now rewrite disconnected_untracked].
  rewrite (disconnected_tracked d ctx a p Hf).
  destruct (incoming_peer p) eqn:Hi.
  - exact (ok_released a [MonitorTraffic a false] ctx p W Hf H).
  - rewrite (peer_store_const a _ p) by exact Hf.
    exact (ok_forgotten a (after_disconnected p) [] ctx p Hf
             (after_disconnected_ok p Hi) H).
Qed.

Lemma ok_data_visit d ctx p :
  wf cfg ctx -> peers_ok cfg ctx ->
  tdls_auto_find_peer ctx (addr p) = Some p ->
  peers_ok cfg (data_teardown_visit d ctx p).
Proof.
  intros W H Hf. destruct (connected p) eqn:Hc;
    [|now rewrite data_visit_skipped].
  rewrite (data_visit_tracked d ctx p Hf Hc).
  unfold data_teardown_outcome. rewrite Hc. simpl negb. cbv iota zeta.
  assert (Hp : peer_ok cfg p)
    by (eapply find_in_Forall; [exact Hf|apply H]).
  pose proof (sample_ok cfg d p Hp) as Hp1.
  pose proof (sample_incoming d p) as Hi1.
  destruct (_ >=? _); [now apply (ok_kept _ _ _ _ p)|].
  destruct (disconnect_calls_back d (addr p));
    [destruct (incoming_peer p) eqn:Hi|].
  - now apply (ok_released _ _ _ p).
  - apply (ok_forgotten _ _ _ _ p); [exact Hf| |exact H].
    apply after_disconnected_ok. congruence.
  - now apply (ok_kept _ _ _ _ p).
Qed.

Lemma ok_rssi_visit d ctx p :
  wf cfg ctx -> peers_ok cfg ctx ->
  tdls_auto_find_peer ctx (addr p) = Some p ->
  peers_ok cfg (rssi_teardown_visit d ctx p).
Proof.
  intros W H Hf. destruct (connected p) eqn:Hc;
    [|now rewrite rssi_visit_skipped].
  pose proof W as (Hcfg & _ & _ & ND).
  rewrite (rssi_visit_tracked d ctx p ND Hf Hc).
  unfold rssi_teardown_outcome. rewrite Hc. simpl negb. cbv iota zeta.
  rewrite Hcfg.
  assert (Hp : peer_ok cfg p)
    by (eapply find_in_Forall; [exact Hf|apply H]).
  destruct Hp as (Hfa & Hin & Hl).
  assert (H0 : peer_ok cfg (set_low_rssi_vals 0
                              (set_rssi (get_rssi d (addr p)) p))).
  { unfold peer_ok. simpl. split; [exact Hfa|]. split; [exact Hin|now left]. }
  destruct (_ >=? _); [now apply (ok_kept _ _ _ _ p)|].
  destruct (Z.leb_spec (u32 (low_rssi_vals p + 1))
                       (tdls_auto_rssi_teardown_count cfg)).
  - apply (ok_kept _ _ _ _ p); [exact Hf| |exact H].
    unfold peer_ok. simpl. split; [exact Hfa|]. split; [exact Hin|].
    right. split; [apply u32_range|assumption].
  - destruct (disconnect_calls_back d (addr p));
      [destruct (incoming_peer p) eqn:Hi|].
    + now apply (ok_released _ _ _ p).
    + apply (ok_forgotten _ _ _ _ p); [exact Hf| |exact H].
      now apply after_disconnected_ok.
    + now apply (ok_kept _ _ _ _ p).
Qed.

Lemma ok_fold_visits visit :
  (forall c p b, b <> addr p ->
     tdls_auto_find_peer (visit c p) b = tdls_auto_find_peer c b) ->
  (forall c p, wf cfg c -> wf cfg (visit c p)) ->
  (forall c p, wf cfg c -> peers_ok cfg c ->
     tdls_auto_find_peer c (addr p) = Some p -> peers_ok cfg (visit c p)) ->
  forall ctx,
    wf cfg ctx -> peers_ok cfg ctx ->
    peers_ok cfg (fold_left visit (peers ctx) ctx).
Proof.
  intros Hframe Hwf Hok ctx W H.
  refine (fold_visits visit
            (fun _ c c' => wf cfg c -> peers_ok cfg c -> peers_ok cfg c')
            Hframe _ _ (peers ctx) ctx _ _ W H).
  - intros c _ Hc. exact Hc.
  - intros p tl c c' Hf IH Wc Hc. apply IH; [now apply Hwf|now apply Hok].
  - apply W.
  - intros q Hq. now apply (wf_present cfg).
Qed.

Lemma ok_discovery_response d ctx a r :
  peers_ok cfg ctx -> peers_ok cfg (tdls_auto_discovery_response d ctx a r).
Proof.
  intros (HF & HT).
  assert (HT' : peers (tdls_auto_discovery_response d ctx a r) = [] ->
                fast_pending (timeouts (tdls_auto_discovery_response d ctx a r))
                  = None /\
                slow_pending (timeouts (tdls_auto_discovery_response d ctx a r))
                  = None).
  { destruct (discovery_response_frame d ctx a r) as (Hr & _ & _ & _ & Ht).
    rewrite Ht. intros He. apply HT. unfold roles in Hr. rewrite He in Hr.
    destruct (peers ctx); [reflexivity|discriminate]. }
  split; [|exact HT'].
  unfold tdls_auto_discovery_response.
  destruct (tdls_auto_find_peer ctx a) as [p|] eqn:Hf; [|exact HF].
  assert (Ha : addr p = a) by (eapply find_in_addr; exact Hf).
  pose proof (find_in_Forall _ _ _ _ Hf HF) as Hp.
  assert (F1 : Forall (peer_ok cfg)
                 (peer_store (addr p) (set_rssi r) (peers ctx))).
  { rewrite Ha. eapply Forall_peer_store_at; [exact Hf| |exact HF]. exact Hp. }
  destruct (connected p); [exact F1|].
  destruct (_ <=? _); [exact F1|].
  assert (Hs : peer_ok cfg (fst (tdls_auto_get_peer_data_rate d (set_rssi r p))))
    by (apply sample_ok; exact Hp).
  destruct (tdls_auto_get_peer_data_rate d (set_rssi r p)) as [p1 cs].
  simpl in Hs.
  assert (F2 : Forall (peer_ok cfg)
                 (peer_store (addr p) (fun _ => p1)
                    (peer_store (addr p) (set_rssi r) (peers ctx)))).
  { rewrite peer_store_store by reflexivity. rewrite Ha.
    eapply Forall_peer_store_at; [exact Hf|exact Hs|exact HF]. }
  destruct (_ <? _); [exact F2|]. destruct (_ >=? _); exact F2.
Qed.

Lemma ok_remove_peers d ctx k :
  wf cfg ctx -> peers_ok cfg ctx ->
  peers_ok cfg (tdls_auto_remove_peers d ctx k).
Proof.
  intros W (HF & HT). pose proof W as (_ & Hpc & Hcc & _).
  unfold tdls_auto_remove_peers.
  assert (Hr : in_u32 (peer_count ctx)) by (rewrite Hpc; apply u32_range).
  destruct (remove_loop_all d k (peers ctx) ctx eq_refl Hr Hcc)
    as (H1 & H2 & _ & _ & _ & _ & _ & H8 & H9).
  split; [rewrite H1; constructor|]. intros _.
  assert (Hne : peers ctx = [] \/ peers ctx <> [])
    by (destruct (peers ctx); [left; reflexivity|right; discriminate]).
  destruct Hne as [He|Hne].
  - rewrite (H9 He). now apply HT.
  - apply H8; [exact Hne|]. rewrite H2, Hpc. unfold registry_size, u32.
    now rewrite Zminus_mod_idemp_l, Z.sub_diag.
Qed.

Lemma ok_connect_handler h d ctx :
  h = fast_connect_timeout \/ h = slow_connect_timeout ->
  wf cfg ctx ->
  Forall (peer_ok cfg) (peers ctx) ->
  (peers ctx = [] ->
   slow_pending (timeouts ctx) = None /\
   (h <> fast_connect_timeout -> fast_pending (timeouts ctx) = None)) ->
  pending h (timeouts ctx) = None ->
  peers_ok cfg (run_handler h d ctx).
Proof.
  intros Hh (Hcfg & Hpc & _ & _) HF HT Hp. split.
  - destruct Hh as [-> | ->]; simpl.
    + unfold tdls_auto_fast_connect_timeout. rewrite fast_connect_loop_map.
      destruct (negb _); simpl; apply Forall_map_body; trivial;
        intros p; apply fast_connect_body_ok.
    + unfold tdls_auto_slow_connect_timeout. rewrite for_each_peer_map. simpl.
      destruct (_ =? _); simpl; apply Forall_map_body; trivial;
        intros p; apply slow_connect_body_ok.
  - intros He.
    assert (He0 : peers ctx = []).
    { destruct (connect_handler_frame h d ctx Hh) as (Hr & _).
      unfold roles in Hr.
      rewrite He in Hr. destruct (peers ctx); [reflexivity|discriminate]. }
    destruct (HT He0) as (Hs & Hfast).
    rewrite connect_handler_timeouts by exact Hh.
    destruct Hh as [-> | ->].
    + simpl work_remains. rewrite He0. simpl. split; [exact Hp|exact Hs].
    + simpl work_remains. rewrite Hpc. unfold registry_size. rewrite He0.
      simpl. split; [now apply Hfast|exact Hs].
Qed.

Lemma ok_teardown_handler h d ctx :
  h = data_teardown_timeout \/ h = rssi_teardown_timeout ->
  wf cfg ctx -> peers_ok cfg ctx ->
  peers_ok cfg (run_handler h d ctx).
Proof.
  intros [-> | ->] W H; simpl.
  - unfold tdls_auto_data_teardown_timeout.
    assert (H1 : peers_ok cfg
                   (fold_left (data_teardown_visit d) (peers ctx) ctx)).
    { apply ok_fold_visits; try assumption.
      - intros c p b. apply data_visit_frame.
      - intros c p. apply wf_data_teardown_visit.
      - intros c p. apply ok_data_visit. }
    destruct (_ =? _); exact H1.
  - unfold tdls_auto_rssi_teardown_timeout.
    assert (H1 : peers_ok cfg
                   (fold_left (rssi_teardown_visit d) (peers ctx) ctx)).
    { apply ok_fold_visits; try assumption.
      - intros c p b. apply rssi_visit_frame.
      - intros c p. apply wf_rssi_teardown_visit.
      - intros c p. apply ok_rssi_visit. }
    destruct (_ =? _); exact H1.
Qed.

Lemma ok_fire h d ctx :
  wf cfg ctx -> peers_ok cfg ctx -> peers_ok cfg (eloop_fire h d ctx).
Proof.
  intros W (HF & HT). unfold eloop_fire.
  destruct (pending h (timeouts ctx)) eqn:Hp; [|now split].
  assert (Hconnect :
            h = fast_connect_timeout \/ h = slow_connect_timeout ->
            peers_ok cfg (run_handler h d (tdls_auto_cancel_timer ctx h))).
  { intros Hh. apply ok_connect_handler.
    - exact Hh.
    - now apply wf_cancel_timer.
    - exact HF.
    - cbn [tdls_auto_cancel_timer peers set_timeouts timeouts]. intros He.
      destruct (HT He) as (Hf & Hs). destruct h; simpl; now split.
    - cbn [tdls_auto_cancel_timer set_timeouts timeouts]. now destruct h. }
  assert (Hteardown :
            h = data_teardown_timeout \/ h = rssi_teardown_timeout ->
            peers_ok cfg (run_handler h d (tdls_auto_cancel_timer ctx h))).
  { intros Hh. apply ok_teardown_handler.
    - exact Hh.
    - now apply wf_cancel_timer.
    - split; [exact HF|].
      cbn [tdls_auto_cancel_timer peers set_timeouts timeouts].
      intros He. destruct (HT He) as (Hf & Hs).
      destruct Hh as [-> | ->]; simpl; now split. }
  destruct h; [apply Hconnect|apply Hconnect|apply Hteardown|apply Hteardown];
    auto.
Qed.

Lemma ok_step d ev ctx :
  wf cfg ctx -> peers_ok cfg ctx -> peers_ok cfg (step d ev ctx).
Proof.
  intros W H. destruct ev as [a|a|a|a|a r|k|h]; simpl.
  - now apply ok_start.
  - now apply ok_stop.
  - now apply ok_connected.
  - now apply ok_disconnected.
  - now apply ok_discovery_response.
  - now apply ok_remove_peers.
  - now apply ok_fire.
Qed.

Lemma reachable_peers_ok ctx : reachable cfg ctx -> peers_ok cfg ctx.
Proof.
  induction 1 as [|d ev ctx R IH].
  - split; [constructor|]. intros _. now split.
  - apply ok_step; [now apply reachable_wf|exact IH].
Qed.
End PeersOk.

Lemma reachable_ctx_one_candidate : reachable cfg1 ctx_one_candidate.
Proof.
  exact (reach_step cfg1 (drv_at 1 0) (EvStart mac_A) (init_ctx cfg1)
                    (reach_init cfg1)).
Defined.

(** X9.  In every reachable state every tracked peer has [fast_attempts]
    between 0 and 21: the handler increments the counter only while it is
    at most 20, so the signed counter cannot overflow, and [disconnected]
    resets it to 0. *)
Theorem fast_attempts_bounded
        (cfg : wpas_tdls_auto_ctx) (ctx : tdls_auto_mode_ctx)
        (p : tdls_auto_peer) :
  reachable cfg ctx -> In p (peers ctx) ->
  0 <= fast_attempts p <= TDLS_AUTO_MAX_FAST_CONN_ATTEMPTS + 1.
Proof.
  intros R Hin. destruct (reachable_peers_ok cfg ctx R) as (HF & _).
  rewrite Forall_forall in HF. now apply HF.
Qed.

Lemma fast_attempts_bounded_witness :
  reachable cfg1 ctx_one_candidate /\
  In (zalloc_peer mac_A) (peers ctx_one_candidate) /\
  0 <= fast_attempts (zalloc_peer mac_A) <=
    TDLS_AUTO_MAX_FAST_CONN_ATTEMPTS + 1.
Proof.
  assert (Hin : In (zalloc_peer mac_A) (peers ctx_one_candidate))
    by (left; reflexivity).
  split; [exact reachable_ctx_one_candidate|]. split; [exact Hin|].
  exact (fast_attempts_bounded cfg1 ctx_one_candidate (zalloc_peer mac_A)
           reachable_ctx_one_candidate Hin).
Defined.

(** X10.  In every reachable state the count of consecutive bad rssi
    readings of a tracked peer is 0 or at most [rssi_teardown_count]: the
    rssi-teardown handler resets it as soon as it would exceed the count. *)
Theorem low_rssi_vals_bounded
        (cfg : wpas_tdls_auto_ctx) (ctx : tdls_auto_mode_ctx)
        (p : tdls_auto_peer) :
  reachable cfg ctx -> In p (peers ctx) ->
  low_rssi_vals p = 0 \/
  0 <= low_rssi_vals p <= tdls_auto_rssi_teardown_count cfg.
Proof.
  intros R Hin. destruct (reachable_peers_ok cfg ctx R) as (HF & _).
  rewrite Forall_forall in HF. now apply HF.
Qed.

Lemma low_rssi_vals_bounded_witness :
  reachable cfg1 ctx_one_candidate /\
  In (zalloc_peer mac_A) (peers ctx_one_candidate) /\
  (low_rssi_vals (zalloc_peer mac_A) = 0 \/
   0 <= low_rssi_vals (zalloc_peer mac_A) <=
     tdls_auto_rssi_teardown_count cfg1).
Proof.
  assert (Hin : In (zalloc_peer mac_A) (peers ctx_one_candidate))
    by (left; reflexivity).
  split; [exact reachable_ctx_one_candidate|]. split; [exact Hin|].
  exact (low_rssi_vals_bounded cfg1 ctx_one_candidate (zalloc_peer mac_A)
           reachable_ctx_one_candidate Hin).
Defined.

(** X11.  In every reachable state a tracked peer whose [incoming_peer]
    flag is set is connected: an incoming peer is created connected and is
    removed by the very [disconnected] (or [remove_all]) that would clear
    its [connected] flag, so it never stays behind as a candidate. *)
Theorem incoming_peers_are_connected
        (cfg : wpas_tdls_auto_ctx) (ctx : tdls_auto_mode_ctx)
        (p : tdls_auto_peer) :
  reachable cfg ctx -> In p (peers ctx) ->
  incoming_peer p = true -> connected p = true.
Proof.
  intros R Hin. destruct (reachable_peers_ok cfg ctx R) as (HF & _).
  rewrite Forall_forall in HF. now apply HF.
Qed.

(** X12.  In every reachable state in which no peer is tracked, neither
    the fast-connect nor the slow-connect timeout is registered: removing
    the last peer cancels both, and neither handler re-arms on an empty
    registry. *)
Theorem no_connect_timer_without_peers
        (cfg : wpas_tdls_auto_ctx) (ctx : tdls_auto_mode_ctx) :
  reachable cfg ctx -> peers ctx = [] ->
  fast_pending (timeouts ctx) = None /\ slow_pending (timeouts ctx) = None.
Proof.
  intros R. now destruct (reachable_peers_ok cfg ctx R) as (_ & HT).
Qed.

(** X13.  In every reachable state the registry holds at most one entry
    per address, so a lookup returns exactly the tracked entry with that
    address; [peer_count] is the number of entries (modulo 2^32),
    [conn_peer_count] is an unsigned 32-bit value and the configuration is
    the one the controller was initialised with. *)
Theorem registry_keys_unique
        (cfg : wpas_tdls_auto_ctx) (ctx : tdls_auto_mode_ctx) :
  reachable cfg ctx ->
  NoDup (map addr (peers ctx)) /\
  (forall a p, tdls_auto_find_peer ctx a = Some p <->
               In p (peers ctx) /\ addr p = a) /\
  peer_count ctx = u32 (registry_size ctx) /\
  in_u32 (conn_peer_count ctx) /\
  extn ctx = cfg.
Proof.
  intros R. destruct (reachable_wf cfg ctx R) as (He & Hpc & Hc & ND).
  split; [exact ND|]. split; [|exact (conj Hpc (conj Hc He))].
  intros a p. split.
  - intros Hf. split; [eapply find_in_In|eapply find_in_addr]; exact Hf.
  - intros (Hin & <-). now apply find_in_nodup.
Qed.

Lemma reachable_ctx_one_incoming : reachable cfg1 ctx_one_incoming.
Proof.
  exact (reach_step cfg1 (drv_at 1 0) (EvConnected mac_B) (init_ctx cfg1)
                    (reach_init cfg1)).
Defined.

Lemma incoming_peers_are_connected_witness :
  reachable cfg1 ctx_one_incoming /\
  In (incoming_entry (drv_at 1 0) mac_B) (peers ctx_one_incoming) /\
  incoming_peer (incoming_entry (drv_at 1 0) mac_B) = true /\
  connected (incoming_entry (drv_at 1 0) mac_B) = true.
Proof.
  assert (Hin : In (incoming_entry (drv_at 1 0) mac_B)
                   (peers ctx_one_incoming)) by (left; reflexivity).
  split; [exact reachable_ctx_one_incoming|]. split; [exact Hin|].
  split; [reflexivity|].
  exact (incoming_peers_are_connected cfg1 ctx_one_incoming
           (incoming_entry (drv_at 1 0) mac_B)
           reachable_ctx_one_incoming Hin eq_refl).
Defined.

Lemma no_connect_timer_without_peers_witness :
  reachable cfg1 (init_ctx cfg1) /\
  peers (init_ctx cfg1) = [] /\
  fast_pending (timeouts (init_ctx cfg1)) = None /\
  slow_pending (timeouts (init_ctx cfg1)) = None.
Proof.
  split; [exact (reach_init cfg1)|]. split; [reflexivity|].
  exact (no_connect_timer_without_peers cfg1 (init_ctx cfg1)
           (reach_init cfg1) eq_refl).
Defined.

Lemma registry_keys_unique_witness :
  reachable cfg1 ctx_one_candidate /\
  NoDup (map addr (peers ctx_one_candidate)).
Proof.
  split; [exact reachable_ctx_one_candidate|].
  exact (proj1 (registry_keys_unique cfg1 ctx_one_candidate
                  reachable_ctx_one_candidate)).
Defined.

(** ** Who is sent a discovery request *)

(** X14.  Discovery requests from the timers go to candidates only, and
    each candidate is served by one of the two connect handlers at a time.
    In a reachable state, whenever the expiry of a timeout sends a
    discovery request to an address, that address is tracked, its peer is
    neither connected nor incoming, and either the handler is the
    fast-connect handler and the peer had [fast_attempts] at most 20, or it
    is the slow-connect handler and the peer had [fast_attempts] above 20.
    The two teardown handlers never send discovery requests. *)
Theorem discovery_goes_to_candidates
        (cfg : wpas_tdls_auto_ctx) (ctx : tdls_auto_mode_ctx)
        (h : handler) (d : driver) (b : macaddr) :
  reachable cfg ctx ->
  In (SendDiscovery b) (emitted ctx (eloop_fire h d ctx)) ->
  exists p,
    tdls_auto_find_peer ctx b = Some p /\
    connected p = false /\
    incoming_peer p = false /\
    ((h = fast_connect_timeout /\
      fast_attempts p <= TDLS_AUTO_MAX_FAST_CONN_ATTEMPTS) \/
     (h = slow_connect_timeout /\
      fast_attempts p > TDLS_AUTO_MAX_FAST_CONN_ATTEMPTS)).
Proof.
  intros R Hin.
  destruct (reachable_wf cfg ctx R) as (_ & _ & _ & ND).
  destruct (reachable_peers_ok cfg ctx R) as (HF & _).
  rewrite Forall_forall in HF.
  unfold eloop_fire in Hin.
  destruct (pending h (timeouts ctx)).
  2:{ rewrite emitted_same in Hin by reflexivity. destruct Hin. }
  change (emitted ctx (run_handler h d (tdls_auto_cancel_timer ctx h)))
    with (emitted (tdls_auto_cancel_timer ctx h)
                  (run_handler h d (tdls_auto_cancel_timer ctx h))) in Hin.
  assert (Hinc : forall p, In p (peers ctx) -> connected p = false ->
                           incoming_peer p = false).
  { intros p Hp Hc. destruct (HF p Hp) as (_ & Hi & _).
    destruct (incoming_peer p); [|reflexivity].
    rewrite Hi in Hc by reflexivity. discriminate. }
  destruct h; simpl run_handler in Hin.
  - rewrite fast_connect_timeout_emitted in Hin.
    cbn [tdls_auto_cancel_timer set_timeouts peers extn] in Hin.
    apply in_flat_map in Hin; destruct Hin as (p & Hp & Hin).
    apply fast_connect_body_discovery in Hin. destruct Hin as (E & Hc & Hle).
    exists p. subst b. split; [now apply find_in_nodup|].
    split; [exact Hc|]. split; [now apply Hinc|]. left. now split.
  - rewrite slow_connect_timeout_emitted in Hin.
    cbn [tdls_auto_cancel_timer set_timeouts peers extn] in Hin.
    apply in_flat_map in Hin; destruct Hin as (p & Hp & Hin).
    apply slow_connect_body_discovery_iff in Hin.
    destruct Hin as (E & Hc & Hgt & _).
    exists p. subst b. split; [now apply find_in_nodup|].
    split; [exact Hc|]. split; [now apply Hinc|]. right. now split.
  - exfalso. revert Hin.
    apply teardown_only_no_discovery, teardown_only_data_timeout.
  - exfalso. revert Hin.
    apply teardown_only_no_discovery, teardown_only_rssi_timeout.
Qed.

Lemma discovery_goes_to_candidates_witness :
  reachable cfg1 ctx_one_candidate /\
  In (SendDiscovery mac_A)
     (emitted ctx_one_candidate
        (eloop_fire fast_connect_timeout (drv_at 2 100000)
                    ctx_one_candidate)) /\
  exists p,
    tdls_auto_find_peer ctx_one_candidate mac_A = Some p /\
    connected p = false /\ incoming_peer p = false.
Proof.
  assert (Hin : In (SendDiscovery mac_A)
     (emitted ctx_one_candidate
        (eloop_fire fast_connect_timeout (drv_at 2 100000)
                    ctx_one_candidate))).
  { vm_compute. right. left. reflexivity. }
  split; [exact reachable_ctx_one_candidate|]. split; [exact Hin|].
  destruct (discovery_goes_to_candidates cfg1 ctx_one_candidate
              fast_connect_timeout (drv_at 2 100000) mac_A
              reachable_ctx_one_candidate Hin) as (p & Hf & Hc & Hi & _).
  exists p. now repeat split.
Defined.

(** ** When [conn_peer_count] is the number of connected peers *)

Lemma count_store a f p ps :
  find_in ps a = Some p ->
  Z.of_nat (length (filter connected (peer_store a f ps))) =
  Z.of_nat (length (filter connected ps))
  - Z.b2z (connected p) + Z.b2z (connected (f p)).
Proof.
  induction ps as [|q tl IH]; simpl; [discriminate|].
  destruct (addr_eqb (addr q) a).
  - intros H. inversion H; subst. simpl.
    destruct (connected p), (connected (f p)); simpl length; simpl Z.b2z; lia.
  - intros H. specialize (IH H). simpl.
    destruct (connected q); simpl length; lia.
Qed.

Lemma count_unlink a p ps :
  find_in ps a = Some p ->
  Z.of_nat (length (filter connected (peer_unlink a ps))) =
  Z.of_nat (length (filter connected ps)) - Z.b2z (connected p).
Proof.
  induction ps as [|q tl IH]; simpl; [discriminate|].
  destruct (addr_eqb (addr q) a).
  - intros H. inversion H; subst.
    destruct (connected p); simpl length; simpl Z.b2z; lia.
  - intros H. specialize (IH H). simpl.
    destruct (connected q); simpl length; lia.
Qed.

Lemma count_roles ps qs :
  map role ps = map role qs ->
  length (filter connected ps) = length (filter connected qs).
Proof.
  revert qs. induction ps as [|p tl IH]; intros [|q tl'] H; simpl in *;
    try discriminate; [reflexivity|].
  inversion H as [[Ha Hc Hi Htl]]. rewrite Hc.
  destruct (connected q); simpl; now rewrite (IH tl' Htl).
Qed.

Lemma count_none ps :
  (forall p, In p ps -> connected p = false) -> filter connected ps = [].
Proof.
  induction ps as [|p tl IH]; intros H; simpl; [reflexivity|].
  rewrite (H p) by now left. apply IH. intros q Hq. apply H. now right.
Qed.

Lemma u32_succ_idem x : u32 (u32 x + 1) = u32 (x + 1).
Proof. unfold u32. now rewrite Zplus_mod_idemp_l. Qed.

Lemma u32_pred_idem x : u32 (u32 x - 1) = u32 (x - 1).
Proof. unfold u32. now rewrite Zminus_mod_idemp_l. Qed.

Lemma counted_kept a q cs ctx p :
  tdls_auto_find_peer ctx a = Some p ->
  connected q = connected p ->
  counted ctx -> counted (entry_kept a q cs ctx).
Proof.
  unfold counted, connected_peers, entry_kept. intros Hf Hq Hc.
  cbn [conn_peer_count peers].
  rewrite (count_store a _ p _ Hf), Hq, Hc. f_equal. lia.
Qed.

Lemma counted_forgotten a q cs ctx p :
  tdls_auto_find_peer ctx a = Some p ->
  connected p = true -> connected q = false ->
  counted ctx -> counted (link_forgotten a q cs ctx).
Proof.
  unfold counted, connected_peers, link_forgotten. intros Hf Hp Hq Hc.
  cbn [conn_peer_count peers].
  rewrite (count_store a _ p _ Hf), Hp, Hq, Hc. simpl Z.b2z.
  rewrite u32_pred_idem. f_equal. lia.
Qed.

Lemma counted_released a cs ctx p :
  tdls_auto_find_peer ctx a = Some p ->
  connected p = true ->
  counted ctx -> counted (entry_released a cs ctx).
Proof.
  unfold counted, connected_peers, entry_released. intros Hf Hp Hc.
  cbn [conn_peer_count peers].
  rewrite (count_unlink a p _ Hf), Hp, Hc. simpl Z.b2z.
  now rewrite u32_pred_idem.
Qed.

Lemma counted_data_visit d ctx p :
  tdls_auto_find_peer ctx (addr p) = Some p ->
  counted ctx -> counted (data_teardown_visit d ctx p).
Proof.
  intros Hf H. destruct (connected p) eqn:Hc;
    [|now rewrite data_visit_skipped].
  rewrite (data_visit_tracked d ctx p Hf Hc).
  unfold data_teardown_outcome. rewrite Hc. simpl negb. cbv iota zeta.
  pose proof (sample_connected d p) as Hc1.
  destruct (_ >=? _); [now apply (counted_kept _ _ _ _ p)|].
  destruct (disconnect_calls_back d (addr p));
    [destruct (incoming_peer p)|].
  - now apply (counted_released _ _ _ p).
  - now apply (counted_forgotten _ _ _ _ p).
  - now apply (counted_kept _ _ _ _ p).
Qed.

Lemma counted_rssi_visit d ctx p :
  NoDup (map addr (peers ctx)) ->
  tdls_auto_find_peer ctx (addr p) = Some p ->
  counted ctx -> counted (rssi_teardown_visit d ctx p).
Proof.
  intros ND Hf H. destruct (connected p) eqn:Hc;
    [|now rewrite rssi_visit_skipped].
  rewrite (rssi_visit_tracked d ctx p ND Hf Hc).
  unfold rssi_teardown_outcome. rewrite Hc. simpl negb. cbv iota zeta.
  destruct (_ >=? _); [now apply (counted_kept _ _ _ _ p)|].
  destruct (_ <=? _); [now apply (counted_kept _ _ _ _ p)|].
  destruct (disconnect_calls_back d (addr p));
    [destruct (incoming_peer p)|].
  - now apply (counted_released _ _ _ p).
  - now apply (counted_forgotten _ _ _ _ p).
  - now apply (counted_kept _ _ _ _ p).
Qed.

Lemma counted_fold_visits cfg visit :
  (forall c p b, b <> addr p ->
     tdls_auto_find_peer (visit c p) b = tdls_auto_find_peer c b) ->
  (forall c p, wf cfg c -> wf cfg (visit c p)) ->
  (forall c p, wf cfg c -> counted c ->
     tdls_auto_find_peer c (addr p) = Some p -> counted (visit c p)) ->
  forall ctx,
    wf cfg ctx -> counted ctx ->
    counted (fold_left visit (peers ctx) ctx).
Proof.
  intros Hframe Hwf Hok ctx W H.
  refine (fold_visits visit
            (fun _ c c' => wf cfg c -> counted c -> counted c')
            Hframe _ _ (peers ctx) ctx _ _ W H).
  - intros c _ Hc. exact Hc.
  - intros p tl c c' Hf IH Wc Hc. apply IH; [now apply Hwf|now apply Hok].
  - apply W.
  - intros q Hq. now apply (wf_present cfg).
Qed.

Lemma counted_teardown_handler cfg h d ctx :
  h = data_teardown_timeout \/ h = rssi_teardown_timeout ->
  wf cfg ctx -> counted ctx -> counted (run_handler h d ctx).
Proof.
  intros [-> | ->] W H; simpl.
  - unfold tdls_auto_data_teardown_timeout.
    assert (H1 : counted (fold_left (data_teardown_visit d) (peers ctx) ctx)).
    { apply (counted_fold_visits cfg); try assumption.
      - intros c p b. apply data_visit_frame.
      - intros c p. apply wf_data_teardown_visit.
      - intros c p _ Hc Hf. now apply counted_data_visit. }
    destruct (_ =? _); exact H1.
  - unfold tdls_auto_rssi_teardown_timeout.
    assert (H1 : counted (fold_left (rssi_teardown_visit d) (peers ctx) ctx)).
    { apply (counted_fold_visits cfg); try assumption.
      - intros c p b. apply rssi_visit_frame.
      - intros c p. apply wf_rssi_teardown_visit.
      - intros c p Wc Hc Hf. apply counted_rssi_visit; try assumption.
        apply Wc. }
    destruct (_ =? _); exact H1.
Qed.

Lemma no_callback_without_link d k ps :
  (forall p, In p ps -> connected p = false) ->
  filter (called_back d k) ps = [].
Proof.
  induction ps as [|p tl IH]; intros H; simpl; [reflexivity|].
  unfold called_back at 1. rewrite (H p) by now left.
  rewrite andb_false_r. simpl. apply IH. intros q Hq. apply H. now right.
Qed.

(** X15.  [conn_peer_count] is kept equal to the number of connected peers
    (modulo 2^32) by every event of an orderly driver.  If the two agree
    before an event, they agree after it, for: any [start], any discovery
    response, any timer expiry, a [connected] for a tracked peer that is not
    connected or for an unknown address whose peer can be created, a
    [disconnected] for a connected peer or an unknown address, and a [stop]
    or [remove_all] that removes no connected peer. *)
Theorem conn_peer_count_kept_by_orderly_events
        (cfg : wpas_tdls_auto_ctx) (d : driver) (ev : event)
        (ctx : tdls_auto_mode_ctx) :
  wf cfg ctx -> counted ctx -> orderly d ev ctx -> counted (step d ev ctx).
Proof.
  unfold counted, connected_peers. intros W Hc Ho.
  destruct ev as [a|a|a|a|a r|k|h]; simpl in Ho |- *.
  - (* start *)
    unfold tdls_auto_mode_start.
    destruct (tdls_auto_find_peer ctx a) eqn:Hf; [exact Hc|].
    destruct (Z.eq_dec (monitor_traffic d a true) 0) as [Hm|Hm];
      [destruct (os_zalloc_ok d) eqn:Hz|].
    + rewrite add_peer_success by assumption. exact Hc.
    + rewrite add_peer_failure by (now right). exact Hc.
    + rewrite add_peer_failure by (now left). exact Hc.
  - (* stop *)
    destruct (tdls_auto_find_peer ctx a) as [p|] eqn:Hf.
    + rewrite (stop_tracked d ctx a p Hf). cbv zeta. rewrite Ho.
      cbn [conn_peer_count peers andb].
      rewrite (count_unlink a p _ Hf), Ho. simpl Z.b2z.
      now rewrite Z.sub_0_r.
    + now rewrite stop_untracked.
  - (* connected *)
    destruct (tdls_auto_find_peer ctx a) as [p|] eqn:Hf.
    + destruct (connected_known d ctx a p Hf) as (Hp & _ & Hcc & _).
      rewrite Hp, Hcc, (count_store a _ p _ Hf), Ho, sample_connected, Hc.
      simpl Z.b2z. rewrite u32_succ_idem. f_equal. lia.
    + destruct Ho as (Hm & Hz).
      destruct (connected_unknown d ctx a Hf Hm Hz) as (Hp & _ & Hcc & _).
      rewrite Hp, Hcc, Hc, u32_succ_idem. f_equal.
      simpl filter. unfold incoming_entry. rewrite sample_connected.
      simpl connected. cbv iota. simpl length. lia.
  - (* disconnected *)
    destruct (tdls_auto_find_peer ctx a) as [p|] eqn:Hf;
      [|now rewrite disconnected_untracked].
    rewrite (disconnected_tracked d ctx a p Hf).
    destruct (incoming_peer p); cbn [conn_peer_count peers].
    + rewrite (count_unlink a p _ Hf), Ho, Hc. simpl Z.b2z.
      now rewrite u32_pred_idem.
    + rewrite (count_store a _ p _ Hf), Ho, Hc. simpl Z.b2z.
      rewrite u32_pred_idem. f_equal. lia.
  - (* discovery response *)
    destruct (discovery_response_frame d ctx a r) as (Hr & _ & Hcc & _).
    rewrite Hcc, Hc. unfold roles in Hr. now rewrite (count_roles _ _ Hr).
  - (* remove_all *)
    destruct W as (_ & Hpc & Hcc & _).
    assert (Hr : in_u32 (peer_count ctx)) by (rewrite Hpc; apply u32_range).
    unfold tdls_auto_remove_peers.
    destruct (remove_loop_all d k (peers ctx) ctx eq_refl Hr Hcc)
      as (H1 & _ & H3 & _).
    rewrite H1, H3, (no_callback_without_link d k _ Ho), Hc, (count_none _ Ho).
    reflexivity.
  - (* timer expiry *)
    unfold eloop_fire. destruct (pending h (timeouts ctx)); [|exact Hc].
    assert (Hconnect :
              h = fast_connect_timeout \/ h = slow_connect_timeout ->
              conn_peer_count (run_handler h d (tdls_auto_cancel_timer ctx h))
              = u32 (Z.of_nat (length (filter connected
                     (peers (run_handler h d
                               (tdls_auto_cancel_timer ctx h))))))).
    { intros Hh.
      destruct (connect_handler_frame h d (tdls_auto_cancel_timer ctx h) Hh)
        as (Hr & _ & Hcc & _).
      rewrite Hcc. unfold roles in Hr. rewrite (count_roles _ _ Hr).
      exact Hc. }
    assert (Hteardown :
              h = data_teardown_timeout \/ h = rssi_teardown_timeout ->
              conn_peer_count (run_handler h d (tdls_auto_cancel_timer ctx h))
              = u32 (Z.of_nat (length (filter connected
                     (peers (run_handler h d
                               (tdls_auto_cancel_timer ctx h))))))).
    { intros Hh.
      apply (counted_teardown_handler cfg h d _ Hh);
        [now apply wf_cancel_timer|exact Hc]. }
    destruct h; auto.
Qed.

Lemma conn_peer_count_kept_by_orderly_events_witness :
  wf cfg1 ctx_one_candidate /\
  counted ctx_one_candidate /\
  orderly (drv_at 2 0) (EvConnected mac_A) ctx_one_candidate /\
  counted (step (drv_at 2 0) (EvConnected mac_A) ctx_one_candidate).
Proof.
  assert (W : wf cfg1 ctx_one_candidate)
    by exact (reachable_wf cfg1 ctx_one_candidate reachable_ctx_one_candidate).
  assert (C : counted ctx_one_candidate) by reflexivity.
  assert (O : orderly (drv_at 2 0) (EvConnected mac_A) ctx_one_candidate)
    by reflexivity.
  split; [exact W|]. split; [exact C|]. split; [exact O|].
  exact (conn_peer_count_kept_by_orderly_events
           cfg1 (drv_at 2 0) (EvConnected mac_A) ctx_one_candidate W C O).
Defined.

(** ** Initialisation and shutdown of the glue layer *)

(** X16.  [wpas_tdls_auto_init] returns 0 or -1 and never touches the
    configuration.  With auto-mode disabled it returns 0 and does nothing.
    With auto-mode enabled it returns 0 exactly when the driver supports
    external TDLS setup, no controller exists yet, both allocations succeed
    and the fast-connect period is not longer than the slow-connect period;
    it then installs a fresh controller with an empty registry, both
    counters 0, no timer registered and the configuration values copied.
    When it returns -1 the controller slot is as it was: an existing
    controller is never replaced and a failed initialisation leaves none. *)
Theorem init_outcome (e : init_env) (wpa_s : wpa_supplicant) :
  let r := wpas_tdls_auto_init e wpa_s in
  let c := conf wpa_s in
  (snd r = 0 \/ snd r = -1) /\
  conf (fst r) = c /\
  (Config.tdls_auto_enabled c = false -> r = (wpa_s, 0)) /\
  (Config.tdls_auto_enabled c = true ->
   (snd r = 0 <->
    wpa_tdls_is_external_setup e = true /\
    tdls_auto wpa_s = None /\
    glue_alloc_ok e = true /\
    ctx_alloc_ok e = true /\
    u32 (Config.tdls_auto_fast_connect_period c) <=
    u32 (Config.tdls_auto_slow_connect_period c))) /\
  (Config.tdls_auto_enabled c = true -> snd r = 0 ->
   tdls_auto (fst r) = Some (init_ctx (glue_of_conf c))) /\
  (snd r = -1 -> tdls_auto (fst r) = tdls_auto wpa_s).
Proof.
  cbv zeta. unfold wpas_tdls_auto_init.
  destruct (Config.tdls_auto_enabled (conf wpa_s)); simpl negb; cbv iota.
  2:{ repeat split; try discriminate; auto. }
  destruct (wpa_tdls_is_external_setup e); simpl negb; cbv iota.
  2:{ simpl. split; [now right|]. split; [reflexivity|].
      split; [discriminate|]. split; [|split; [discriminate|reflexivity]].
      intros _. split; [discriminate|]. intros (H & _). discriminate. }
  destruct (tdls_auto wpa_s) as [ctx|] eqn:Ht.
  { simpl. split; [now right|]. split; [reflexivity|].
    split; [discriminate|]. split; [|split; [discriminate|now rewrite Ht]].
    intros _. split; [discriminate|]. intros (_ & H & _). discriminate. }
  destruct (glue_alloc_ok e); simpl negb; cbv iota.
  2:{ simpl. split; [now right|]. split; [reflexivity|].
      split; [discriminate|]. split; [|split; [discriminate|now rewrite Ht]].
      intros _. split; [discriminate|]. intros (_ & _ & H & _). discriminate. }
  change (tdls_auto_fast_connect_period (glue_of_conf (conf wpa_s)))
    with (u32 (Config.tdls_auto_fast_connect_period (conf wpa_s))).
  change (tdls_auto_slow_connect_period (glue_of_conf (conf wpa_s)))
    with (u32 (Config.tdls_auto_slow_connect_period (conf wpa_s))).
  destruct (Z.gtb_spec (u32 (Config.tdls_auto_fast_connect_period (conf wpa_s)))
                       (u32 (Config.tdls_auto_slow_connect_period (conf wpa_s))))
    as [Hgt|Hle].
  { simpl. split; [now right|]. split; [reflexivity|].
    split; [discriminate|]. split; [|split; [discriminate|now rewrite Ht]].
    intros _. split; [discriminate|]. intros (_ & _ & _ & _ & H). lia. }
  unfold tdls_auto_init. destruct (ctx_alloc_ok e); simpl.
  - split; [now left|]. split; [reflexivity|]. split; [discriminate|].
    split; [|split; [reflexivity|discriminate]].
    intros _. split; [intros _; now repeat split|reflexivity].
  - split; [now right|]. split; [reflexivity|]. split; [discriminate|].
    split; [|split; [discriminate|reflexivity]].
    intros _. split; [discriminate|]. intros (_ & _ & _ & H & _). discriminate.
Qed.

Lemma removal_calls_keep_links ps :
  flat_map (removal_calls false) ps =
  map (fun p => MonitorTraffic (addr p) false) ps.
Proof.
  induction ps as [|p tl IH]; simpl; [reflexivity|]. now rewrite IH.
Qed.

(** X17.  [wpas_tdls_auto_deinit] on an enabled supplicant with a
    (well-formed) controller leaves no controller behind, so that every
    public entry point is a no-op afterwards and a second deinit does
    nothing.  Before the context is freed every tracked peer is removed:
    the driver sees exactly one accounting-entry deletion per tracked peer,
    in registry order, and no disconnect request, whether or not peers
    were connected.  The data-teardown and rssi-teardown timeouts are not
    cancelled by deinit.  None of this depends on what the driver answers
    during the deinit. *)
Theorem deinit_releases_peers
        (cfg : wpas_tdls_auto_ctx) (d0 : driver) (wpa_s : wpa_supplicant)
        (ctx : tdls_auto_mode_ctx) :
  Config.tdls_auto_enabled (conf wpa_s) = true ->
  tdls_auto wpa_s = Some ctx ->
  wf cfg ctx ->
  let r := wpas_tdls_auto_deinit d0 wpa_s in
  fst r = mk_wpa_s (conf wpa_s) None /\
  (forall d, wpas_tdls_auto_deinit d (fst r) = (fst r, None)) /\
  (forall d a rs k,
     wpas_tdls_auto_start d (fst r) a = (fst r, -1) /\
     wpas_tdls_auto_stop d (fst r) a = fst r /\
     wpas_tdls_auto_peer_connected d (fst r) a = fst r /\
     wpas_tdls_auto_peer_disconnected d (fst r) a = fst r /\
     wpas_tdls_auto_discovery_response d (fst r) a rs = fst r /\
     wpas_tdls_auto_remove_peers d (fst r) k = fst r) /\
  exists c,
    snd r = Some c /\
    peers c = [] /\
    emitted ctx c = map (fun p => MonitorTraffic (addr p) false) (peers ctx) /\
    data_pending (timeouts c) = data_pending (timeouts ctx) /\
    rssi_pending (timeouts c) = rssi_pending (timeouts ctx).
Proof.
  intros He Ht (_ & Hpc & Hcc & _). cbv zeta.
  assert (E : wpas_tdls_auto_deinit d0 wpa_s =
              (mk_wpa_s (conf wpa_s) None, Some (tdls_auto_deinit d0 ctx))).
  { unfold wpas_tdls_auto_deinit. now rewrite He, Ht. }
  rewrite E. cbn [fst snd].
  split; [reflexivity|]. split.
  { intros d. unfold wpas_tdls_auto_deinit. cbn [conf tdls_auto].
    now rewrite He. }
  split.
  { intros d a rs k. split.
    - unfold wpas_tdls_auto_start. cbn [conf tdls_auto]. now rewrite He.
    - repeat split; now apply gated_without_controller. }
  exists (tdls_auto_deinit d0 ctx). split; [reflexivity|].
  assert (Hr : in_u32 (peer_count ctx)) by (rewrite Hpc; apply u32_range).
  unfold tdls_auto_deinit, tdls_auto_remove_peers.
  destruct (remove_loop_all d0 false (peers ctx) ctx eq_refl Hr Hcc)
    as (H1 & _ & _ & _ & H5 & H6 & H7 & _).
  split; [exact H1|]. split; [|now split].
  rewrite (emitted_app _ _ _ H5). apply removal_calls_keep_links.
Qed.

Lemma wf_ctx_one_connected : wf cfg1 ctx_one_connected.
Proof.
  split; [reflexivity|]. split; [reflexivity|]. split.
  - vm_compute. split; [discriminate|reflexivity].
  - simpl. constructor; [intros []|constructor].
Defined.

Lemma deinit_releases_peers_witness :
  Config.tdls_auto_enabled conf_equal_periods = true /\
  wf cfg1 ctx_one_connected /\
  fst (wpas_tdls_auto_deinit (drv_sync 1 0)
         (mk_wpa_s conf_equal_periods (Some ctx_one_connected))) =
  mk_wpa_s conf_equal_periods None.
Proof.
  split; [reflexivity|]. split; [exact wf_ctx_one_connected|].
  exact (proj1 (deinit_releases_peers
                  cfg1 (drv_sync 1 0)
                  (mk_wpa_s conf_equal_periods (Some ctx_one_connected))
                  ctx_one_connected eq_refl eq_refl wf_ctx_one_connected)).
Defined.

(** ** Accuracy of the sampled rate *)

(** X18.  When a sample is taken (at least 100 ms since the last one and
    the driver query succeeds) and nothing overflows 32 bits, that is the
    two byte deltas times 8 sum to less than 2^32 and the exact rate
    ((delta_rx + delta_tx) * 8 * 1000 / delta_msec) is below 2^32, the
    stored [data_rate] is a multiple of 1000 that never exceeds the exact
    rate and falls short of it by less than 1000 bit/s: the sampler rounds
    the rate down to whole kbit/s. *)
Theorem sampled_rate_rounds_down
        (d : driver) (p : tdls_auto_peer) (tx rx : Z) :
  let now := os_get_reltime d (addr p) in
  let dm := delta_msec now (last_query_time p) in
  let exact := spec_data_rate (u32 rx) (u32 tx) (last_rx_bytes p)
                              (last_tx_bytes p) dm in
  let rate := data_rate (fst (tdls_auto_get_peer_data_rate d p)) in
  TDLS_AUTO_MIN_SAMPLE_TIME_DIFF_MSEC <= dm ->
  get_sta_bytes d (addr p) = Some (tx, rx) ->
  (u32 (u32 rx - last_rx_bytes p) + u32 (u32 tx - last_tx_bytes p)) * 8
    < 2 ^ 32 ->
  exact < 2 ^ 32 ->
  rate <= exact < rate + 1000 /\ rate mod 1000 = 0.
Proof.
  cbv zeta. intros Hdm Hb Hbits Hexact.
  unfold tdls_auto_get_peer_data_rate.
  apply Z.ltb_ge in Hdm. rewrite Hdm, Hb. apply Z.ltb_ge in Hdm.
  cbn [fst data_rate set_data_rate]. unfold spec_data_rate in *.
  unfold TDLS_AUTO_MIN_SAMPLE_TIME_DIFF_MSEC in Hdm.
  set (dm := delta_msec (os_get_reltime d (addr p)) (last_query_time p)) in *.
  pose proof (u32_range (u32 rx - last_rx_bytes p)) as Hrx.
  pose proof (u32_range (u32 tx - last_tx_bytes p)) as Htx.
  set (drx := u32 (u32 rx - last_rx_bytes p)) in *.
  set (dtx := u32 (u32 tx - last_tx_bytes p)) in *.
  rewrite (u32_small (drx * 8)) by lia.
  rewrite (u32_small (dtx * 8)) by lia.
  rewrite (u32_small (drx * 8 + dtx * 8)) by lia.
  replace ((drx + dtx) * 8 * 1000) with ((drx * 8 + dtx * 8) * 1000) in * by lia.
  set (bits := drx * 8 + dtx * 8) in *.
  assert (Hb0 : 0 <= bits) by (unfold bits; lia).
  assert (Hq : 0 <= bits / dm) by (apply Z.div_pos; lia).
  assert (Hlo : bits / dm * 1000 <= bits * 1000 / dm).
  { apply Z.div_le_lower_bound; [lia|].
    pose proof (Z.mul_div_le bits dm ltac:(lia)). nia. }
  assert (Hhi : bits * 1000 / dm < bits / dm * 1000 + 1000).
  { apply Z.div_lt_upper_bound; [lia|].
    pose proof (Z.mul_succ_div_gt bits dm ltac:(lia)). nia. }
  rewrite u32_small by lia.
  split; [lia|]. apply Z.mod_mul. lia.
Qed.

Lemma sampled_rate_rounds_down_witness :
  TDLS_AUTO_MIN_SAMPLE_TIME_DIFF_MSEC <=
    delta_msec (os_get_reltime drv_sample0 (addr peer_sample0))
               (last_query_time peer_sample0) /\
  get_sta_bytes drv_sample0 (addr peer_sample0) = Some (0, 10) /\
  data_rate (fst (tdls_auto_get_peer_data_rate drv_sample0 peer_sample0))
    mod 1000 = 0.
Proof.
  split; [vm_compute; discriminate|]. split; [reflexivity|].
  refine (proj2 (sampled_rate_rounds_down drv_sample0 peer_sample0 0 10
                   _ eq_refl _ _)); vm_compute; congruence.
Defined.

(** ** A link to an outgoing peer comes up and goes down *)

(** X19.  For a tracked peer that is not incoming, [connected] followed by
    [disconnected] puts the peer back into the fast-connect phase: the
    registry still lists the same addresses, [peer_count] and
    [conn_peer_count] are as before, the peer is not connected, not
    incoming, and has [fast_attempts] = 0 and [low_rssi_vals] = 0, every
    other address resolves to the same record as before, and the
    fast-connect timeout is registered with the fast-connect period. *)
Theorem outgoing_peer_returns_to_fast_phase
        (d d2 : driver) (ctx : tdls_auto_mode_ctx) (a : macaddr)
        (p : tdls_auto_peer) :
  tdls_auto_find_peer ctx a = Some p ->
  incoming_peer p = false ->
  in_u32 (conn_peer_count ctx) ->
  let c2 :=
    tdls_auto_peer_disconnected d2 (tdls_auto_peer_connected d ctx a) a in
  map addr (peers c2) = map addr (peers ctx) /\
  peer_count c2 = peer_count ctx /\
  conn_peer_count c2 = conn_peer_count ctx /\
  (exists q, tdls_auto_find_peer c2 a = Some q /\
             connected q = false /\ incoming_peer q = false /\
             fast_attempts q = 0 /\ low_rssi_vals q = 0) /\
  (forall b, b <> a -> tdls_auto_find_peer c2 b = tdls_auto_find_peer ctx b) /\
  fast_pending (timeouts c2) =
    armed (tdls_auto_fast_connect_period (extn ctx)).
Proof.
  intros Hf Hi Hcc. cbv zeta.
  destruct (connected_known d ctx a p Hf) as (Hp1 & Hpc1 & Hcc1 & He1).
  set (f := fun q => fst (tdls_auto_get_peer_data_rate
                            d (set_connected true q))) in *.
  assert (Hfa : forall q, addr q = a -> addr (f q) = addr q).
  { intros q _. unfold f. now rewrite sample_addr. }
  assert (Hf1 : tdls_auto_find_peer (tdls_auto_peer_connected d ctx a) a =
                Some (f p)).
  { unfold tdls_auto_find_peer. rewrite Hp1, find_in_store by exact Hfa.
    unfold tdls_auto_find_peer in Hf. now rewrite Hf. }
  assert (Hi1 : incoming_peer (f p) = false).
  { unfold f. now rewrite sample_incoming. }
  rewrite (disconnected_outgoing d2 _ a (f p) Hf1 Hi1).
  ctx_fields. rewrite Hp1, Hpc1, Hcc1, He1.
  rewrite !peer_store_store by (exact Hfa || reflexivity).
  split.
  { apply peer_store_addrs. intros q _. unfold f. simpl.
    now rewrite sample_addr. }
  split; [reflexivity|]. split; [now apply u32_succ_pred|]. split.
  { eexists. split.
    - unfold tdls_auto_find_peer. cbn [peers].
      rewrite find_in_store
        by (intros q _; unfold f; simpl; now rewrite sample_addr).
      unfold tdls_auto_find_peer in Hf. rewrite Hf. reflexivity.
    - simpl. unfold f. rewrite sample_incoming. now repeat split. }
  split; [|reflexivity].
  intros b Hb. unfold tdls_auto_find_peer. cbn [peers].
  apply find_in_store_other; [|congruence].
  intros q _. unfold f. simpl. now rewrite sample_addr.
Qed.

Lemma outgoing_peer_returns_to_fast_phase_witness :
  tdls_auto_find_peer ctx_one_candidate mac_A = Some (zalloc_peer mac_A) /\
  incoming_peer (zalloc_peer mac_A) = false /\
  in_u32 (conn_peer_count ctx_one_candidate) /\
  conn_peer_count
    (tdls_auto_peer_disconnected (drv_sync 3 0)
       (tdls_auto_peer_connected (drv_at 2 0) ctx_one_candidate mac_A) mac_A) =
  conn_peer_count ctx_one_candidate.
Proof.
  assert (Hc : in_u32 (conn_peer_count ctx_one_candidate))
    by (vm_compute; split; [discriminate|reflexivity]).
  split; [reflexivity|]. split; [reflexivity|]. split; [exact Hc|].
  exact (proj1 (proj2 (proj2
           (outgoing_peer_returns_to_fast_phase
              (drv_at 2 0) (drv_sync 3 0) ctx_one_candidate mac_A
              (zalloc_peer mac_A) eq_refl eq_refl Hc)))).
Defined.

(** * The background-scan dispatcher *)

Lemma byte_eqb_refl c : Byte.eqb c c = true.
Proof. now apply byte_dec_lb. Qed.

Lemma nlen_module_part nm :
  match Bgscan.os_strchr nm Bgscan.colon with
  | None => Bgscan.os_strlen nm
  | Some i => i
  end = length (Bgscan.module_part nm).
Proof.
  induction nm as [|c t IH]; simpl; [reflexivity|].
  destruct (Byte.eqb c x00); [reflexivity|].
  destruct (Byte.eqb c Bgscan.colon); [reflexivity|].
  destruct (Bgscan.os_strchr t Bgscan.colon); simpl; now rewrite <- IH.
Qed.

Lemma strncmp_is_prefix nm mn :
  Bgscan.os_strncmp_eq nm mn (length (Bgscan.module_part nm)) =
  Bgscan.is_prefix (Bgscan.module_part nm) (Bgscan.cstr mn).
Proof.
  revert mn; induction nm as [|c t IH]; intros mn; simpl; [reflexivity|].
  destruct (Byte.eqb c x00) eqn:E0; [reflexivity|].
  destruct (Byte.eqb c Bgscan.colon) eqn:Ec; [reflexivity|].
  simpl. destruct mn as [|d mt]; simpl.
  - now rewrite E0.
  - destruct (Byte.eqb c d) eqn:Ed.
    + apply byte_dec_bl in Ed. subst d. rewrite E0. simpl.
      rewrite byte_eqb_refl. simpl. apply IH.
    + destruct (Byte.eqb d x00); simpl; [reflexivity|].
      now rewrite Ed.
Qed.

Lemma bgscan_init_unfold modules e s nm :
  Bgscan.bgscan_init modules e s (Some nm) =
  let s0 := Bgscan.bgscan_deinit s in
  let params := Bgscan.params_part nm in
  match find (fun m => Bgscan.is_prefix (Bgscan.module_part nm)
                                        (Bgscan.cstr (Bgscan.name m)))
             modules with
  | None => (s0, -1)
  | Some ops =>
      let calls := Bgscan.module_calls s0 ++ [Bgscan.ModInit ops params] in
      match Bgscan.module_init e ops params with
      | None => (Bgscan.mk_bgscan (Bgscan.bgscan s0) None calls, -1)
      | Some priv => (Bgscan.mk_bgscan (Some ops) (Some priv) calls, 0)
      end
  end.
Proof.
  unfold Bgscan.bgscan_init, Bgscan.params_part.
  pose proof (nlen_module_part nm) as Hn.
  assert (Hf : forall n, n = length (Bgscan.module_part nm) ->
            find (fun m => Bgscan.os_strncmp_eq nm (Bgscan.name m) n) modules =
            find (fun m => Bgscan.is_prefix (Bgscan.module_part nm)
                             (Bgscan.cstr (Bgscan.name m))) modules).
  { intros n ->. induction modules as [|m ms IHm]; simpl; [reflexivity|].
    rewrite strncmp_is_prefix.
    destruct (Bgscan.is_prefix _ _); [reflexivity|apply IHm]. }
  destruct (Bgscan.os_strchr nm Bgscan.colon) as [i|];
    cbv zeta; rewrite (Hf _ Hn); reflexivity.
Qed.

Lemma find_none_all {A} (f : A -> bool) l :
  (forall x, In x l -> f x <> true) -> find f l = None.
Proof.
  induction l as [|a l IH]; simpl; intros H; [reflexivity|].
  destruct (f a) eqn:E.
  - exfalso. apply (H a); auto.
  - apply IH. intros x Hx. apply H. now right.
Qed.

Lemma find_first {A} (f : A -> bool) pre x post :
  (forall y, In y pre -> f y <> true) -> f x = true ->
  find f (pre ++ x :: post) = Some x.
Proof.
  induction pre as [|a pre IH]; simpl; intros H Hx.
  - now rewrite Hx.
  - destruct (f a) eqn:E.
    + exfalso. apply (H a); auto.
    + apply IH; auto.
Qed.

(** X20 (bgscan_init): the module is chosen by prefix.  With [part] the
    bytes of the name before its first ':' (the whole name when it has
    none), a module matches when [part] is a prefix of the module's name.
    When no module of the table matches, bgscan_init fails with -1 after
    releasing the old instance and calls no module's init; otherwise the
    first matching module of the table is initialised, with the text after
    the ':' as its parameters (the empty string when there is no ':'), and
    the result is 0 exactly when that init returned a non-null pointer. *)
Theorem bgscan_init_selects_by_prefix
        (modules : list Bgscan.bgscan_ops) (e : Bgscan.module_env)
        (s : Bgscan.bgscan_state) (nm : list byte) :
  let s' := fst (Bgscan.bgscan_init modules e s (Some nm)) in
  let r := snd (Bgscan.bgscan_init modules e s (Some nm)) in
  let matches m :=
    Bgscan.is_prefix (Bgscan.module_part nm)
                     (Bgscan.cstr (Bgscan.name m)) = true in
  ((forall m, In m modules -> ~ matches m) ->
   r = -1 /\ s' = Bgscan.bgscan_deinit s) /\
  (forall pre ops post,
      modules = pre ++ ops :: post ->
      (forall m, In m pre -> ~ matches m) ->
      matches ops ->
      Bgscan.module_calls s' =
        Bgscan.module_calls (Bgscan.bgscan_deinit s) ++
        [Bgscan.ModInit ops (Bgscan.params_part nm)] /\
      (r = 0 <->
       Bgscan.module_init e ops (Bgscan.params_part nm) <> None)).
Proof.
  cbv zeta. rewrite bgscan_init_unfold. cbv zeta. split.
  - intros Hnone. rewrite find_none_all by exact Hnone. now split.
  - intros pre ops post -> Hpre Hops.
    rewrite find_first by assumption.
    destruct (Bgscan.module_init e ops (Bgscan.params_part nm)) as [priv|];
      simpl; split; try reflexivity.
    + split; [discriminate|reflexivity].
    + split; [discriminate|congruence].
Qed.

(** X21 (bgscan_init): a name with nothing before the ':' (or an empty
    name) is compared over zero bytes, so it matches every module: the
    first module of a non-empty table is initialised whatever its name. *)
Theorem empty_module_name_selects_first
        (m : Bgscan.bgscan_ops) (ms : list Bgscan.bgscan_ops)
        (e : Bgscan.module_env) (s : Bgscan.bgscan_state)
        (rest : list byte) :
  Bgscan.module_calls
    (fst (Bgscan.bgscan_init (m :: ms) e s (Some (Bgscan.colon :: rest)))) =
    Bgscan.module_calls (Bgscan.bgscan_deinit s) ++
    [Bgscan.ModInit m (Bgscan.cstr rest)] /\
  Bgscan.module_calls
    (fst (Bgscan.bgscan_init (m :: ms) e s (Some []))) =
    Bgscan.module_calls (Bgscan.bgscan_deinit s) ++ [Bgscan.ModInit m []].
Proof.
  split.
  - unfold Bgscan.bgscan_init. simpl.
    destruct (Bgscan.module_init e m (Bgscan.cstr rest)); reflexivity.
  - unfold Bgscan.bgscan_init. simpl.
    destruct (Bgscan.module_init e m []); reflexivity.
Qed.

Lemma deinit_paired s :
  Bgscan.paired s ->
  Bgscan.bgscan (Bgscan.bgscan_deinit s) = None /\
  Bgscan.bgscan_priv (Bgscan.bgscan_deinit s) = None.
Proof.
  unfold Bgscan.paired, Bgscan.bgscan_deinit. intros [H1 H2].
  destruct (Bgscan.bgscan s) as [o|] eqn:Eo;
    destruct (Bgscan.bgscan_priv s) as [p|] eqn:Ep; simpl.
  - now split.
  - specialize (H2 eq_refl). discriminate.
  - specialize (H1 eq_refl). discriminate.
  - now split.
Qed.

(** X22 (bgscan_init, bgscan_deinit): when the two bgscan members of the
    interface are both set or both clear before the call, they are so
    after it; the result is 0 or -1, and it is 0 exactly when a module is
    installed afterwards.  In particular a failed bgscan_init leaves the
    interface without a module, also when one was running before. *)
Theorem bgscan_init_keeps_members_paired
        (modules : list Bgscan.bgscan_ops) (e : Bgscan.module_env)
        (s : Bgscan.bgscan_state) (name_arg : option (list byte)) :
  Bgscan.paired s ->
  let s' := fst (Bgscan.bgscan_init modules e s name_arg) in
  let r := snd (Bgscan.bgscan_init modules e s name_arg) in
  Bgscan.paired s' /\
  (r = 0 \/ r = -1) /\
  (r = 0 <-> Bgscan.bgscan s' <> None).
Proof.
  intros Hp. destruct (deinit_paired s Hp) as [Hb Hv]. cbv zeta.
  destruct name_arg as [nm|].
  - rewrite bgscan_init_unfold. cbv zeta.
    destruct (find _ modules) as [ops|].
    + destruct (Bgscan.module_init e ops (Bgscan.params_part nm)) as [priv|];
        simpl.
      * repeat split; try discriminate; auto.
      * rewrite Hb. repeat split; auto; try discriminate; congruence.
    + simpl. rewrite Hb. unfold Bgscan.paired. rewrite Hb, Hv.
      repeat split; auto; try discriminate; congruence.
  - unfold Bgscan.bgscan_init. simpl. rewrite Hb.
    unfold Bgscan.paired. rewrite Hb, Hv.
    repeat split; auto; try discriminate; congruence.
Qed.

Lemma bgscan_init_keeps_members_paired_witness :
  Bgscan.paired Bgscan.running_learn /\
  let s' := fst (Bgscan.bgscan_init
                   [Bgscan.bgscan_simple_ops; Bgscan.bgscan_learn_ops]
                   Bgscan.env_ok Bgscan.running_learn
                   (Some Bgscan.name_simple_30)) in
  let r := snd (Bgscan.bgscan_init
                   [Bgscan.bgscan_simple_ops; Bgscan.bgscan_learn_ops]
                   Bgscan.env_ok Bgscan.running_learn
                   (Some Bgscan.name_simple_30)) in
  Bgscan.paired s' /\
  (r = 0 \/ r = -1) /\
  (r = 0 <-> Bgscan.bgscan s' <> None).
Proof.
  assert (H : Bgscan.paired Bgscan.running_learn)
    by (split; discriminate).
  split; [exact H|].
  exact (bgscan_init_keeps_members_paired _ _ _ _ H).
Defined.

(** X23 (bgscan_init, bgscan_deinit): a running module is released first.
    When a module is installed at the call, its deinit is the first call
    bgscan_init makes, with the private pointer of that module; it is made
    once, and at most one call follows, the init of the new module. *)
Theorem bgscan_init_releases_running_module
        (modules : list Bgscan.bgscan_ops) (e : Bgscan.module_env)
        (s : Bgscan.bgscan_state) (name_arg : option (list byte))
        (old : Bgscan.bgscan_ops) (priv : nat) :
  Bgscan.bgscan s = Some old ->
  Bgscan.bgscan_priv s = Some priv ->
  exists rest,
    Bgscan.module_calls (fst (Bgscan.bgscan_init modules e s name_arg)) =
      Bgscan.module_calls s ++ Bgscan.ModDeinit old priv :: rest /\
    (rest = [] \/ exists ops params, rest = [Bgscan.ModInit ops params]).
Proof.
  intros Ho Hv.
  assert (Hd : Bgscan.bgscan_deinit s =
               Bgscan.mk_bgscan None None
                 (Bgscan.module_calls s ++ [Bgscan.ModDeinit old priv])).
  { unfold Bgscan.bgscan_deinit. now rewrite Ho, Hv. }
  destruct name_arg as [nm|].
  - rewrite bgscan_init_unfold. cbv zeta. rewrite Hd.
    destruct (find _ modules) as [ops|].
    + exists [Bgscan.ModInit ops (Bgscan.params_part nm)].
      split; [|right; eauto].
      destruct (Bgscan.module_init e ops (Bgscan.params_part nm));
        simpl; now rewrite <- app_assoc.
    + exists []. split; [reflexivity|now left].
  - exists []. unfold Bgscan.bgscan_init. rewrite Hd.
    split; [reflexivity|now left].
Qed.

Lemma bgscan_init_releases_running_module_witness :
  exists rest,
    Bgscan.module_calls
      (fst (Bgscan.bgscan_init
              [Bgscan.bgscan_simple_ops; Bgscan.bgscan_learn_ops]
              Bgscan.env_ok Bgscan.running_learn
              (Some Bgscan.name_simple_30))) =
      Bgscan.module_calls Bgscan.running_learn ++
      Bgscan.ModDeinit Bgscan.bgscan_learn_ops 3 :: rest /\
    (rest = [] \/ exists ops params, rest = [Bgscan.ModInit ops params]).
Proof.
  exact (bgscan_init_releases_running_module
           [Bgscan.bgscan_simple_ops; Bgscan.bgscan_learn_ops]
           Bgscan.env_ok Bgscan.running_learn
           (Some Bgscan.name_simple_30) Bgscan.bgscan_learn_ops 3
           eq_refl eq_refl).
Defined.

Lemma forward_deinit what s :
  Bgscan.forward what (Bgscan.bgscan_deinit s) = None.
Proof.
  unfold Bgscan.forward, Bgscan.bgscan_deinit.
  destruct (Bgscan.bgscan s) as [o|] eqn:Eo;
    destruct (Bgscan.bgscan_priv s) as [p|] eqn:Ep; simpl;
    rewrite ?Eo, ?Ep; reflexivity.
Qed.

(** X24 (bgscan_deinit and the five notify functions): after
    bgscan_deinit no notification reaches a module, whatever the state
    was: the scan notification returns 0 and the others return, all
    without a call and without a change of state; a second bgscan_deinit
    does nothing. *)
Theorem notifications_dropped_after_deinit
        (e : Bgscan.module_env) (s : Bgscan.bgscan_state)
        (what : Bgscan.notification) :
  let s0 := Bgscan.bgscan_deinit s in
  Bgscan.bgscan_notify_scan e s0 = (s0, 0) /\
  Bgscan.notify_void what s0 = s0 /\
  Bgscan.bgscan_deinit s0 = s0.
Proof.
  cbv zeta. unfold Bgscan.bgscan_notify_scan, Bgscan.notify_void.
  rewrite !forward_deinit. repeat split.
  unfold Bgscan.bgscan_deinit.
  destruct (Bgscan.bgscan s) as [o|] eqn:Eo;
    destruct (Bgscan.bgscan_priv s) as [p|] eqn:Ep; simpl;
    rewrite ?Eo, ?Ep; reflexivity.
Qed.

(** X25 (bgscan_init and the notify functions): after a bgscan_init that
    returned 0, a notification goes to the module whose init was the last
    call of bgscan_init, with the private pointer that init returned, when
    the module provides the callback; it is dropped when the module does
    not, and the scan notification then returns 0. *)
Theorem notifications_reach_the_new_module
        (modules : list Bgscan.bgscan_ops) (e : Bgscan.module_env)
        (s : Bgscan.bgscan_state) (name_arg : option (list byte)) :
  snd (Bgscan.bgscan_init modules e s name_arg) = 0 ->
  let s' := fst (Bgscan.bgscan_init modules e s name_arg) in
  exists ops params priv,
    Bgscan.module_calls s' =
      Bgscan.module_calls (Bgscan.bgscan_deinit s) ++
      [Bgscan.ModInit ops params] /\
    Bgscan.module_init e ops params = Some priv /\
    (forall what,
      Bgscan.module_calls (Bgscan.notify_void what s') =
      if Bgscan.provides ops what
      then Bgscan.module_calls s' ++ [Bgscan.ModNotify ops priv what]
      else Bgscan.module_calls s') /\
    snd (Bgscan.bgscan_notify_scan e s') =
      if Bgscan.provides ops Bgscan.notify_scan
      then Bgscan.module_notify_scan e ops priv
      else 0.
Proof.
  cbv zeta. destruct name_arg as [nm|].
  - rewrite bgscan_init_unfold. cbv zeta.
    destruct (find _ modules) as [ops|]; [|discriminate].
    destruct (Bgscan.module_init e ops (Bgscan.params_part nm))
      as [priv|] eqn:Ei; [|discriminate].
    intros _. exists ops, (Bgscan.params_part nm), priv.
    simpl. repeat split; auto.
    + intros what. unfold Bgscan.notify_void, Bgscan.forward. simpl.
      destruct (Bgscan.provides ops what); reflexivity.
    + unfold Bgscan.bgscan_notify_scan, Bgscan.forward. simpl.
      destruct (Bgscan.provides ops Bgscan.notify_scan); reflexivity.
  - unfold Bgscan.bgscan_init. simpl. discriminate.
Qed.

Lemma notifications_reach_the_new_module_witness :
  let s' := fst (Bgscan.bgscan_init
                   [Bgscan.bgscan_simple_ops; Bgscan.bgscan_learn_ops]
                   Bgscan.env_ok Bgscan.idle
                   (Some Bgscan.name_simple_30)) in
  exists ops params priv,
    Bgscan.module_calls s' =
      Bgscan.module_calls (Bgscan.bgscan_deinit Bgscan.idle) ++
      [Bgscan.ModInit ops params] /\
    Bgscan.module_init Bgscan.env_ok ops params = Some priv /\
    (forall what,
      Bgscan.module_calls (Bgscan.notify_void what s') =
      if Bgscan.provides ops what
      then Bgscan.module_calls s' ++ [Bgscan.ModNotify ops priv what]
      else Bgscan.module_calls s') /\
    snd (Bgscan.bgscan_notify_scan Bgscan.env_ok s') =
      if Bgscan.provides ops Bgscan.notify_scan
      then Bgscan.module_notify_scan Bgscan.env_ok ops priv
      else 0.
Proof.
  exact (notifications_reach_the_new_module
           [Bgscan.bgscan_simple_ops; Bgscan.bgscan_learn_ops]
           Bgscan.env_ok Bgscan.idle (Some Bgscan.name_simple_30) eq_refl).
Defined.

(** * Hang detection of the Android driver wrapper *)

Lemma send_hang_range N st :
  0 <= N -> 0 <= AndroidDrv.drv_errors st <= N ->
  0 <= AndroidDrv.drv_errors (AndroidDrv.wpa_driver_send_hang_msg N st) <= N.
Proof.
  intros HN He. unfold AndroidDrv.wpa_driver_send_hang_msg. cbv zeta.
  destruct (Z.gtb_spec (AndroidDrv.drv_errors st + 1) N); simpl; lia.
Qed.

Lemma priv_cmd_range N r st :
  0 <= N -> 0 <= AndroidDrv.drv_errors st <= N ->
  0 <= AndroidDrv.drv_errors (fst (AndroidDrv.android_priv_cmd N r st)) <= N.
Proof.
  intros HN He. unfold AndroidDrv.android_priv_cmd.
  destruct (r <? 0); simpl; [now apply send_hang_range|lia].
Qed.

Lemma failures_closed_form N rets :
  0 <= N ->
  Forall (fun r => r < 0) rets ->
  forall st,
    0 <= AndroidDrv.drv_errors st <= N ->
    let total := AndroidDrv.drv_errors st + Z.of_nat (length rets) in
    let st' := AndroidDrv.priv_cmds N rets st in
    AndroidDrv.drv_errors st' = total mod (N + 1) /\
    Z.of_nat (AndroidDrv.hang_reports st') =
      Z.of_nat (AndroidDrv.hang_reports st) + total / (N + 1).
Proof.
  intros HN Hall. induction Hall as [|r tl Hr Htl IH]; intros st He; cbv zeta.
  - simpl. rewrite Z.add_0_r, Z.mod_small, Z.div_small by lia. lia.
  - cbn [AndroidDrv.priv_cmds length].
    assert (Hlt : (r <? 0) = true) by (apply Z.ltb_lt; exact Hr).
    unfold AndroidDrv.android_priv_cmd. rewrite Hlt. cbn [fst].
    pose proof (send_hang_range N st HN He) as Hrange.
    specialize (IH _ Hrange). cbv zeta in IH. destruct IH as [IHe IHr].
    rewrite IHe, IHr. clear IHe IHr Hrange.
    unfold AndroidDrv.wpa_driver_send_hang_msg. cbv zeta.
    rewrite Nat2Z.inj_succ.
    generalize (Z.of_nat (length tl)); intros k.
    generalize (AndroidDrv.hang_reports st); intros reports.
    revert He. generalize (AndroidDrv.drv_errors st); intros e He.
    destruct (Z.gtb_spec (e + 1) N) as [Hgt|Hle];
      cbn [AndroidDrv.drv_errors AndroidDrv.hang_reports].
    + assert (E : e + Z.succ k = k + 1 * (N + 1)) by lia.
      rewrite E, Z.mod_add, Z.div_add by lia.
      rewrite Z.add_0_l, Nat2Z.inj_succ. split; [reflexivity|lia].
    + replace (e + Z.succ k) with (e + 1 + k) by lia. now split.
Qed.

(** X26 (wpa_driver_send_hang_msg, android_priv_cmd): with the error
    counter at 0 and a limit DRV_NUMBER_SEQUENTIAL_ERRORS = N >= 0, k
    private commands whose ioctl fails in a row leave the counter at
    k mod (N + 1) and report "HANGED" k / (N + 1) times: nothing is
    reported during the first N failures, the (N+1)-th is reported and
    starts the count again. *)
Theorem hang_reported_every_max_plus_one_failures
        (N : Z) (rets : list Z) (st : AndroidDrv.hang_state) :
  0 <= N ->
  AndroidDrv.drv_errors st = 0 ->
  Forall (fun r => r < 0) rets ->
  let k := Z.of_nat (length rets) in
  let st' := AndroidDrv.priv_cmds N rets st in
  AndroidDrv.drv_errors st' = k mod (N + 1) /\
  Z.of_nat (AndroidDrv.hang_reports st') =
    Z.of_nat (AndroidDrv.hang_reports st) + k / (N + 1).
Proof.
  intros HN H0 Hall. cbv zeta.
  assert (He : 0 <= AndroidDrv.drv_errors st <= N) by lia.
  pose proof (failures_closed_form N rets HN Hall st He) as H.
  cbv zeta in H. rewrite H0, Z.add_0_l in H. exact H.
Qed.

Lemma hang_reported_every_max_plus_one_failures_witness :
  let rets := [-1; -1; -5; -1; -1; -1] in
  let st := AndroidDrv.mk_hang 0 0 in
  let k := Z.of_nat (length rets) in
  let st' := AndroidDrv.priv_cmds 4 rets st in
  AndroidDrv.drv_errors st' = k mod (4 + 1) /\
  Z.of_nat (AndroidDrv.hang_reports st') =
    Z.of_nat (AndroidDrv.hang_reports st) + k / (4 + 1).
Proof.
  apply (hang_reported_every_max_plus_one_failures
           4 [-1; -1; -5; -1; -1; -1] (AndroidDrv.mk_hang 0 0)).
  - lia.
  - reflexivity.
  - repeat constructor.
Defined.

Lemma longest_run_ge cur rets : cur <= AndroidDrv.longest_run cur rets.
Proof.
  revert cur; induction rets as [|r tl IH]; intros cur; simpl; [lia|].
  destruct (r <? 0).
  - specialize (IH (cur + 1)). lia.
  - lia.
Qed.

(** X27 (wpa_driver_send_hang_msg, android_priv_cmd): no hang is reported
    without more than DRV_NUMBER_SEQUENTIAL_ERRORS failures in a row.
    Over any sequence of private commands in which no run of consecutive
    failing ioctls (counting the failures already on the counter) is
    longer than the limit, nl80211_report_hang is never called: a
    successful command in between starts the count again. *)
Theorem no_hang_report_without_long_failure_run
        (N : Z) (rets : list Z) (st : AndroidDrv.hang_state) :
  0 <= AndroidDrv.drv_errors st ->
  AndroidDrv.longest_run (AndroidDrv.drv_errors st) rets <= N ->
  AndroidDrv.hang_reports (AndroidDrv.priv_cmds N rets st) =
  AndroidDrv.hang_reports st.
Proof.
  revert st; induction rets as [|r tl IH]; intros st He Hrun;
    [reflexivity|].
  cbn [AndroidDrv.priv_cmds AndroidDrv.longest_run] in *.
  unfold AndroidDrv.android_priv_cmd.
  destruct (r <? 0); cbn [fst].
  - pose proof (longest_run_ge (AndroidDrv.drv_errors st + 1) tl) as Hge.
    unfold AndroidDrv.wpa_driver_send_hang_msg. cbv zeta.
    destruct (Z.gtb_spec (AndroidDrv.drv_errors st + 1) N) as [Hgt|Hle];
      [lia|].
    rewrite IH; simpl; [reflexivity|lia|exact Hrun].
  - rewrite IH; simpl; [reflexivity|lia|lia].
Qed.

Lemma no_hang_report_without_long_failure_run_witness :
  AndroidDrv.hang_reports
    (AndroidDrv.priv_cmds 4 [-1; -1; -1; -1; 0; -1; -1; -1; -1; 7; -1]
                          (AndroidDrv.mk_hang 0 0)) =
  AndroidDrv.hang_reports (AndroidDrv.mk_hang 0 0).
Proof.
  apply (no_hang_report_without_long_failure_run
           4 [-1; -1; -1; -1; 0; -1; -1; -1; -1; 7; -1]
           (AndroidDrv.mk_hang 0 0)).
  - simpl. lia.
  - vm_compute. discriminate.
Defined.

(** X28 (wpa_driver_send_hang_msg, android_priv_cmd, android_pno_stop):
    the error counter stays within 0 .. DRV_NUMBER_SEQUENTIAL_ERRORS over
    every sequence of private commands, whatever their ioctls return, so
    with a limit below INT_MAX its increment never overflows; the number
    of hang reports never decreases; and one command returns the ioctl's
    negative value on failure and 0 otherwise. *)
Theorem error_count_stays_in_range
        (N : Z) (rets : list Z) (st : AndroidDrv.hang_state) :
  0 <= N ->
  0 <= AndroidDrv.drv_errors st <= N ->
  0 <= AndroidDrv.drv_errors (AndroidDrv.priv_cmds N rets st) <= N /\
  (AndroidDrv.hang_reports st <=
   AndroidDrv.hang_reports (AndroidDrv.priv_cmds N rets st))%nat /\
  forall r, snd (AndroidDrv.android_pno_stop N r st) = Z.min r 0.
Proof.
  intros HN He. split; [|split].
  - revert st He; induction rets as [|r tl IH]; intros st He; simpl;
      [exact He|].
    apply IH. now apply priv_cmd_range.
  - clear He. revert st; induction rets as [|r tl IH]; intros st; simpl;
      [lia|].
    eapply Nat.le_trans; [|apply IH].
    unfold AndroidDrv.android_priv_cmd,
      AndroidDrv.wpa_driver_send_hang_msg. cbv zeta.
    destruct (r <? 0); simpl; [|lia].
    destruct (AndroidDrv.drv_errors st + 1 >? N); simpl; lia.
  - intros r. unfold AndroidDrv.android_pno_stop,
      AndroidDrv.android_priv_cmd.
    destruct (Z.ltb_spec r 0); simpl; lia.
Qed.

Lemma error_count_stays_in_range_witness :
  0 <= AndroidDrv.drv_errors
         (AndroidDrv.priv_cmds 4 [-1; 0; -1; -1; -1; -1; -1; -1]
                               (AndroidDrv.mk_hang 2 0)) <= 4 /\
  le (AndroidDrv.hang_reports (AndroidDrv.mk_hang 2 0))
     (AndroidDrv.hang_reports
        (AndroidDrv.priv_cmds 4 [-1; 0; -1; -1; -1; -1; -1; -1]
                              (AndroidDrv.mk_hang 2 0))) /\
  forall r, snd (AndroidDrv.android_pno_stop 4 r (AndroidDrv.mk_hang 2 0)) =
            Z.min r 0.
Proof.
  apply (error_count_stays_in_range
           4 [-1; 0; -1; -1; -1; -1; -1; -1] (AndroidDrv.mk_hang 2 0)).
  - lia.
  - simpl. lia.
Defined.
